(** * zarf-testing: package discovery and validation engine

    A shallow embedding of [pkg/zarf/validator.go], of the package locator
    of [pkg/zarf] and of the version helpers of [pkg/util], together with
    the properties of the validation pipeline.

    Go strings are byte strings: they are modelled by [string] (a list of
    8-bit [ascii]).  The functions of [strings] that work on runes
    ([TrimSpace], [ToLower]) decode them from the bytes as [unicode/utf8]
    does.  Errors are modelled by their message.  Everything the
    code obtains from outside the process (files, sub-processes, the YAML
    and semantic-version libraries) is read from an explicit [World]. *)

From Stdlib Require Import String Ascii List ZArith Bool Lia.
From stdpp Require Import base option list gmap sets strings pretty.

Local Open Scope string_scope.
Local Open Scope list_scope.

(* ===================================================================== *)
(** ** The part of Go's [unicode/utf8] and [unicode] packages used by it  *)
(* ===================================================================== *)

(** Runes are modelled by [Z], bytes by the [Z] below 256. *)
Module Utf8.

Definition RuneError : Z := 65533.
Definition RuneSelf : Z := 128.
Definition MaxRune : Z := 1114111.
Definition UTFMax : Z := 4.

Definition byteOf (c : ascii) : Z := Z.of_N (N_of_ascii c).

(** The conversion [byte(r)]. *)
Definition charOf (r : Z) : ascii := ascii_of_N (Z.to_N (r mod 256)).

(** [s[i]], for an index inside [s]. *)
Definition byteAt (s : string) (i : Z) : Z :=
  match String.get (Z.to_nat i) s with
  | Some c => byteOf c
  | None => 0%Z
  end.

(** [s[i:j]], for [0 <= i <= j <= len(s)]. *)
Definition slice (s : string) (i j : Z) : string :=
  String.substring (Z.to_nat i) (Z.to_nat (j - i)) s.

(** The table [first]: what a first byte announces.  [Lead size lo hi]
    is a sequence of [size] bytes whose second byte lies in [lo..hi]. *)
Inductive First :=
| Single
| Invalid
| Lead (size : nat) (lo hi : Z).

Definition first (b : Z) : First :=
  if (b <? 0x80)%Z then Single
  else if (b <? 0xC2)%Z then Invalid
  else if (b <? 0xE0)%Z then Lead 2 0x80 0xBF
  else if (b =? 0xE0)%Z then Lead 3 0xA0 0xBF
  else if (b <? 0xED)%Z then Lead 3 0x80 0xBF
  else if (b =? 0xED)%Z then Lead 3 0x80 0x9F
  else if (b <? 0xF0)%Z then Lead 3 0x80 0xBF
  else if (b =? 0xF0)%Z then Lead 4 0x90 0xBF
  else if (b <? 0xF4)%Z then Lead 4 0x80 0xBF
  else if (b =? 0xF4)%Z then Lead 4 0x80 0x8F
  else Invalid.

(** A continuation byte: [locb <= b <= hicb]. *)
Definition continuation (b : Z) : bool := (0x80 <=? b)%Z && (b <=? 0xBF)%Z.

(** [utf8.DecodeRuneInString s]: the rune and its width in bytes. *)
Definition DecodeRuneInString (s : string) : Z * nat :=
  match s with
  | EmptyString => (RuneError, 0)
  | String c0 rest =>
      let s0 := byteOf c0 in
      match first s0 with
      | Single => (s0, 1)
      | Invalid => (RuneError, 1)
      | Lead sz lo hi =>
          if (String.length s <? sz)%nat then (RuneError, 1)
          else
            match rest with
            | EmptyString => (RuneError, 1)
            | String c1 rest =>
                let s1 := byteOf c1 in
                if (s1 <? lo)%Z || (hi <? s1)%Z then (RuneError, 1)
                else if (sz <=? 2)%nat
                then (Z.lor (Z.shiftl (Z.land s0 0x1F) 6) (Z.land s1 0x3F), 2)
                else
                  match rest with
                  | EmptyString => (RuneError, 1)
                  | String c2 rest =>
                      let s2 := byteOf c2 in
                      if negb (continuation s2) then (RuneError, 1)
                      else if (sz <=? 3)%nat
                      then (Z.lor (Z.lor (Z.shiftl (Z.land s0 0x0F) 12)
                                         (Z.shiftl (Z.land s1 0x3F) 6))
                                  (Z.land s2 0x3F), 3)
                      else
                        match rest with
                        | EmptyString => (RuneError, 1)
                        | String c3 _ =>
                            let s3 := byteOf c3 in
                            if negb (continuation s3) then (RuneError, 1)
                            else (Z.lor (Z.lor (Z.lor (Z.shiftl (Z.land s0 0x07) 18)
                                                      (Z.shiftl (Z.land s1 0x3F) 12))
                                               (Z.shiftl (Z.land s2 0x3F) 6))
                                        (Z.land s3 0x3F), 4)
                        end
                  end
            end
      end
  end.

(** [utf8.RuneStart b]: not a continuation byte. *)
Definition RuneStart (b : Z) : bool := negb (Z.land b 0xC0 =? 0x80)%Z.

(** The loop of [DecodeLastRuneInString] that steps back to the start of
    the last rune, at most to [lim]; it runs at most three times. *)
Fixpoint lastStart (s : string) (lim : Z) (fuel : nat) (start : Z) : Z :=
  match fuel with
  | O => start
  | S fuel' =>
      if (start <? lim)%Z then start
      else if RuneStart (byteAt s start) then start
      else lastStart s lim fuel' (start - 1)
  end.

(** [utf8.DecodeLastRuneInString s]. *)
Definition DecodeLastRuneInString (s : string) : Z * nat :=
  let end_ := Z.of_nat (String.length s) in
  if (end_ =? 0)%Z then (RuneError, 0)
  else
    let r := byteAt s (end_ - 1) in
    if (r <? RuneSelf)%Z then (r, 1)
    else
      let lim := Z.max 0 (end_ - UTFMax) in
      let start := lastStart s lim 3 (end_ - 2) in
      let start := if (start <? 0)%Z then 0%Z else start in
      let '(r, size) := DecodeRuneInString (slice s start end_) in
      if negb (start + Z.of_nat size =? end_)%Z then (RuneError, 1)
      else (r, size).

(** [utf8.AppendRune], as used by [strings.Builder.WriteRune]: the
    encoding of a rune; a surrogate or a value out of range is written
    as [RuneError]. *)
Definition encode3 (r : Z) : string :=
  String (charOf (Z.lor 0xE0 (Z.shiftr r 12)))
    (String (charOf (Z.lor 0x80 (Z.land (Z.shiftr r 6) 0x3F)))
       (String (charOf (Z.lor 0x80 (Z.land r 0x3F))) EmptyString)).

Definition AppendRune (r : Z) : string :=
  if (0 <=? r)%Z && (r <=? 0x7F)%Z then String (charOf r) EmptyString
  else if (0 <=? r)%Z && (r <=? 0x7FF)%Z
  then String (charOf (Z.lor 0xC0 (Z.shiftr r 6)))
         (String (charOf (Z.lor 0x80 (Z.land r 0x3F))) EmptyString)
  else if (r <? 0)%Z || (MaxRune <? r)%Z || ((0xD800 <=? r)%Z && (r <=? 0xDFFF)%Z)
  then encode3 RuneError
  else if (r <=? 0xFFFF)%Z then encode3 r
  else String (charOf (Z.lor 0xF0 (Z.shiftr r 18)))
         (String (charOf (Z.lor 0x80 (Z.land (Z.shiftr r 12) 0x3F)))
            (String (charOf (Z.lor 0x80 (Z.land (Z.shiftr r 6) 0x3F)))
               (String (charOf (Z.lor 0x80 (Z.land r 0x3F))) EmptyString))).

(** [unicode.IsSpace]: the Latin-1 spaces, then the other code points
    with the property White_Space. *)
Definition IsSpace (r : Z) : bool :=
  if (r <=? 0xFF)%Z
  then ((0x09 <=? r)%Z && (r <=? 0x0D)%Z) || (r =? 0x20)%Z || (r =? 0x85)%Z || (r =? 0xA0)%Z
  else (r =? 0x1680)%Z || ((0x2000 <=? r)%Z && (r <=? 0x200A)%Z)
       || (r =? 0x2028)%Z || (r =? 0x2029)%Z || (r =? 0x202F)%Z
       || (r =? 0x205F)%Z || (r =? 0x3000)%Z.

(** [unicode.ToLower]: for an ASCII rune the letters [A] to [Z] are
    shifted; above, the answer is read from the case tables of the Go
    runtime, [lowerCase] (this is [unicode.To(unicode.LowerCase, r)]). *)
Definition ToLower (lowerCase : Z -> Z) (r : Z) : Z :=
  if (r <=? 0x7F)%Z
  then if (0x41 <=? r)%Z && (r <=? 0x5A)%Z then (r + 32)%Z else r
  else lowerCase r.

End Utf8.

(* ===================================================================== *)
(** ** The part of Go's [strings] package used by the code               *)
(* ===================================================================== *)

Module Strings.

(** [strings.HasPrefix s p]. *)
Definition HasPrefix (s p : string) : bool := String.prefix p s.

(** Drop the first [n] bytes. *)
Fixpoint drop_bytes (n : nat) (s : string) : string :=
  match n, s with
  | O, _ => s
  | S _, EmptyString => EmptyString
  | S k, String _ s' => drop_bytes k s'
  end.

(** [strings.TrimPrefix s p]. *)
Definition TrimPrefix (s p : string) : string :=
  if HasPrefix s p then drop_bytes (String.length p) s else s.

(** [strings.Contains s sub]: some suffix of [s] starts with [sub]. *)
Fixpoint Contains (s sub : string) : bool :=
  if String.prefix sub s then true
  else match s with
       | EmptyString => false
       | String _ s' => Contains s' sub
       end.

(** The splitting loop shared by [Split] and [SplitN], for a non-empty
    separator.  [skip] counts the bytes of a separator still to be
    consumed, [acc] is the piece read so far, and [limit] is the number
    of cuts still allowed ([None]: no bound). *)
Fixpoint genSplit (sep : string) (limit : option nat) (skip : nat)
         (acc : string) (s : string) : list string :=
  match skip with
  | S k =>
      match s with
      | EmptyString => [acc]
      | String _ s' => genSplit sep limit k acc s'
      end
  | O =>
      match s with
      | EmptyString => [acc]
      | String c s' =>
          match limit with
          | Some O => [acc +:+ s]
          | _ =>
              if String.prefix sep s
              then acc :: genSplit sep (pred <$> limit)
                                   (String.length sep - 1) EmptyString s'
              else genSplit sep limit O (acc +:+ String c EmptyString) s'
          end
      end
  end.

(** One piece per byte: what Go does for an empty separator on ASCII
    text.  (The code never splits on the empty separator.) *)
Fixpoint explode (s : string) : list string :=
  match s with
  | EmptyString => []
  | String c s' => String c EmptyString :: explode s'
  end.

(** [strings.Split s sep]. *)
Definition Split (s sep : string) : list string :=
  match sep with
  | EmptyString => explode s
  | _ => genSplit sep None O EmptyString s
  end.

(** [strings.SplitN s sep n] for [n > 0] and a non-empty separator: at
    most [n] pieces, the last one being the unsplit remainder. *)
Definition SplitN (s sep : string) (n : nat) : list string :=
  match n with
  | O => []
  | S k => genSplit sep (Some k) O EmptyString s
  end.

(** [strings.Count s sub] for a non-empty [sub]: the number of
    non-overlapping occurrences. *)
Definition Count (s sub : string) : nat := List.length (Split s sub) - 1.

Fixpoint trimLeftFunc (f : ascii -> bool) (s : string) : string :=
  match s with
  | EmptyString => EmptyString
  | String c s' => if f c then trimLeftFunc f s' else s
  end.

Fixpoint trimRightFunc (f : ascii -> bool) (s : string) : string :=
  match s with
  | EmptyString => EmptyString
  | String c s' =>
      match trimRightFunc f s' with
      | EmptyString => if f c then EmptyString else String c EmptyString
      | r => String c r
      end
  end.

(** The loop of [indexFunc] over the runes of [s] ([for i, r := range s]):
    the index of the first rune on which [f] answers [truth], or -1.
    [skip] counts the bytes of the current rune still to be passed and
    [i] is the index of the first byte of [s]. *)
Fixpoint indexFuncFrom (f : Z -> bool) (truth : bool) (skip : nat) (i : Z) (s : string)
  : Z :=
  match s with
  | EmptyString => (-1)%Z
  | String _ s' =>
      match skip with
      | S skip' => indexFuncFrom f truth skip' (i + 1)%Z s'
      | O =>
          let '(r, width) := Utf8.DecodeRuneInString s in
          if Bool.eqb (f r) truth then i
          else indexFuncFrom f truth (width - 1) (i + 1)%Z s'
      end
  end.

Definition indexFunc (s : string) (f : Z -> bool) (truth : bool) : Z :=
  indexFuncFrom f truth 0 0%Z s.

(** The loop of [lastIndexFunc], from the end of [s[0:i]]; every turn
    moves [i] down by at least one, so the length of [s] bounds the
    number of turns. *)
Fixpoint lastIndexFuncFrom (f : Z -> bool) (truth : bool) (fuel : nat) (s : string) (i : Z)
  : Z :=
  match fuel with
  | O => (-1)%Z
  | S fuel' =>
      if (i <=? 0)%Z then (-1)%Z
      else
        let '(r, size) := Utf8.DecodeLastRuneInString (Utf8.slice s 0 i) in
        let i := (i - Z.of_nat size)%Z in
        if Bool.eqb (f r) truth then i else lastIndexFuncFrom f truth fuel' s i
  end.

Definition lastIndexFunc (s : string) (f : Z -> bool) (truth : bool) : Z :=
  lastIndexFuncFrom f truth (String.length s) s (Z.of_nat (String.length s)).

(** [strings.TrimLeftFunc s f], on runes. *)
Definition TrimLeftFunc (s : string) (f : Z -> bool) : string :=
  let i := indexFunc s f false in
  if (i =? -1)%Z then EmptyString else drop_bytes (Z.to_nat i) s.

(** [strings.TrimRightFunc s f], on runes. *)
Definition TrimRightFunc (s : string) (f : Z -> bool) : string :=
  let i := lastIndexFunc s f false in
  let i :=
    if (0 <=? i)%Z && (Utf8.RuneSelf <=? Utf8.byteAt s i)%Z
    then (i + Z.of_nat (snd (Utf8.DecodeRuneInString (drop_bytes (Z.to_nat i) s))))%Z
    else (i + 1)%Z in
  Utf8.slice s 0 i.

(** [strings.TrimSpace s]: the white space of Unicode is removed from
    both ends.  The function first steps over ASCII white space at
    either end and hands over to [TrimFunc] or [TrimRightFunc] with
    [unicode.IsSpace] at the first byte that is not ASCII; the result is
    that of trimming the left end, then the right end, by runes. *)
Definition TrimSpace (s : string) : string :=
  TrimRightFunc (TrimLeftFunc s Utf8.IsSpace) Utf8.IsSpace.

Fixpoint inCutset (cutset : string) (c : ascii) : bool :=
  match cutset with
  | EmptyString => false
  | String d cutset' => Ascii.eqb c d || inCutset cutset' c
  end.

(** [strings.Trim s cutset], for an ASCII cutset. *)
Definition Trim (s cutset : string) : string :=
  trimRightFunc (inCutset cutset) (trimLeftFunc (inCutset cutset) s).

Definition lowerByte (c : ascii) : ascii :=
  let n := nat_of_ascii c in
  if (65 <=? n)%nat && (n <=? 90)%nat then ascii_of_nat (n + 32) else c.

(** The copy made for a text of ASCII bytes: each byte lowered. *)
Fixpoint lowerBytes (s : string) : string :=
  match s with
  | EmptyString => EmptyString
  | String c s' => String (lowerByte c) (lowerBytes s')
  end.

Fixpoint isASCII (s : string) : bool :=
  match s with
  | EmptyString => true
  | String c s' => (Utf8.byteOf c <? Utf8.RuneSelf)%Z && isASCII s'
  end.

(** [strings.Map mapping s], for a mapping that drops no rune when its
    answer is not negative: the encodings of the mapped runes of [s], in
    order.  A byte of [s] that is not part of a well-formed sequence is
    read as [RuneError] and so written as the three bytes of U+FFFD.
    [skip] counts the bytes of the current rune still to be passed. *)
Fixpoint mapFrom (mapping : Z -> Z) (skip : nat) (s : string) : string :=
  match s with
  | EmptyString => EmptyString
  | String _ s' =>
      match skip with
      | S skip' => mapFrom mapping skip' s'
      | O =>
          let '(c, width) := Utf8.DecodeRuneInString s in
          let r := mapping c in
          (if (0 <=? r)%Z then Utf8.AppendRune r else EmptyString)
            +:+ mapFrom mapping (width - 1) s'
      end
  end.

Definition Map (mapping : Z -> Z) (s : string) : string := mapFrom mapping 0 s.

(** [strings.ToLower s]: a text of ASCII bytes is lowered byte by byte
    (and returned as it is when it has no upper-case letter); any other
    text is mapped rune by rune with [unicode.ToLower], whose case tables
    are [lowerCase]. *)
Definition ToLower (lowerCase : Z -> Z) (s : string) : string :=
  if isASCII s then lowerBytes s else Map (Utf8.ToLower lowerCase) s.

End Strings.

(** The newline and tab bytes, and the cutset of the calls of
    [strings.Trim]: the double and the single quote. *)
Definition nl : string := String "010"%char EmptyString.
Definition tab : string := String "009"%char EmptyString.
Definition quotes : string := String "034"%char (String "039"%char EmptyString).

(** Text that is not ASCII, by its bytes: the no-break space U+00A0, the
    ideographic space U+3000, the letter E with acute accent U+00C9 and
    its lower-case form U+00E9. *)
Definition nbsp : string := String "194"%char (String "160"%char EmptyString).
Definition ideographicSpace : string :=
  String "227"%char (String "128"%char (String "128"%char EmptyString)).
Definition upperEacute : string := String "195"%char (String "137"%char EmptyString).
Definition lowerEacute : string := String "195"%char (String "169"%char EmptyString).

(** [parts[i]] for a slice of strings.  The code only indexes positions
    that exist (see [Split_Contains_length]); the default is never used. *)
Definition index (parts : list string) (i : nat) : string := nth i parts EmptyString.

Definition nonEmpty (s : string) : bool := negb (String.eqb s EmptyString).

(* ===================================================================== *)
(** ** Results of fallible calls                                          *)
(* ===================================================================== *)

(** A Go [(T, error)] return: either the value or the error's message. *)
Inductive Res (A : Type) : Type :=
| Ok (a : A)
| Fail (msg : string).
Arguments Ok {A} a.
Arguments Fail {A} msg.

Definition isOk {A} (r : Res A) : bool :=
  match r with Ok _ => true | Fail _ => false end.

(* ===================================================================== *)
(** ** Manifest model ([pkg/util]: [ZarfYaml] and its parts)              *)
(* ===================================================================== *)

Module Metadata.
Record t := Build {
  Name : string;
  Description : string;
  Version : string;
  Architecture : string;
  Deprecated : bool }.
End Metadata.

Module ZarfVariable.
Record t := Build {
  Name : string; Description : string; Default : string; Prompt : bool }.
End ZarfVariable.

Module ZarfConstant.
Record t := Build { Name : string; Value : string }.
End ZarfConstant.

Module ZarfComponentOnly.
Record t := Build {
  LocalOS : string;
  ClusterArchitecture : string;
  ClusterDistros : list string }.
End ZarfComponentOnly.

Module ZarfFile.
Record t := Build {
  Source : string; Target : string; Shasum : string;
  Executable : bool; ExtractPath : string }.
End ZarfFile.

Module ZarfChartVariable.
Record t := Build { Name : string; Description : string; Path : string }.
End ZarfChartVariable.

Module ZarfChart.
Record t := Build {
  Name : string; Version : string; Url : string; RepoName : string;
  GitPath : string; LocalPath : string; Namespace : string;
  ReleaseName : string; NoWait : bool;
  ValuesFiles : list string; Variables : list ZarfChartVariable.t }.
End ZarfChart.

Module ZarfManifest.
Record t := Build {
  Name : string; Namespace : string;
  Files : list string;
  KustomizeAllowAnyOf : list string;
  Kustomizations : list string }.
End ZarfManifest.

Module ZarfDataInjection.
Record t := Build {
  Source : string;
  TargetNamespace : string; TargetSelector : string;
  TargetContainer : string; TargetPath : string;
  Compress : bool }.
End ZarfDataInjection.

Module ZarfComponentScripts.
Record t := Build {
  ShowOutput : bool; TimeoutSeconds : Z; Retry : bool;
  Prepare : list string; Before : list string; After : list string }.
End ZarfComponentScripts.

Module ZarfComponent.
Record t := Build {
  Name : string;
  Description : string;
  Default : bool;
  Required : bool;
  Only : ZarfComponentOnly.t;
  Group : string;
  DepsWith : list string;
  Files : list ZarfFile.t;
  Charts : list ZarfChart.t;
  Manifests : list ZarfManifest.t;
  Images : list string;
  Repos : list string;
  DataInjections : list ZarfDataInjection.t;
  Scripts : ZarfComponentScripts.t }.
End ZarfComponent.

Module ZarfYaml.
Record t := Build {
  Kind : string;
  Metadata : Metadata.t; Variables : list ZarfVariable.t;
  Constants : list ZarfConstant.t;
  Components : list ZarfComponent.t }.
End ZarfYaml.

(* ===================================================================== *)
(** ** The world outside the process                                      *)
(* ===================================================================== *)

(** What [os.Stat] reports for a path. *)
Inductive StatResult :=
| StatOk (size : Z) (isDir : bool)
| StatNotExist
| StatError (msg : string).

(** [os.IsNotExist(err)] for the error of an [os.Stat]. *)
Definition IsNotExist (st : StatResult) : bool :=
  match st with StatNotExist => true | _ => false end.

(** One call of the function given to [filepath.Walk]: an entry with its
    path, base name and directory flag, or a failure to read an entry. *)
Inductive WalkEntry :=
| WalkVisit (path name : string) (isDir : bool)
| WalkFailure (path : string) (err : string).

(** Files, sub-processes and library calls, as functions of their
    arguments.  [Walk root] lists the callbacks [filepath.Walk] makes, in
    its order, as long as the callback returns nil.  [CombinedOutput dir]
    is the run of [zarf dev lint] with working directory [dir]: its
    combined output and, when the run fails, the error.  [LowerCase] is
    the lower-case mapping of the Unicode tables of the Go runtime on the
    runes above the ASCII range. *)
Record World := {
  Stat : string -> StatResult;
  ReadFile : string -> Res string;
  Walk : string -> list WalkEntry;
  Join : string -> string -> string;
  Dir : string -> string;
  Unmarshal : string -> Res ZarfYaml.t;
  RunProcessAndCaptureOutput : string -> list string -> Res string;
  CreateProcess : string -> list string -> Res unit;
  CombinedOutput : string -> string * option string;
  LowerCase : Z -> Z }.

(* ===================================================================== *)
(** ** [pkg/util]: reading manifests                                      *)
(* ===================================================================== *)

Definition UnmarshalZarfYaml (w : World) (yamlBytes : string) : Res ZarfYaml.t :=
  match Unmarshal w yamlBytes with
  | Fail e => Fail ("could not unmarshal 'zarf.yaml': " +:+ e)
  | Ok zarfYaml => Ok zarfYaml
  end.

Definition ReadZarfYaml (w : World) (path : string) : Res ZarfYaml.t :=
  match ReadFile w path with
  | Fail e => Fail ("could not read 'zarf.yaml': " +:+ e)
  | Ok yamlBytes => UnmarshalZarfYaml w yamlBytes
  end.

(* ===================================================================== *)
(** ** [pkg/zarf]: the package locator                                    *)
(* ===================================================================== *)

(** The callback of [findPackagesInDirectory], folded over the entries of
    the walk; the walk stops at the first error the callback returns. *)
Fixpoint walkPackages (w : World) (entries : list WalkEntry)
         (packages : list string) : Res (list string) :=
  match entries with
  | [] => Ok packages
  | WalkFailure _ err :: _ => Fail err
  | WalkVisit path name isDir :: rest =>
      if String.eqb name "zarf.yaml" && negb isDir
      then walkPackages w rest (packages ++ [Dir w path])
      else walkPackages w rest packages
  end.

Definition findPackagesInDirectory (w : World) (dir : string) : Res (list string) :=
  if IsNotExist (Stat w dir) then Ok []
  else match walkPackages w (Walk w dir) [] with
       | Fail e => Fail ("error walking directory " +:+ dir +:+ ": " +:+ e)
       | Ok packages => Ok packages
       end.

(** The loop of [FindZarfPackages], with the slice built so far. *)
Fixpoint findZarfPackagesFrom (w : World) (dirs : list string)
         (packageDirs : list string) : Res (list string) :=
  match dirs with
  | [] => Ok packageDirs
  | dir :: rest =>
      match findPackagesInDirectory w dir with
      | Fail e => Fail ("failed to find packages in directory " +:+ dir +:+ ": " +:+ e)
      | Ok packages => findZarfPackagesFrom w rest (packageDirs ++ packages)
      end
  end.

Definition FindZarfPackages (w : World) (dirs : list string) : Res (list string) :=
  findZarfPackagesFrom w dirs [].

Definition IsZarfPackage (w : World) (dir : string) : bool :=
  negb (IsNotExist (Stat w (Join w dir "zarf.yaml"))).

(* ===================================================================== *)
(** ** [pkg/zarf/validator.go]                                            *)
(* ===================================================================== *)

Record ValidationResult := {
  PackagePath : string;
  Valid : bool;
  Errors : list string;
  Warnings : list string }.

(** [result.Errors = append(result.Errors, msg)]. *)
Definition appendError (result : ValidationResult) (msg : string) : ValidationResult :=
  {| PackagePath := PackagePath result; Valid := Valid result;
     Errors := Errors result ++ [msg]; Warnings := Warnings result |}.

(** [result.Warnings = append(result.Warnings, msg)]. *)
Definition appendWarning (result : ValidationResult) (msg : string) : ValidationResult :=
  {| PackagePath := PackagePath result; Valid := Valid result;
     Errors := Errors result; Warnings := Warnings result ++ [msg] |}.

(** [result.Valid = b]. *)
Definition setValid (result : ValidationResult) (b : bool) : ValidationResult :=
  {| PackagePath := PackagePath result; Valid := b;
     Errors := Errors result; Warnings := Warnings result |}.

(** The validator's only field. *)
Record PackageValidator := { UseSDK : bool }.

Definition NewPackageValidator : PackageValidator := {| UseSDK := true |}.

(** A pass receives the result object and either returns an error, in
    which case its caller drops the object, or leaves the object updated. *)
Definition Pass := ValidationResult -> Res ValidationResult.

(** *** External delegation: reading the output of [zarf dev lint] *)

(** Body of the loop over the output lines of a failed lint run. *)
Definition lintFailureLine (result : ValidationResult) (line : string) : ValidationResult :=
  let line := Strings.TrimSpace line in
  if nonEmpty line && negb (Strings.Contains line "Using build directory") then
    if Strings.Contains line " ERR " then
      let parts := Strings.SplitN line " ERR " 2 in
      if (List.length parts =? 2)%nat
      then appendError result (index parts 1)
      else appendError result line
    else if Strings.Contains line " WRN " then
      let parts := Strings.SplitN line " WRN " 2 in
      if (List.length parts =? 2)%nat
      then appendWarning result (index parts 1)
      else appendWarning result line
    else if Strings.Contains line "ERROR" || Strings.Contains line "error"
            || Strings.Contains line "FAIL" || Strings.Contains line "fail"
    then appendError result line
    else result
  else result.

(** Body of the loop over the output lines of a successful lint run. *)
Definition lintSuccessLine (result : ValidationResult) (line : string) : ValidationResult :=
  let line := Strings.TrimSpace line in
  if nonEmpty line && Strings.Contains line " WRN " then
    let parts := Strings.SplitN line " WRN " 2 in
    if (List.length parts =? 2)%nat
    then appendWarning result (index parts 1)
    else appendWarning result line
  else result.

(** The two branches on the error of [cmd.CombinedOutput()]. *)
Definition parseLintOutput (output : string) (err : option string)
           (result : ValidationResult) : ValidationResult :=
  let outputStr := Strings.TrimSpace output in
  match err with
  | Some _ =>
      let result := setValid result false in
      if nonEmpty outputStr
      then fold_left lintFailureLine (Strings.Split outputStr nl) result
      else result
  | None =>
      let result := setValid result true in
      if nonEmpty outputStr
      then fold_left lintSuccessLine (Strings.Split outputStr nl) result
      else result
  end.

(** *** Version increment *)

(** The error of the run of [cat] is dropped; the string it returns with
    an error is empty. *)
Definition validateVersionIncrement (w : World) (packagePath : string) : Pass :=
  fun result =>
  let currentZarfPath := Join w packagePath "zarf.yaml" in
  match ReadZarfYaml w currentZarfPath with
  | Fail e => Fail ("failed to read current zarf.yaml: " +:+ e)
  | Ok currentContent =>
      match RunProcessAndCaptureOutput w "git"
              ["show"; "HEAD~1:" +:+ Join w packagePath "zarf.yaml"] with
      | Fail _ =>
          Ok (appendWarning result
                "Could not retrieve previous package version for comparison")
      | Ok previousContent =>
          match UnmarshalZarfYaml w previousContent with
          | Fail _ =>
              Ok (appendWarning result
                    "Could not parse previous package version for comparison")
          | Ok previousZarf =>
              let currentVersion := Metadata.Version (ZarfYaml.Metadata currentContent) in
              if String.eqb currentVersion
                            (Metadata.Version (ZarfYaml.Metadata previousZarf))
              then
                let currentYamlStr :=
                  match RunProcessAndCaptureOutput w "cat" [currentZarfPath] with
                  | Ok out => out
                  | Fail _ => EmptyString
                  end in
                if negb (String.eqb currentYamlStr previousContent)
                then Ok (setValid
                           (appendError result
                              ("Package content changed but version not incremented (still "
                                 +:+ currentVersion +:+ ")"))
                           false)
                else Ok result
              else Ok result
          end
      end
  end.

(** *** Image pinning *)


Definition pinningWarning (image : string) : string :=
  "Image not pinned with digest - " +:+ image.

(** The two nested [if]s around each [append] of the pass. *)
Definition warnIfUnpinned (result : ValidationResult) (image : string) : ValidationResult :=
  if Strings.Contains image ":" && negb (Strings.Contains image "@sha256:") then
    if negb (Strings.HasPrefix image "{{") && negb (Strings.HasPrefix image "${")
    then appendWarning result (pinningWarning image)
    else result
  else result.

(** Body of the loop over the lines of the manifest; the state is the
    [inImagesSection] flag and the result object. *)
Definition imagePinningLine (st : bool * ValidationResult) (originalLine : string)
  : bool * ValidationResult :=
  let '(inImagesSection, result) := st in
  let line := Strings.TrimSpace originalLine in
  if Strings.Contains line "images:" then (true, result)
  else
    let inImagesSection :=
      if negb (Strings.HasPrefix originalLine " ")
         && negb (Strings.HasPrefix originalLine tab)
         && Strings.Contains line ":"
      then false else inImagesSection in
    let result :=
      if inImagesSection && Strings.HasPrefix line "- " then
        let imageName := Strings.TrimPrefix line "- " in
        let imageName := Strings.TrimSpace imageName in
        let imageName := Strings.Trim imageName quotes in
        warnIfUnpinned result imageName
      else result in
    let result :=
      if Strings.Contains line "image:" then
        let imagePart := index (Strings.Split line "image:") 1 in
        let imagePart := Strings.TrimSpace imagePart in
        let imagePart := Strings.Trim imagePart quotes in
        warnIfUnpinned result imagePart
      else result in
    (inImagesSection, result).

Definition validateImagePinning (w : World) (packagePath : string) : Pass :=
  fun result =>
  match ReadFile w (Join w packagePath "zarf.yaml") with
  | Fail e => Fail ("failed to read zarf.yaml for image pinning validation: " +:+ e)
  | Ok contentStr =>
      Ok (snd (fold_left imagePinningLine (Strings.Split contentStr nl) (false, result)))
  end.

(** *** Fallback validation *)

Definition freshResult (packagePath : string) (valid : bool) : ValidationResult :=
  {| PackagePath := packagePath; Valid := valid; Errors := []; Warnings := [] |}.

Definition validateBasic (w : World) (packagePath : string) : Res ValidationResult :=
  let result := freshResult packagePath true in
  match ReadZarfYaml w (Join w packagePath "zarf.yaml") with
  | Fail e =>
      Ok (appendError (setValid result false) ("Failed to parse zarf.yaml: " +:+ e))
  | Ok zarfYaml =>
      let kind := ZarfYaml.Kind zarfYaml in
      let meta := ZarfYaml.Metadata zarfYaml in
      let result :=
        if String.eqb kind EmptyString
        then setValid (appendError result "Missing 'kind' field in zarf.yaml") false
        else if negb (String.eqb kind "ZarfPackageConfig")
        then setValid (appendError result
                         ("Invalid kind '" +:+ kind +:+ "', expected 'ZarfPackageConfig'"))
                      false
        else result in
      let result :=
        if String.eqb (Metadata.Name meta) EmptyString
        then setValid (appendError result "Missing package name in metadata") false
        else result in
      let result :=
        if String.eqb (Metadata.Version meta) EmptyString
        then appendWarning result "No version specified in metadata"
        else result in
      let result :=
        if String.eqb (Metadata.Description meta) EmptyString
        then appendWarning result "No description provided in metadata"
        else result in
      let result :=
        if nonEmpty (Metadata.Name meta) then
          if (63 <? String.length (Metadata.Name meta))%nat
          then setValid (appendError result "Package name must be 63 characters or less") false
          else result
        else result in
      Ok result
  end.

(** *** Components *)

Definition isValidComponentName (w : World) (name : string) : bool :=
  if Strings.Contains name " " then false
  else if negb (String.eqb (Strings.ToLower (LowerCase w) name) name) then false
  else true.

Definition duplicateError (name : string) : string :=
  "Duplicate component name: " +:+ name.

Definition isEmptyList {A} (l : list A) : bool := (List.length l =? 0)%nat.

(** Body of the loop of [validateComponents]; [componentNames] is the
    map from names to [true] used as the set of names seen so far. *)
Definition componentStep (w : World) (st : gset string * ValidationResult)
           (component : ZarfComponent.t) : gset string * ValidationResult :=
  let '(componentNames, result) := st in
  let name := ZarfComponent.Name component in
  let result :=
    if bool_decide (name ∈ componentNames)
    then appendError result (duplicateError name)
    else result in
  let componentNames := {[ name ]} ∪ componentNames in
  let result :=
    if negb (isValidComponentName w name)
    then appendWarning result
           ("Component name '" +:+ name +:+
            "' doesn't follow naming conventions (lowercase, hyphens, no spaces)")
    else result in
  let result :=
    if ZarfComponent.Required component && ZarfComponent.Default component
    then appendWarning result
           ("Component '" +:+ name +:+ "' is both required and default (redundant)")
    else result in
  let result :=
    if isEmptyList (ZarfComponent.Files component)
       && isEmptyList (ZarfComponent.Charts component)
       && isEmptyList (ZarfComponent.Manifests component)
       && isEmptyList (ZarfComponent.Images component)
       && isEmptyList (ZarfComponent.Repos component)
       && isEmptyList (ZarfComponent.DataInjections component)
    then appendWarning result
           ("Component '" +:+ name +:+
            "' appears to be empty (no files, charts, manifests, images, etc.)")
    else result in
  (componentNames, result).

Definition validateComponents (w : World) (packagePath : string) : Pass :=
  fun result =>
  match ReadZarfYaml w (Join w packagePath "zarf.yaml") with
  | Fail e => Fail ("failed to read zarf.yaml for component validation: " +:+ e)
  | Ok zarfYaml =>
      if isEmptyList (ZarfYaml.Components zarfYaml)
      then Ok (appendWarning result "Package has no components defined")
      else Ok (snd (fold_left (componentStep w) (ZarfYaml.Components zarfYaml) (∅, result)))
  end.

(** *** Dependencies *)

(** [componentMap]: each name is bound to the last component declared
    with it. *)
Definition buildComponentMap (components : list ZarfComponent.t)
  : gmap string ZarfComponent.t :=
  fold_left (fun m c => <[ ZarfComponent.Name c := c ]> m) components ∅.

(** The loop of [hasDependencyCycle] over the dependencies of the current
    component; [search] is the recursive call.  The [visited] map (a set
    of names, shared by all the calls of one search and updated in place)
    is passed in and out. *)
Fixpoint depsLoop (search : string -> gset string -> option (bool * gset string))
         (deps : list string) (visited : gset string) : option (bool * gset string) :=
  match deps with
  | [] => Some (false, visited)
  | dep :: deps' =>
      match search dep visited with
      | None => None
      | Some (true, visited') => Some (true, visited')
      | Some (false, visited') => depsLoop search deps' visited'
      end
  end.

(** [hasDependencyCycle] with a bound on the depth of the recursion:
    [None] means the bound was too small. *)
Fixpoint hasDependencyCycleFuel (fuel : nat) (start current : string)
         (componentMap : gmap string ZarfComponent.t) (visited : gset string)
  : option (bool * gset string) :=
  match fuel with
  | O => None
  | S fuel' =>
      if String.eqb current start && (0 <? size visited)%nat
      then Some (true, visited)
      else if bool_decide (current ∈ visited) then Some (false, visited)
      else
        let visited := {[ current ]} ∪ visited in
        match componentMap !! current with
        | Some component =>
            depsLoop (fun dep visited =>
                        hasDependencyCycleFuel fuel' start dep componentMap visited)
                     (ZarfComponent.DepsWith component) visited
        | None => Some (false, visited)
        end
  end.

(** Every name a search can reach after its first step is a dependency
    of some component of the map. *)
Definition dependencyNames (componentMap : gmap string ZarfComponent.t) : gset string :=
  ⋃ ((fun kc => list_to_set (ZarfComponent.DepsWith (snd kc))) <$> map_to_list componentMap).

(** A depth no search exceeds ([hasDependencyCycle_terminates]). *)
Definition cycleFuel (componentMap : gmap string ZarfComponent.t) : nat :=
  S (S (size (dependencyNames componentMap))).

Definition hasDependencyCycle (start current : string)
           (componentMap : gmap string ZarfComponent.t) (visited : gset string) : bool :=
  match hasDependencyCycleFuel (cycleFuel componentMap) start current componentMap visited with
  | Some (b, _) => b
  | None => false
  end.

Definition missingError (name dep : string) : string :=
  "Component '" +:+ name +:+ "' depends on non-existent component '" +:+ dep +:+ "'".

Definition cycleError (name dep : string) : string :=
  "Circular dependency detected between '" +:+ name +:+ "' and '" +:+ dep +:+ "'".

Definition selfError (name : string) : string :=
  "Component '" +:+ name +:+ "' cannot depend on itself".

(** Body of the first inner loop: one dependency edge. *)
Definition edgeStep (componentMap : gmap string ZarfComponent.t) (name : string)
           (result : ValidationResult) (dep : string) : ValidationResult :=
  let result :=
    match componentMap !! dep with
    | None => appendError result (missingError name dep)
    | Some _ => result
    end in
  if hasDependencyCycle name dep componentMap ∅
  then appendError result (cycleError name dep)
  else result.

(** Body of the second inner loop: self-dependencies. *)
Definition selfStep (name : string) (result : ValidationResult) (dep : string)
  : ValidationResult :=
  if String.eqb dep name then appendError result (selfError name) else result.

(** Body of the outer loop of [validateComponentDependencies]. *)
Definition dependencyStep (componentMap : gmap string ZarfComponent.t)
           (result : ValidationResult) (component : ZarfComponent.t) : ValidationResult :=
  let name := ZarfComponent.Name component in
  let deps := ZarfComponent.DepsWith component in
  fold_left (selfStep name) deps (fold_left (edgeStep componentMap name) deps result).

Definition validateComponentDependencies (w : World) (packagePath : string) : Pass :=
  fun result =>
  match ReadZarfYaml w (Join w packagePath "zarf.yaml") with
  | Fail e => Fail ("failed to read zarf.yaml for dependency validation: " +:+ e)
  | Ok zarfYaml =>
      let components := ZarfYaml.Components zarfYaml in
      if isEmptyList components then Ok result
      else Ok (fold_left (dependencyStep (buildComponentMap components)) components result)
  end.

(** *** Security heuristics *)

(** [checkManifestSecurity]: an unreadable file is an error for the
    caller, which turns it into a warning. *)
Definition checkManifestSecurity (w : World) (manifestPath componentName : string) : Pass :=
  fun result =>
  match ReadFile w manifestPath with
  | Fail e => Fail e
  | Ok contentStr =>
      let result :=
        if Strings.Contains contentStr "privileged: true"
        then appendWarning result
               ("Component '" +:+ componentName +:+ "' manifest may use privileged containers")
        else result in
      let result :=
        if Strings.Contains contentStr "hostNetwork: true"
        then appendWarning result
               ("Component '" +:+ componentName +:+ "' manifest uses host networking")
        else result in
      let result :=
        if Strings.Contains contentStr "hostPID: true"
           || Strings.Contains contentStr "hostIPC: true"
        then appendWarning result
               ("Component '" +:+ componentName +:+ "' manifest uses host PID or IPC")
        else result in
      Ok result
  end.

Definition secretPatterns : list string :=
  [ "password="; "PASSWORD="; "token="; "TOKEN="; "secret="; "SECRET=";
    "key="; "KEY="; "api_key"; "API_KEY"; "aws_access"; "AWS_ACCESS" ].

Definition containsPotentialSecrets (w : World) (script : string) : bool :=
  let scriptLower := Strings.ToLower (LowerCase w) script in
  existsb (fun pattern =>
             Strings.Contains scriptLower (Strings.ToLower (LowerCase w) pattern))
          secretPatterns.

Definition untrustedRegistries : list string := [ "docker.io/"; "index.docker.io/" ].

Definition isUntrustedRegistry (image : string) : bool :=
  if negb (Strings.Contains image "/")
     || (negb (Strings.Contains image ".") && (Strings.Count image "/" =? 1)%nat)
  then true
  else existsb (fun registry => Strings.HasPrefix image registry) untrustedRegistries.

(** Body of the loop over the files of the manifests of a component. *)
Definition manifestFileStep (w : World) (packagePath componentName : string)
           (result : ValidationResult) (file : string) : ValidationResult :=
  match checkManifestSecurity w (Join w packagePath file) componentName result with
  | Ok result' => result'
  | Fail e =>
      appendWarning result
        ("Failed to analyze manifest security for " +:+ file +:+ ": " +:+ e)
  end.

Definition securityStep (w : World) (packagePath : string)
           (result : ValidationResult) (component : ZarfComponent.t) : ValidationResult :=
  let name := ZarfComponent.Name component in
  let scripts := ZarfComponent.Scripts component in
  let result :=
    fold_left (fun result manifest =>
                 fold_left (manifestFileStep w packagePath name)
                           (ZarfManifest.Files manifest) result)
              (ZarfComponent.Manifests component) result in
  let result :=
    if negb (isEmptyList (ZarfComponentScripts.Prepare scripts))
       || negb (isEmptyList (ZarfComponentScripts.Before scripts))
       || negb (isEmptyList (ZarfComponentScripts.After scripts))
    then
      let allScripts :=
        (ZarfComponentScripts.Prepare scripts ++ ZarfComponentScripts.Before scripts)
          ++ ZarfComponentScripts.After scripts in
      fold_left (fun result script =>
                   if containsPotentialSecrets w script
                   then appendWarning result
                          ("Component '" +:+ name +:+
                           "' script may contain hardcoded secrets or sensitive data")
                   else result)
                allScripts result
    else result in
  fold_left (fun result image =>
               if isUntrustedRegistry image
               then appendWarning result
                      ("Component '" +:+ name +:+
                       "' uses image from potentially untrusted registry: " +:+ image)
               else result)
            (ZarfComponent.Images component) result.

Definition validateSecurityBestPractices (w : World) (packagePath : string) : Pass :=
  fun result =>
  match ReadZarfYaml w (Join w packagePath "zarf.yaml") with
  | Fail e => Fail ("failed to read zarf.yaml for security validation: " +:+ e)
  | Ok zarfYaml =>
      Ok (fold_left (securityStep w packagePath) (ZarfYaml.Components zarfYaml) result)
  end.

(** *** Resource heuristics *)

Definition fileSizeStep (w : World) (packagePath componentName : string)
           (result : ValidationResult) (file : ZarfFile.t) : ValidationResult :=
  match Stat w (Join w packagePath (ZarfFile.Source file)) with
  | StatOk size _ =>
      let sizeInMB := (size ÷ (1024 * 1024))%Z in
      if (100 <? sizeInMB)%Z
      then appendWarning result
             ("Component '" +:+ componentName +:+ "' includes large file (" +:+
              pretty sizeInMB +:+ "MB): " +:+ ZarfFile.Source file)
      else result
  | _ => result
  end.

(** The search for a values file mentioning limits or requests. *)
Definition hasResourceLimits (w : World) (packagePath : string) (chart : ZarfChart.t) : bool :=
  existsb (fun valuesFile =>
             match ReadFile w (Join w packagePath valuesFile) with
             | Ok content =>
                 Strings.Contains content "limits:" || Strings.Contains content "requests:"
             | Fail _ => false
             end)
          (ZarfChart.ValuesFiles chart).

Definition resourceStep (w : World) (packagePath : string)
           (result : ValidationResult) (component : ZarfComponent.t) : ValidationResult :=
  let name := ZarfComponent.Name component in
  let result :=
    fold_left (fileSizeStep w packagePath name) (ZarfComponent.Files component) result in
  let result :=
    if (10 <? List.length (ZarfComponent.Images component))%nat
    then appendWarning result
           ("Component '" +:+ name +:+ "' includes many images (" +:+
            pretty (List.length (ZarfComponent.Images component)) +:+
            ") which may impact package size")
    else result in
  fold_left (fun result chart =>
               if negb (hasResourceLimits w packagePath chart)
               then appendWarning result
                      ("Chart '" +:+ ZarfChart.Name chart +:+ "' in component '" +:+
                       name +:+ "' may not specify resource limits")
               else result)
            (ZarfComponent.Charts component) result.

Definition validateResourceConstraints (w : World) (packagePath : string) : Pass :=
  fun result =>
  match ReadZarfYaml w (Join w packagePath "zarf.yaml") with
  | Fail e => Fail ("failed to read zarf.yaml for resource validation: " +:+ e)
  | Ok zarfYaml =>
      Ok (fold_left (resourceStep w packagePath) (ZarfYaml.Components zarfYaml) result)
  end.

(** *** The pipeline *)

(** Run a pass on the result object; its error, wrapped, ends the
    pipeline. *)
Definition andThen (r : Res ValidationResult) (context : string) (p : Pass)
  : Res ValidationResult :=
  match r with
  | Fail e => Fail e
  | Ok result =>
      match p result with
      | Fail e => Fail (context +:+ ": " +:+ e)
      | Ok result' => Ok result'
      end
  end.

(** The six passes that follow the lint run, in the order of the code. *)
Definition additionalPasses (w : World) (packagePath : string) (result : ValidationResult)
  : Res ValidationResult :=
  let r := andThen (Ok result) "version increment validation failed"
                   (validateVersionIncrement w packagePath) in
  let r := andThen r "image pinning validation failed" (validateImagePinning w packagePath) in
  let r := andThen r "component validation failed" (validateComponents w packagePath) in
  let r := andThen r "component dependency validation failed"
                   (validateComponentDependencies w packagePath) in
  let r := andThen r "security validation failed"
                   (validateSecurityBestPractices w packagePath) in
  andThen r "resource validation failed" (validateResourceConstraints w packagePath).

Definition validateWithSDK (w : World) (packagePath : string) : Res ValidationResult :=
  let result := freshResult packagePath true in
  match RunProcessAndCaptureOutput w "zarf" ["version"] with
  | Fail e =>
      Fail ("zarf CLI not found - please install Zarf CLI for full validation: " +:+ e)
  | Ok _ =>
      match CreateProcess w "zarf" ["dev"; "lint"] with
      | Fail e => Fail ("failed to create zarf process: " +:+ e)
      | Ok _ =>
          let '(output, err) := CombinedOutput w packagePath in
          additionalPasses w packagePath (parseLintOutput output err result)
      end
  end.

(** [ValidatePackage]: the result and error it returns, and the validator
    after the call ([UseSDK] is switched off when the lint path fails). *)
Definition ValidatePackage (w : World) (v : PackageValidator) (packagePath : string)
  : Res ValidationResult * PackageValidator :=
  let result := freshResult packagePath false in
  if negb (IsZarfPackage w packagePath)
  then (Ok (appendError result "Directory does not contain a zarf.yaml file"), v)
  else
    if UseSDK v then
      match validateWithSDK w packagePath with
      | Fail e =>
          (* the warning goes to [result], which is not what is returned *)
          let result :=
            appendWarning result
              ("Zarf CLI validation failed, falling back to basic validation: " +:+ e) in
          (validateBasic w packagePath, {| UseSDK := false |})
      | Ok sdkResult =>
          (Ok (appendWarning sdkResult "Validated using Zarf CLI"), v)
      end
    else (validateBasic w packagePath, v).

(** The loop of [ValidatePackages], with the slice built so far. *)
Fixpoint validatePackagesFrom (w : World) (v : PackageValidator) (packagePaths : list string)
         (results : list ValidationResult)
  : Res (list ValidationResult) * PackageValidator :=
  match packagePaths with
  | [] => (Ok results, v)
  | path :: rest =>
      match ValidatePackage w v path with
      | (Fail e, v') => (Fail ("failed to validate package " +:+ path +:+ ": " +:+ e), v')
      | (Ok result, v') => validatePackagesFrom w v' rest (results ++ [result])
      end
  end.

Definition ValidatePackages (w : World) (v : PackageValidator) (packagePaths : list string)
  : Res (list ValidationResult) * PackageValidator :=
  validatePackagesFrom w v packagePaths [].

Fixpoint HasValidationErrors (results : list ValidationResult) : bool :=
  match results with
  | [] => false
  | result :: rest => if negb (Valid result) then true else HasValidationErrors rest
  end.

(* ===================================================================== *)
(** ** [pkg/util]: version helpers                                        *)
(* ===================================================================== *)

(** The operations of the semantic-version library ([semver]) and of
    [multierror] that the helpers call, as an interface.  [Validate]
    returns whether the version satisfies the constraint and, when it does
    not, the reasons; [multierrorAppend] is the message of the error built
    from a list of reasons. *)
Record SemverLib := {
  SVersion : Type;
  SConstraints : Type;
  NewVersion : string -> Res SVersion;
  Major : SVersion -> Z;
  VersionString : SVersion -> string;
  Compare : SVersion -> SVersion -> Z;
  NewConstraint : string -> Res SConstraints;
  Validate : SConstraints -> SVersion -> bool * list string;
  multierrorAppend : list string -> string }.

Definition CompareVersions (lib : SemverLib) (left right : string) : Res Z :=
  match NewVersion lib left with
  | Fail e => Fail ("failed parsing semantic version: " +:+ e)
  | Ok leftVersion =>
      match NewVersion lib right with
      | Fail e => Fail ("failed parsing semantic version: " +:+ e)
      | Ok rightVersion => Ok (Compare lib leftVersion rightVersion)
      end
  end.

(** The constraint [BreakingChangeAllowed] builds from the left version. *)
Definition compatibleRange (lib : SemverLib) (leftVersion : SVersion lib) : string :=
  let constraintOp := if (Major lib leftVersion =? 0)%Z then "~" else "^" in
  constraintOp +:+ " " +:+ VersionString lib leftVersion.

(** [BreakingChangeAllowed]: the boolean and the error it returns. *)
Definition BreakingChangeAllowed (lib : SemverLib) (left right : string)
  : bool * option string :=
  match NewVersion lib left with
  | Fail e => (false, Some ("failed parsing semantic version: " +:+ e))
  | Ok leftVersion =>
      match NewVersion lib right with
      | Fail e => (false, Some ("failed parsing semantic version: " +:+ e))
      | Ok rightVersion =>
          match NewConstraint lib (compatibleRange lib leftVersion) with
          | Fail e =>
              (false, Some ("failed parsing semantic version constraint: " +:+ e))
          | Ok c =>
              let '(minor, reasons) := Validate lib c rightVersion in
              let err :=
                if (0 <? List.length reasons)%nat
                then Some (multierrorAppend lib reasons) else None in
              (negb minor, err)
          end
      end
  end.

(** *** A reference instance of the interface

    Plain versions [major.minor.patch] of decimal numbers, with the
    library's documented ranges: [^X.Y.Z] is [>= X.Y.Z] with the same
    major, [~X.Y.Z] is [>= X.Y.Z] with the same major and minor, and
    [~0.0.0] accepts every version.  It is used to run the helpers on
    concrete versions. *)
Module PlainSemver.

Definition digit (c : ascii) : option N :=
  let n := nat_of_ascii c in
  if (48 <=? n)%nat && (n <=? 57)%nat then Some (N.of_nat (n - 48)) else None.

Fixpoint digits (acc : N) (s : string) : option N :=
  match s with
  | EmptyString => Some acc
  | String c s' =>
      match digit c with
      | Some d => digits (acc * 10 + d)%N s'
      | None => None
      end
  end.

Definition number (s : string) : option N :=
  match s with
  | EmptyString => None
  | _ => digits 0%N s
  end.

Definition version : Type := N * N * N.

Definition parse (s : string) : Res version :=
  match Strings.Split s "." with
  | [a; b; c] =>
      match number a, number b, number c with
      | Some x, Some y, Some z => Ok (x, y, z)
      | _, _, _ => Fail "Invalid Semantic Version"
      end
  | _ => Fail "Invalid Semantic Version"
  end.

Definition show (v : version) : string :=
  let '(x, y, z) := v in pretty x +:+ "." +:+ pretty y +:+ "." +:+ pretty z.

Definition compare (v u : version) : Z :=
  let '(x, y, z) := v in
  let '(x', y', z') := u in
  match (x ?= x')%N with
  | Lt => (-1)%Z
  | Gt => 1%Z
  | Eq => match (y ?= y')%N with
          | Lt => (-1)%Z
          | Gt => 1%Z
          | Eq => match (z ?= z')%N with Lt => (-1)%Z | Gt => 1%Z | Eq => 0%Z end
          end
  end.

Inductive operator := Caret | Tilde.

Definition constraint : Type := operator * version.

Definition parseConstraint (s : string) : Res constraint :=
  match s with
  | String c rest =>
      let v := parse (Strings.TrimSpace rest) in
      if Ascii.eqb c "^"%char then
        match v with Ok v => Ok (Caret, v) | Fail e => Fail e end
      else if Ascii.eqb c "~"%char then
        match v with Ok v => Ok (Tilde, v) | Fail e => Fail e end
      else Fail "improper constraint"
  | EmptyString => Fail "improper constraint"
  end.

Definition satisfies (c : constraint) (v : version) : bool :=
  let '(op, (x, y, z)) := c in
  let '(x', y', z') := v in
  (0 <=? compare v (x, y, z))%Z &&
  match op with
  | Caret => (x' =? x)%N
  | Tilde => ((x =? 0)%N && (y =? 0)%N && (z =? 0)%N) || ((x' =? x)%N && (y' =? y)%N)
  end.

Definition validate (c : constraint) (v : version) : bool * list string :=
  if satisfies c v then (true, [])
  else (false, [show v +:+ " is outside the range of " +:+ show (snd c)]).

Definition lib : SemverLib := {|
  SVersion := version;
  SConstraints := constraint;
  NewVersion := parse;
  Major := fun v => Z.of_N (fst (fst v));
  VersionString := show;
  Compare := compare;
  NewConstraint := parseConstraint;
  Validate := validate;
  multierrorAppend := fun reasons => fold_left (fun acc r => acc +:+ "; " +:+ r) reasons
                                               "errors occurred" |}.

End PlainSemver.

(* ===================================================================== *)
(** ** What the passes append, as lists                                   *)
(* ===================================================================== *)


Definition addErrors (result : ValidationResult) (msgs : list string) : ValidationResult :=
  {| PackagePath := PackagePath result; Valid := Valid result;
     Errors := Errors result ++ msgs; Warnings := Warnings result |}.



(** The errors the dependency pass appends for one edge, and for one
    component: those of its edges, then its self-dependencies. *)
Definition edgeErrors (componentMap : gmap string ZarfComponent.t) (name dep : string)
  : list string :=
  (match componentMap !! dep with None => [missingError name dep] | Some _ => [] end)
  ++ (if hasDependencyCycle name dep componentMap ∅ then [cycleError name dep] else []).

Definition selfErrors (name dep : string) : list string :=
  if String.eqb dep name then [selfError name] else [].

Definition dependencyErrors (componentMap : gmap string ZarfComponent.t)
           (c : ZarfComponent.t) : list string :=
  flat_map (edgeErrors componentMap (ZarfComponent.Name c)) (ZarfComponent.DepsWith c)
  ++ flat_map (selfErrors (ZarfComponent.Name c)) (ZarfComponent.DepsWith c).

(** An edge of the graph the search follows: [x] is bound in the map to
    a component that lists [y]. *)
Definition edge (componentMap : gmap string ZarfComponent.t) (x y : string) : Prop :=
  exists c, componentMap !! x = Some c /\ In y (ZarfComponent.DepsWith c).

(* ===================================================================== *)
(** ** Relations between result objects                                   *)
(* ===================================================================== *)

(** [result'] is [result] with messages appended: nothing recorded
    earlier is dropped or reordered. *)
Definition extends (result result' : ValidationResult) : Prop :=
  PackagePath result' = PackagePath result
  /\ Errors result `prefix_of` Errors result'
  /\ Warnings result `prefix_of` Warnings result'.

(** Messages were appended and the verdict was left alone. *)
Definition errsOnly (result result' : ValidationResult) : Prop :=
  extends result result' /\ Valid result' = Valid result.

(** Only warnings were appended. *)
Definition warnsOnly (result result' : ValidationResult) : Prop :=
  errsOnly result result' /\ Errors result' = Errors result.

(* ===================================================================== *)
(** ** Concrete worlds                                                    *)
(* ===================================================================== *)

Definition lookupTable {A} (table : list (string * A)) (key : string) : option A :=
  snd <$> List.find (fun entry => String.eqb (fst entry) key) table.

(** The directory part of a slash-separated path. *)
Fixpoint dirOf (path : string) : string :=
  match path with
  | EmptyString => EmptyString
  | String c rest =>
      if Strings.Contains rest "/" then String c (dirOf rest)
      else if Ascii.eqb c "/"%char then EmptyString
      else if Strings.HasPrefix rest "/" then String c EmptyString
      else EmptyString
  end.

(** A world given by tables: the files with their content, what the YAML
    library makes of a content, whether the [zarf] binary can be run, what
    [zarf dev lint] prints and returns, and what [git show] returns.  Of
    the case tables it has the Latin-1 letters. *)
Definition tableWorld (files : list (string * string))
           (parsed : list (string * ZarfYaml.t)) (zarfCli : bool)
           (lint : string * option string) (gitShow : Res string) : World :=
  let read path :=
    match lookupTable files path with
    | Some content => Ok content
    | None => Fail "no such file or directory"
    end in
  {| Stat := fun path =>
       match lookupTable files path with
       | Some content => StatOk (Z.of_nat (String.length content)) false
       | None => StatNotExist
       end;
     ReadFile := read;
     Walk := fun _ => [];
     Join := fun dir name => dir +:+ "/" +:+ name;
     Dir := dirOf;
     Unmarshal := fun content =>
       match lookupTable parsed content with
       | Some zarfYaml => Ok zarfYaml
       | None => Fail "yaml: unmarshal errors"
       end;
     RunProcessAndCaptureOutput := fun name args =>
       if String.eqb name "zarf"
       then (if zarfCli then Ok "v0.32.0" else Fail "executable file not found in $PATH")
       else if String.eqb name "git" then gitShow
       else if String.eqb name "cat" then read (index args 0)
       else Fail "executable file not found in $PATH";
     CreateProcess := fun _ _ =>
       if zarfCli then Ok tt else Fail "executable file not found in $PATH";
     CombinedOutput := fun _ => lint;
     LowerCase := fun r =>
       if (0xC0 <=? r)%Z && (r <=? 0xDE)%Z && negb (r =? 0xD7)%Z then (r + 32)%Z else r |}.

Definition noScripts : ZarfComponentScripts.t :=
  ZarfComponentScripts.Build false 0 false [] [] [].

(** A component with a name, its dependencies and its images. *)
Definition component (name : string) (depsWith images : list string) : ZarfComponent.t :=
  ZarfComponent.Build name EmptyString false false
    (ZarfComponentOnly.Build EmptyString EmptyString [])
    EmptyString depsWith [] [] [] images [] [] noScripts.

Definition manifest (name version : string) (components : list ZarfComponent.t) : ZarfYaml.t :=
  ZarfYaml.Build "ZarfPackageConfig"
    (Metadata.Build name "a demo package" version EmptyString false)
    [] [] components.

(** A package directory [pkg] holding a manifest with the given text and
    parse; there is no previous revision. *)
Definition packageWorld (text : string) (zarfYaml : ZarfYaml.t) (zarfCli : bool)
           (lint : string * option string) : World :=
  tableWorld [("pkg/zarf.yaml", text)] [(text, zarfYaml)] zarfCli lint
             (Fail "exit status 128").

(** A text made of lines. *)
Definition unlines (lines : list string) : string :=
  fold_right (fun line rest => line +:+ nl +:+ rest) EmptyString lines.

(** The text of a manifest with one component [web] and three images. *)
Definition demoText : string :=
  unlines [ "kind: ZarfPackageConfig";
            "metadata:";
            "  name: demo";
            "  description: a demo package";
            "  version: 1.0.0";
            "components:";
            "  - name: web";
            "    images:";
            "      - nginx:1.21";
            "      - nginx@sha256:abcd";
            "      - '{{ .Image }}'" ].

Definition demoImages : list string :=
  [ "nginx:1.21"; "nginx@sha256:abcd"; "{{ .Image }}" ].

Definition demoManifest : ZarfYaml.t :=
  manifest "demo" "1.0.0" [component "web" [] demoImages].

(** [zarf dev lint] exits with an error and prints nothing. *)
Definition silentLintFailure : World :=
  packageWorld demoText demoManifest true (EmptyString, Some "exit status 1").

(** The lint run succeeds; two components are named [web]. *)
Definition duplicateWorld : World :=
  packageWorld demoText
    (manifest "demo" "1.0.0" [component "web" [] demoImages; component "web" [] demoImages])
    true (EmptyString, None).

(** The lint run succeeds; the component [web] depends on [web]. *)
Definition selfDependencyWorld : World :=
  packageWorld demoText (manifest "demo" "1.0.0" [component "web" ["web"] demoImages])
    true (EmptyString, None).

(** The [zarf] binary is not installed. *)
Definition noCliWorld : World :=
  packageWorld demoText demoManifest false (EmptyString, None).

(** The previous revision of the manifest had another image and the same
    version. *)
Definition previousText : string :=
  unlines [ "kind: ZarfPackageConfig";
            "metadata:";
            "  name: demo";
            "  description: a demo package";
            "  version: 1.0.0";
            "components:";
            "  - name: web";
            "    images:";
            "      - nginx:1.20" ].

Definition staleVersionWorld : World :=
  tableWorld [("pkg/zarf.yaml", demoText)]
             [(demoText, demoManifest);
              (previousText, manifest "demo" "1.0.0" [component "web" [] ["nginx:1.20"]])]
             true (EmptyString, None) (Ok previousText).

(** Two components that depend on each other. *)
Definition cycleManifest : ZarfYaml.t :=
  manifest "demo" "1.0.0" [component "a" ["b"] demoImages; component "b" ["a"] demoImages].

Definition cycleWorld : World :=
  packageWorld demoText cycleManifest true (EmptyString, None).

(** The diamond: [a] depends on [b] and [c], which both depend on [d]. *)
Definition diamondManifest : ZarfYaml.t :=
  manifest "demo" "1.0.0"
    [ component "a" ["b"; "c"] demoImages; component "b" ["d"] demoImages;
      component "c" ["d"] demoImages; component "d" [] demoImages ].

Definition diamondWorld : World :=
  packageWorld demoText diamondManifest true (EmptyString, None).

(** Two components named [web]: the first depends on [web], the second,
    which the component map keeps, on nothing. *)
Definition shadowedSelfManifest : ZarfYaml.t :=
  manifest "demo" "1.0.0" [component "web" ["web"] demoImages; component "web" [] demoImages].

Definition shadowedSelfWorld : World :=
  packageWorld demoText shadowedSelfManifest true (EmptyString, None).

(** The name and the dependencies of each component: the graph as
    declared. *)
Definition declaredEdges (components : list ZarfComponent.t) : list (string * list string) :=
  map (fun c => (ZarfComponent.Name c, ZarfComponent.DepsWith c)) components.

Definition componentNamesOf (components : list ZarfComponent.t) : list string :=
  map ZarfComponent.Name components.


(* ===================================================================== *)
(** ** [pkg/util]: name and list helpers                                  *)
(* ===================================================================== *)

(** [strings.Join elems sep]. *)
Fixpoint joinStrings (elems : list string) (sep : string) : string :=
  match elems with
  | [] => EmptyString
  | [e] => e
  | e :: rest => e +:+ sep +:+ joinStrings rest sep
  end.

(** [strings.HasSuffix s suffix]. *)
Definition hasSuffix (s suffix : string) : bool :=
  (String.length suffix <=? String.length s)%nat
  && String.eqb (Strings.drop_bytes (String.length s - String.length suffix) s) suffix.

Fixpoint StringSliceContains (slice : list string) (s : string) : bool :=
  match slice with
  | [] => false
  | element :: rest => if String.eqb s element then true else StringSliceContains rest s
  end.

(** The bytes matched by the class [a-zA-Z0-9]. *)
Definition isAlnum (c : ascii) : bool :=
  let n := nat_of_ascii c in
  ((48 <=? n)%nat && (n <=? 57)%nat)
  || ((65 <=? n)%nat && (n <=? 90)%nat)
  || ((97 <=? n)%nat && (n <=? 122)%nat).

(** A Go [int] (64 bits, two's complement). *)
Definition wrap64 (z : Z) : Z := ((z + 2 ^ 63) mod 2 ^ 64 - 2 ^ 63)%Z.

(** [SanitizeName]: keep the last [maxLength] bytes, then delete the
    leading run matched by [^[^a-zA-Z0-9]+].  Every byte of a multi-byte
    character is outside the class, so the deletion is the same on bytes
    as on characters.  [None] is the run-time panic of the slice
    expression [s[excess:]] when [excess] exceeds the length of [s]. *)
Definition SanitizeName (s : string) (maxLength : Z) : option string :=
  let excess := wrap64 (Z.of_nat (String.length s) - maxLength) in
  if (0 <? excess)%Z then
    if (excess <=? Z.of_nat (String.length s))%Z
    then Some (Strings.trimLeftFunc (fun c => negb (isAlnum c))
                 (Strings.drop_bytes (Z.to_nat excess) s))
    else None
  else Some (Strings.trimLeftFunc (fun c => negb (isAlnum c)) s).

(** The dynamic values [doFlatten] distinguishes: a string, a slice of
    strings, a slice of values, and a value of any other type (with the
    name of its type). *)
#[local] Unset Elimination Schemes.
Inductive Item :=
| ItemString (v : string)
| ItemStrings (v : list string)
| ItemList (v : list Item)
| ItemOther (typeName : string).
#[local] Set Elimination Schemes.

Fixpoint doFlatten (result : list string) (items : Item) : Res (list string) :=
  match items with
  | ItemString v => Ok (result ++ [v])
  | ItemStrings v => Ok (result ++ v)
  | ItemList v =>
      (fix loop (v : list Item) (result : list string) : Res (list string) :=
         match v with
         | [] => Ok result
         | item :: rest =>
             match doFlatten result item with
             | Fail e => Fail e
             | Ok result' => loop rest result'
             end
         end) v result
  | ItemOther typeName => Fail ("flatten does not support " +:+ typeName)
  end.

Definition Flatten (items : list Item) : Res (list string) :=
  doFlatten [] (ItemList items).

(** The strings of a value, in order, and whether every value in it has
    a supported type. *)
Fixpoint leaves (items : Item) : list string :=
  match items with
  | ItemString v => [v]
  | ItemStrings v => v
  | ItemList v => flat_map leaves v
  | ItemOther _ => []
  end.

Fixpoint supported (items : Item) : bool :=
  match items with
  | ItemString _ | ItemStrings _ => true
  | ItemList v => forallb supported v
  | ItemOther _ => false
  end.

(* ===================================================================== *)
(** ** [pkg/zarf]: more of the package locator                            *)
(* ===================================================================== *)

(** [FilterExcludedPackages]; [base] is [filepath.Base]. *)
Definition FilterExcludedPackages (base : string -> string)
           (packages excluded : list string) : list string :=
  if isEmptyList excluded then packages
  else
    let excludeSet : gset string :=
      fold_left (fun excludeSet exc => {[ exc ]} ∪ excludeSet) excluded ∅ in
    fold_left (fun filtered pkg =>
                 let packageName := base pkg in
                 if negb (bool_decide (packageName ∈ excludeSet))
                    && negb (bool_decide (pkg ∈ excludeSet))
                 then filtered ++ [pkg] else filtered)
              packages [].

Module Locator.

(** The package-level [ValidatePackages] of the locator: the error it
    returns, if any. *)
Definition notPackageError (dir : string) : string :=
  "directory " +:+ dir +:+ " does not contain a valid Zarf package".

Definition ValidatePackages (w : World) (packageDirs : list string) : option string :=
  let errors :=
    fold_left (fun errors dir =>
                 if negb (IsZarfPackage w dir) then errors ++ [notPackageError dir]
                 else errors)
              packageDirs [] in
  if (0 <? List.length errors)%nat
  then Some ("package validation failed:" +:+ nl +:+ "- "
               +:+ joinStrings errors (nl +:+ "- "))
  else None.

End Locator.

(** [LoadZarfPackage]: the path, the name and the manifest. *)
Record ZarfPackage := {
  pkgPath : string;
  pkgName : string;
  pkgMetadata : ZarfYaml.t }.

Definition LoadZarfPackage (w : World) (base : string -> string) (dir : string)
  : Res ZarfPackage :=
  if negb (IsZarfPackage w dir)
  then Fail ("directory " +:+ dir +:+ " does not contain a zarf.yaml file")
  else
    let zarfYamlPath := Join w dir "zarf.yaml" in
    match ReadZarfYaml w zarfYamlPath with
    | Fail e => Fail ("failed to read zarf.yaml from " +:+ zarfYamlPath +:+ ": " +:+ e)
    | Ok metadata =>
        let packageName := Metadata.Name (ZarfYaml.Metadata metadata) in
        let packageName :=
          if String.eqb packageName EmptyString then base dir else packageName in
        Ok {| pkgPath := dir; pkgName := packageName; pkgMetadata := metadata |}
    end.

(* ===================================================================== *)
(** ** [pkg/zarf]: the change mapper                                      *)
(* ===================================================================== *)

(** The two operations of the Git wrapper the mapper calls. *)
Record Git := {
  MergeBase : string -> string -> Res string;
  ListChangedFilesInDirs : string -> list string -> Res (list string) }.

(** The loop of [findPackageContainingFile] from [currentDir], for at
    most [fuel] iterations; the outer [None] means the bound was reached,
    the inner one that the loop ended without a package. *)
Fixpoint walkUp (w : World) (dirs : list string) (fuel : nat) (currentDir : string)
  : option (option string) :=
  match fuel with
  | O => None
  | S fuel' =>
      if negb (String.eqb currentDir ".") && negb (String.eqb currentDir "/") then
        if IsZarfPackage w currentDir && existsb (fun dir => Strings.HasPrefix currentDir dir) dirs
        then Some (Some currentDir)
        else walkUp w dirs fuel' (Dir w currentDir)
      else Some None
  end.

(** Enough iterations when [filepath.Dir] shortens the paths it is
    given ([findPackageContainingFile_returns]). *)
Definition walkUpFuel (currentDir : string) : nat := S (S (String.length currentDir)).

Definition findPackageContainingFile (w : World) (file : string) (dirs : list string)
  : option (Res string) :=
  match walkUp w dirs (walkUpFuel (Dir w file)) (Dir w file) with
  | None => None
  | Some (Some packageDir) => Some (Ok packageDir)
  | Some None => Some (Fail ("file " +:+ file +:+ " is not in a Zarf package"))
  end.

(** Body of the loop of [FindChangedPackages] over the changed files;
    [changedPackages] is the map used as a set. *)
Definition changedFileStep (w : World) (dirs : list string)
           (changedPackages : option (gset string)) (file : string) : option (gset string) :=
  match changedPackages with
  | None => None
  | Some changedPackages =>
      match findPackageContainingFile w file dirs with
      | None => None
      | Some (Fail _) => Some changedPackages
      | Some (Ok packageDir) =>
          if nonEmpty packageDir
          then Some ({[ packageDir ]} ∪ changedPackages)
          else Some changedPackages
      end
  end.

(** [FindChangedPackages]: the error, or the set of the packages it
    returns (the slice lists the keys of the map, in no fixed order).
    The outer [None] means that some walk did not end within its bound. *)
Definition FindChangedPackages (w : World) (git : Git) (remote targetBranch : string)
           (dirs : list string) : option (Res (gset string)) :=
  match MergeBase git (remote +:+ "/" +:+ targetBranch) "HEAD" with
  | Fail e => Some (Fail ("failed to get merge base: " +:+ e))
  | Ok mergeBase =>
      match ListChangedFilesInDirs git mergeBase dirs with
      | Fail e => Some (Fail ("failed to get changed files: " +:+ e))
      | Ok changedFiles =>
          match fold_left (changedFileStep w dirs) changedFiles (Some ∅) with
          | None => None
          | Some changedPackages => Some (Ok changedPackages)
          end
      end
  end.

(** [GetChangedFilesMatchingPattern]; [base] is [filepath.Base]. *)
Definition GetChangedFilesMatchingPattern (git : Git) (base : string -> string)
           (remote targetBranch pattern : string) : Res (list string) :=
  match MergeBase git (remote +:+ "/" +:+ targetBranch) "HEAD" with
  | Fail e => Fail ("failed to get merge base: " +:+ e)
  | Ok mergeBase =>
      match ListChangedFilesInDirs git mergeBase ["."] with
      | Fail e => Fail ("failed to get changed files: " +:+ e)
      | Ok allChangedFiles =>
          Ok (fold_left (fun matchingFiles file =>
                           if String.eqb (base file) pattern
                           then matchingFiles ++ [file] else matchingFiles)
                        allChangedFiles [])
      end
  end.

(* ===================================================================== *)
(** ** [pkg/zarf]: the deployment driver                                  *)
(* ===================================================================== *)

Record ComponentTestResult := {
  ComponentName : string;
  TestSuccess : bool;
  Message : string }.

(** [DeployTime] is a [time.Duration]: a number of nanoseconds. *)
Record DeploymentResult := {
  DeployPath : string;
  Success : bool;
  DeployTime : Z;
  DeployErrors : list string;
  DeployWarnings : list string;
  ComponentTests : list ComponentTestResult }.

Record PackageDeployer := {
  UseZarfCLI : bool;
  Timeout : Z;
  SkipCleanup : bool;
  TestNamespace : string }.

(** Ten minutes, in nanoseconds. *)
Definition NewPackageDeployer : PackageDeployer :=
  {| UseZarfCLI := true; Timeout := 600000000000; SkipCleanup := false;
     TestNamespace := "zt-test" |}.

(** What the driver reads besides the [World]: the names in a directory
    ([os.ReadDir]), a process run in a directory, the formatted current
    time, the random suffix and the time elapsed since the start. *)
Record DeployWorld := {
  world : World;
  ReadDir : string -> Res (list string);
  RunProcessInDirAndCaptureOutput : string -> string -> list string -> Res string;
  timestamp : string;
  RandomString : nat -> string;
  elapsed : Z }.

Definition addDeployError (result : DeploymentResult) (msg : string) : DeploymentResult :=
  {| DeployPath := DeployPath result; Success := Success result;
     DeployTime := DeployTime result;
     DeployErrors := DeployErrors result ++ [msg];
     DeployWarnings := DeployWarnings result;
     ComponentTests := ComponentTests result |}.

Definition addDeployWarning (result : DeploymentResult) (msg : string) : DeploymentResult :=
  {| DeployPath := DeployPath result; Success := Success result;
     DeployTime := DeployTime result;
     DeployErrors := DeployErrors result;
     DeployWarnings := DeployWarnings result ++ [msg];
     ComponentTests := ComponentTests result |}.

Definition checkKubernetesConnection (dw : DeployWorld) : option string :=
  match RunProcessAndCaptureOutput (world dw) "kubectl" ["cluster-info"] with
  | Fail e => Some ("kubectl cluster-info failed: " +:+ e)
  | Ok _ => None
  end.

Definition generateTestNamespace (dw : DeployWorld) (d : PackageDeployer) : string :=
  TestNamespace d +:+ "-" +:+ timestamp dw +:+ "-" +:+ RandomString dw 8.

Definition buildPackage (dw : DeployWorld) (packagePath : string) : Res string :=
  match RunProcessInDirAndCaptureOutput dw packagePath "zarf"
          ["package"; "create"; "."; "--confirm"] with
  | Fail e => Fail ("zarf package create failed: " +:+ e)
  | Ok _ =>
      match ReadDir dw packagePath with
      | Fail e => Fail ("failed to read package directory: " +:+ e)
      | Ok files =>
          match List.find (fun name => Strings.HasPrefix name "zarf-package-"
                                       && hasSuffix name ".tar.zst") files with
          | Some name => Ok (Join (world dw) packagePath name)
          | None => Fail "no zarf package file found after build"
          end
      end
  end.

Definition deployPackageToCluster (dw : DeployWorld) (packageTarPath namespace : string)
  : option string :=
  match RunProcessAndCaptureOutput (world dw) "zarf"
          ["package"; "deploy"; packageTarPath; "--confirm"] with
  | Fail e => Some ("zarf package deploy failed: " +:+ e)
  | Ok _ => None
  end.

(** [testDeployment]: the results and the error. *)
Definition testDeployment (dw : DeployWorld) (packagePath namespace : string)
  : list ComponentTestResult * option string :=
  match ReadZarfYaml (world dw) (Join (world dw) packagePath "zarf.yaml") with
  | Fail e => ([], Some ("failed to read zarf.yaml: " +:+ e))
  | Ok zarfYaml =>
      let results :=
        match RunProcessAndCaptureOutput (world dw) "kubectl"
                ["get"; "pods"; "--all-namespaces"] with
        | Fail e =>
            [ {| ComponentName := "basic-connectivity"; TestSuccess := false;
                 Message := "Failed to get pods: " +:+ e |} ]
        | Ok _ =>
            [ {| ComponentName := "basic-connectivity"; TestSuccess := true;
                 Message := "Successfully connected to cluster and retrieved pod information" |} ]
        end in
      (results ++
         [ {| ComponentName := "package-" +:+ Metadata.Name (ZarfYaml.Metadata zarfYaml);
              TestSuccess := true;
              Message := "Package metadata loaded successfully" |} ],
       None)
  end.

Definition cleanupDeployment (dw : DeployWorld) (namespace : string) : option string :=
  match RunProcessAndCaptureOutput (world dw) "zarf" ["package"; "remove"; "--confirm"] with
  | Fail e => Some ("package removal failed: " +:+ e)
  | Ok _ => None
  end.

(** [DeployPackage]; the error it returns is always nil. *)
Definition DeployPackage (dw : DeployWorld) (d : PackageDeployer) (packagePath : string)
  : DeploymentResult :=
  let result :=
    {| DeployPath := packagePath; Success := false; DeployTime := 0;
       DeployErrors := []; DeployWarnings := []; ComponentTests := [] |} in
  if negb (IsZarfPackage (world dw) packagePath)
  then addDeployError result "Directory does not contain a zarf.yaml file"
  else
    match RunProcessAndCaptureOutput (world dw) "zarf" ["version"] with
    | Fail _ =>
        addDeployError result
          "Zarf CLI not found - please install Zarf CLI for deployment testing"
    | Ok _ =>
        match checkKubernetesConnection dw with
        | Some e => addDeployError result ("Kubernetes connection failed: " +:+ e)
        | None =>
            let testNamespace := generateTestNamespace dw d in
            match buildPackage dw packagePath with
            | Fail e => addDeployError result ("Failed to build package: " +:+ e)
            | Ok packageTarPath =>
                match deployPackageToCluster dw packageTarPath testNamespace with
                | Some e => addDeployError result ("Failed to deploy package: " +:+ e)
                | None =>
                    let '(componentResults, err) :=
                      testDeployment dw packagePath testNamespace in
                    let result :=
                      match err with
                      | Some e => addDeployError result ("Deployment testing failed: " +:+ e)
                      | None => result
                      end in
                    let result :=
                      if negb (SkipCleanup d) then
                        match cleanupDeployment dw testNamespace with
                        | Some e => addDeployWarning result ("Cleanup failed: " +:+ e)
                        | None => result
                        end
                      else result in
                    {| DeployPath := DeployPath result;
                       Success := isEmptyList (DeployErrors result);
                       DeployTime := elapsed dw;
                       DeployErrors := DeployErrors result;
                       DeployWarnings := DeployWarnings result;
                       ComponentTests := componentResults |}
                end
            end
        end
    end.

(** The loop of [DeployPackages], with the slice built so far; it is left
    after a failed deployment unless cleanup is skipped. *)
Fixpoint deployPackagesFrom (dw : DeployWorld) (d : PackageDeployer)
         (packagePaths : list string) (results : list DeploymentResult)
  : list DeploymentResult :=
  match packagePaths with
  | [] => results
  | path :: rest =>
      let result := DeployPackage dw d path in
      let results := results ++ [result] in
      if negb (Success result) && negb (SkipCleanup d) then results
      else deployPackagesFrom dw d rest results
  end.

Definition DeployPackages (dw : DeployWorld) (d : PackageDeployer)
           (packagePaths : list string) : list DeploymentResult :=
  deployPackagesFrom dw d packagePaths [].

Fixpoint HasDeploymentErrors (results : list DeploymentResult) : bool :=
  match results with
  | [] => false
  | result :: rest => if negb (Success result) then true else HasDeploymentErrors rest
  end.

(** The names that repeat a name already in [seen] or earlier in the
    list, one entry per repetition, in order. *)
Fixpoint repeatedNames (seen : gset string) (names : list string) : list string :=
  match names with
  | [] => []
  | name :: rest =>
      (if bool_decide (name ∈ seen) then [name] else [])
      ++ repeatedNames ({[ name ]} ∪ seen) rest
  end.

(** [filepath.Dir] on clean slash-separated paths: the path without its
    last element, [.] for a path without a slash and [/] for an entry of
    the root. *)
Definition cleanDir (path : string) : string :=
  match dirOf path with
  | EmptyString => if Strings.HasPrefix path "/" then "/" else "."
  | dir => dir
  end.

(** A workspace with one package, [packages/web], next to a file that
    belongs to no package. *)
Definition treeWorld : World :=
  let base := tableWorld [("packages/web/zarf.yaml", demoText);
                          ("packages/web/files/index.html", "<html/>");
                          ("README.md", "# demo")]
                         [(demoText, demoManifest)] true (EmptyString, None)
                         (Fail "exit status 128") in
  {| Stat := fun path =>
       if String.eqb path "packages" || String.eqb path "packages/web"
          || String.eqb path "packages/web/files"
       then StatOk 4096 true else Stat base path;
     ReadFile := ReadFile base;
     Walk := fun root =>
       if String.eqb root "packages"
       then [ WalkVisit "packages" "packages" true;
              WalkVisit "packages/web" "web" true;
              WalkVisit "packages/web/files" "files" true;
              WalkVisit "packages/web/files/index.html" "index.html" false;
              WalkVisit "packages/web/zarf.yaml" "zarf.yaml" false ]
       else [];
     Join := Join base;
     Dir := cleanDir;
     Unmarshal := Unmarshal base;
     RunProcessAndCaptureOutput := RunProcessAndCaptureOutput base;
     CreateProcess := CreateProcess base;
     CombinedOutput := CombinedOutput base;
     LowerCase := LowerCase base |}.

(** Since the merge base, a file of the package and the README changed. *)
Definition treeGit : Git :=
  {| MergeBase := fun _ _ => Ok "3f2a9c1";
     ListChangedFilesInDirs := fun _ _ =>
       Ok ["packages/web/files/index.html"; "README.md"] |}.

(** A cluster on which every command succeeds, or on which the
    deployment of the built package fails. *)
Definition deployWorld (deployFails : bool) : DeployWorld :=
  {| world :=
       {| Stat := Stat treeWorld; ReadFile := ReadFile treeWorld; Walk := Walk treeWorld;
          Join := Join treeWorld; Dir := Dir treeWorld; Unmarshal := Unmarshal treeWorld;
          RunProcessAndCaptureOutput := fun name args =>
            if deployFails && String.eqb name "zarf" && String.eqb (index args 1) "deploy"
            then Fail "exit status 1" else Ok EmptyString;
          CreateProcess := CreateProcess treeWorld;
          CombinedOutput := CombinedOutput treeWorld;
          LowerCase := LowerCase treeWorld |};
     ReadDir := fun _ => Ok ["zarf.yaml"; "zarf-package-demo-amd64-1.0.0.tar.zst"];
     RunProcessInDirAndCaptureOutput := fun _ _ _ => Ok EmptyString;
     timestamp := "20240102-030405";
     RandomString := fun _ => "a1b2c3d4";
     elapsed := 1500000000 |}.

(** What the change mapper needs of [filepath.Dir]: applied to a path
    other than [.] and [/], it returns one of these two or a shorter
    path. *)
Definition dirShortens (w : World) : Prop :=
  forall path,
    path <> "." -> path <> "/" ->
    Dir w path = "." \/ Dir w path = "/"
    \/ String.length (Dir w path) < String.length path.

(** The test of [findPackageContainingFile] on a directory: it holds a
    manifest and starts with one of the configured roots. *)
Definition ownsFiles (w : World) (dirs : list string) (dir : string) : bool :=
  IsZarfPackage w dir && existsb (fun root => Strings.HasPrefix dir root) dirs.

(** The cluster of [deployWorld false], except that the pods cannot be
    listed. *)
Definition unreachablePodsWorld : DeployWorld :=
  let dw := deployWorld false in
  {| world :=
       {| Stat := Stat (world dw); ReadFile := ReadFile (world dw); Walk := Walk (world dw);
          Join := Join (world dw); Dir := Dir (world dw); Unmarshal := Unmarshal (world dw);
          RunProcessAndCaptureOutput := fun name args =>
            if String.eqb name "kubectl" && String.eqb (index args 0) "get"
            then Fail "exit status 1" else Ok EmptyString;
          CreateProcess := CreateProcess (world dw);
          CombinedOutput := CombinedOutput (world dw);
          LowerCase := LowerCase (world dw) |};
     ReadDir := ReadDir dw;
     RunProcessInDirAndCaptureOutput := RunProcessInDirAndCaptureOutput dw;
     timestamp := timestamp dw;
     RandomString := RandomString dw;
     elapsed := elapsed dw |}.

(** The upper-case ASCII letters. *)
Definition isUpper (c : ascii) : Prop := 65 <= nat_of_ascii c <= 90.

(** The executor hands back what a process printed without the white
    space around it. *)
Definition trimmedOutputs (base : World) : World :=
  {| Stat := Stat base; ReadFile := ReadFile base; Walk := Walk base; Join := Join base;
     Dir := Dir base; Unmarshal := Unmarshal base;
     RunProcessAndCaptureOutput := fun name args =>
       match RunProcessAndCaptureOutput base name args with
       | Ok out => Ok (Strings.TrimSpace out)
       | Fail e => Fail e
       end;
     CreateProcess := CreateProcess base; CombinedOutput := CombinedOutput base;
     LowerCase := LowerCase base |}.

(** The manifest of [pkg] is the previous revision with one more empty
    line at its end. *)
Definition blankLineWorld : World :=
  trimmedOutputs
    (tableWorld [("pkg/zarf.yaml", demoText +:+ nl)]
                [(demoText +:+ nl, demoManifest); (Strings.TrimSpace demoText, demoManifest)]
                true (EmptyString, None) (Ok demoText)).

(** The manifest of [pkg] is the previous revision, and [cat] cannot be
    run. *)
Definition noCatWorld : World :=
  let base := tableWorld [("pkg/zarf.yaml", demoText)] [(demoText, demoManifest)]
                         true (EmptyString, None) (Ok demoText) in
  {| Stat := Stat base; ReadFile := ReadFile base; Walk := Walk base; Join := Join base;
     Dir := Dir base; Unmarshal := Unmarshal base;
     RunProcessAndCaptureOutput := fun name args =>
       if String.eqb name "cat" then Fail "executable file not found in $PATH"
       else RunProcessAndCaptureOutput base name args;
     CreateProcess := CreateProcess base; CombinedOutput := CombinedOutput base;
     LowerCase := LowerCase base |}.

(** The cycle between [a] and [b], followed by a second [a] and a second
    [b] that depend on nothing; the component map keeps these. *)
Definition shadowedCycleManifest : ZarfYaml.t :=
  manifest "demo" "1.0.0"
    [ component "a" ["b"] demoImages; component "b" ["a"] demoImages;
      component "a" [] demoImages; component "b" [] demoImages ].

Definition shadowedCycleWorld : World :=
  packageWorld demoText shadowedCycleManifest true (EmptyString, None).

(* ===================================================================== *)
(** * Properties                                                          *)
(* ===================================================================== *)

(** ** The string functions on examples *)

Example Split_lines :
  Strings.Split (unlines ["a: 1"; "b: 2"]) nl = ["a: 1"; "b: 2"; ""].
Proof. reflexivity. Qed.

Example Split_image : Strings.Split "  image: nginx:1.21" "image:" = ["  "; " nginx:1.21"].
Proof. reflexivity. Qed.

Example SplitN_marker :
  Strings.SplitN "12:00 ERR bad ERR worse" " ERR " 2 = ["12:00"; "bad ERR worse"].
Proof. reflexivity. Qed.

Example Trim_quotes :
  Strings.Trim (Strings.TrimSpace "  'nginx:1.21'  ") quotes = "nginx:1.21".
Proof. reflexivity. Qed.

Example Count_slashes : Strings.Count "ghcr.io/org/app" "/" = 2.
Proof. reflexivity. Qed.

Example ToLower_mixed : Strings.ToLower (fun r => r) "Web-Server" = "web-server".
Proof. reflexivity. Qed.

(** Outside ASCII: the white space of Unicode is trimmed at both ends, a
    byte that only looks like the end of a no-break space is not, and a
    text that is not ASCII is lowered rune by rune, a stray byte becoming
    U+FFFD. *)
Example TrimSpace_unicode :
  Strings.TrimSpace (ideographicSpace +:+ " 12:00 ERR bad" +:+ nbsp) = "12:00 ERR bad".
Proof. vm_compute. reflexivity. Qed.

Example TrimSpace_stray_byte :
  Strings.TrimSpace (" bad" +:+ String "160"%char " ") = "bad" +:+ String "160"%char "".
Proof. vm_compute. reflexivity. Qed.

Example ToLower_unicode :
  Strings.ToLower (LowerCase cycleWorld) (upperEacute +:+ "MILE") = lowerEacute +:+ "mile".
Proof. vm_compute. reflexivity. Qed.

Example ToLower_stray_byte :
  Strings.ToLower (LowerCase cycleWorld) ("web" +:+ String "160"%char "")
  = "web" +:+ String "239"%char (String "191"%char (String "189"%char "")).
Proof. vm_compute. reflexivity. Qed.

(** A lint line that ends in a no-break space records the message
    without it; an image entry that starts with one is still read as a
    template; and a name with an upper-case letter outside ASCII, or
    with a stray byte, is against the naming convention. *)
Example lintFailureLine_unicode :
  lintFailureLine (freshResult "pkg" true) ("12:00 ERR bad" +:+ nbsp)
  = appendError (freshResult "pkg" true) "bad".
Proof. vm_compute. reflexivity. Qed.

Example imagePinningLine_unicode :
  imagePinningLine (true, freshResult "pkg" true) ("  - " +:+ nbsp +:+ "{{ .Image }}:tag")
  = (true, freshResult "pkg" true).
Proof. vm_compute. reflexivity. Qed.

Example isValidComponentName_unicode :
  isValidComponentName cycleWorld (upperEacute +:+ "mile") = false
  /\ isValidComponentName cycleWorld (lowerEacute +:+ "mile") = true
  /\ isValidComponentName cycleWorld ("web" +:+ String "160"%char "") = false.
Proof. vm_compute. by repeat split. Qed.

(** Splitting never yields the empty slice. *)
Lemma genSplit_nonempty sep s :
  forall limit skip acc, 1 <= List.length (Strings.genSplit sep limit skip acc s).
Proof.
  induction s as [|c s IH]; intros limit skip acc.
  - destruct skip; cbn; lia.
  - destruct skip as [|skip]; cbn [Strings.genSplit]; [|apply IH].
    destruct limit as [[|n]|]; cbn [List.length]; try lia;
      (destruct (String.prefix sep (String c s)); [cbn [List.length]; lia | apply IH]).
Qed.

(** Where the code indexes position 1 of a split, after checking that
    the separator occurs, that position exists. *)
Lemma Split_Contains_length s sep :
  sep <> EmptyString ->
  Strings.Contains s sep = true ->
  2 <= List.length (Strings.Split s sep).
Proof.
  intros Hsep. unfold Strings.Split. destruct sep as [|d sep]; [congruence|]. clear Hsep.
  generalize EmptyString. induction s as [|c s IH]; intros acc Hin.
  - cbn in Hin. discriminate.
  - cbn [Strings.Contains] in Hin. cbn [Strings.genSplit].
    destruct (String.prefix (String d sep) (String c s)).
    + cbn [List.length fmap option_fmap option_map].
      pose proof (genSplit_nonempty (String d sep) s None
                    (String.length (String d sep) - 1) EmptyString). lia.
    + by apply IH.
Qed.

(** ** Result objects only grow *)

Global Instance extends_preorder : PreOrder extends.
Proof.
  split.
  - intros r. repeat split; reflexivity.
  - intros r1 r2 r3 (Hp & He & Hw) (Hp' & He' & Hw'). repeat split.
    + congruence.
    + by transitivity (Errors r2).
    + by transitivity (Warnings r2).
Qed.

Global Instance errsOnly_preorder : PreOrder errsOnly.
Proof.
  split.
  - intros r. split; reflexivity.
  - intros r1 r2 r3 [H1 V1] [H2 V2]. split; [by transitivity r2 | congruence].
Qed.

Global Instance warnsOnly_preorder : PreOrder warnsOnly.
Proof.
  split.
  - intros r. split; reflexivity.
  - intros r1 r2 r3 [H1 E1] [H2 E2]. split; [by transitivity r2 | congruence].
Qed.

Lemma appendWarning_warnsOnly result msg : warnsOnly result (appendWarning result msg).
Proof.
  repeat split; simpl; try reflexivity. by apply prefix_app_r.
Qed.

Lemma appendError_errsOnly result msg : errsOnly result (appendError result msg).
Proof.
  repeat split; simpl; try reflexivity. by apply prefix_app_r.
Qed.

Lemma setValid_extends result b : extends result (setValid result b).
Proof. repeat split; reflexivity. Qed.

Lemma warnsOnly_errsOnly r r' : warnsOnly r r' -> errsOnly r r'.
Proof. by intros [H _]. Qed.

Lemma errsOnly_extends r r' : errsOnly r r' -> extends r r'.
Proof. by intros [H _]. Qed.

Lemma warnsOnly_extends r r' : warnsOnly r r' -> extends r r'.
Proof. intros H. by apply errsOnly_extends, warnsOnly_errsOnly. Qed.

(** A loop whose body is related to its input by a pre-order is related
    to its input; [proj] selects the result object in the loop state. *)
Lemma fold_left_rel {S A} (R : relation ValidationResult) `{!PreOrder R}
      (proj : S -> ValidationResult) (f : S -> A -> S) :
  (forall s a, R (proj s) (proj (f s a))) ->
  forall l s, R (proj s) (proj (fold_left f l s)).
Proof.
  intros Hstep l. induction l as [|a l IH]; intros s; simpl.
  - reflexivity.
  - transitivity (proj (f s a)); [apply Hstep | apply IH].
Qed.

Lemma fold_left_rel_id {A} (R : relation ValidationResult) `{!PreOrder R}
      (f : ValidationResult -> A -> ValidationResult) :
  (forall r a, R r (f r a)) -> forall l r, R r (fold_left f l r).
Proof. intros H l r. by apply (fold_left_rel R id f). Qed.

(** Closes a goal [R result result'] where [result'] is [result] under
    conditional appends. *)
Ltac split_ifs :=
  repeat match goal with
         | |- context [if ?b then _ else _] => destruct b
         end.

Ltac peel_one :=
  first [ apply appendWarning_warnsOnly
        | apply appendError_errsOnly
        | apply setValid_extends
        | apply warnsOnly_errsOnly, appendWarning_warnsOnly
        | apply warnsOnly_extends, appendWarning_warnsOnly
        | apply errsOnly_extends, appendError_errsOnly ].

Ltac peel :=
  repeat first
    [ reflexivity
    | match goal with
      | |- _ _ (appendWarning ?x _) => transitivity x; [| peel_one]
      | |- _ _ (appendError ?x _) => transitivity x; [| peel_one]
      | |- _ _ (setValid ?x _) => transitivity x; [| peel_one]
      end ].

Ltac grow := split_ifs; peel.

(** Splits [R result (fold_left f l x)] into [R result x] and the step. *)
Ltac fold_grow R :=
  match goal with
  | |- _ ?r (fold_left ?f ?l ?x) =>
      transitivity x; [| apply (fold_left_rel_id R f); intros; cbv beta ]
  end.

(** ** The package locator *)




(** ** Duplicate component names *)

Lemma duplicateError_inj name name' :
  duplicateError name = duplicateError name' -> name = name'.
Proof. unfold duplicateError. intros H. by simplify_eq. Qed.

Lemma componentStep_fst w seen result c :
  fst (componentStep w (seen, result) c) = {[ ZarfComponent.Name c ]} ∪ seen.
Proof. reflexivity. Qed.

Lemma componentStep_Errors w seen result c :
  Errors (snd (componentStep w (seen, result) c))
  = Errors result ++
      (if bool_decide (ZarfComponent.Name c ∈ seen)
       then [duplicateError (ZarfComponent.Name c)] else []).
Proof.
  unfold componentStep. cbn [snd].
  repeat match goal with
         | |- context [if ?b then appendWarning _ _ else _] => destruct b
         end; cbn [Errors appendWarning];
    (destruct (bool_decide _); cbn [Errors appendError]; by rewrite ?app_nil_r).
Qed.

Lemma componentStep_errsOnly w st c : errsOnly (snd st) (snd (componentStep w st c)).
Proof.
  destruct st as [seen result]. unfold componentStep. cbn [snd]. grow.
Qed.

(** The loop of [validateComponents], started with the names [seen]:
    every occurrence of a name yields an error, but for the first one
    when the name was not seen before. *)
Lemma componentLoop_duplicates w components :
  forall seen result,
  exists added,
    Errors (snd (fold_left (componentStep w) components (seen, result)))
    = Errors result ++ added
    /\ forall name,
      count_occ string_dec added (duplicateError name)
      = if bool_decide (name ∈ seen)
        then count_occ string_dec (componentNamesOf components) name
        else pred (count_occ string_dec (componentNamesOf components) name).
Proof.
  induction components as [|c components IH]; intros seen result.
  - exists []. split; [symmetry; apply app_nil_r|]. intros name. simpl. by case_bool_decide.
  - cbn [fold_left].
    destruct (componentStep w (seen, result) c) as [seen' result'] eqn:Hstep.
    assert (Hseen : seen' = {[ ZarfComponent.Name c ]} ∪ seen)
      by (by rewrite <- (componentStep_fst w seen result c), Hstep).
    assert (Herr : Errors result' = Errors result ++
              (if bool_decide (ZarfComponent.Name c ∈ seen)
               then [duplicateError (ZarfComponent.Name c)] else []))
      by (by rewrite <- (componentStep_Errors w seen result c), Hstep).
    destruct (IH seen' result') as (added & Hadded & Hcount).
    eexists. split.
    + rewrite Hadded, Herr, <- app_assoc. reflexivity.
    + intros name. rewrite count_occ_app, Hcount. subst seen'.
      change (componentNamesOf (c :: components))
        with (ZarfComponent.Name c :: componentNamesOf components).
      destruct (decide (ZarfComponent.Name c = name)) as [Heq|Hne].
      * rewrite Heq. rewrite count_occ_cons_eq by reflexivity.
        rewrite (bool_decide_eq_true_2 (name ∈ {[name]} ∪ seen)) by set_solver.
        destruct (bool_decide (name ∈ seen)).
        -- rewrite count_occ_cons_eq by reflexivity. cbn [count_occ]. lia.
        -- cbn [count_occ]. lia.
      * rewrite count_occ_cons_neq by done.
        assert (Hmem : bool_decide (name ∈ {[ZarfComponent.Name c]} ∪ seen)
                       = bool_decide (name ∈ seen))
          by (apply bool_decide_ext; rewrite elem_of_union, elem_of_singleton;
              intuition congruence).
        assert (Hzero : count_occ string_dec
                  (if bool_decide (ZarfComponent.Name c ∈ seen)
                   then [duplicateError (ZarfComponent.Name c)] else [])
                  (duplicateError name) = 0).
        { destruct (bool_decide (ZarfComponent.Name c ∈ seen)); [|reflexivity].
          apply count_occ_not_In. intros [Hsame|[]].
          apply duplicateError_inj in Hsame. congruence. }
        rewrite Hmem, Hzero. reflexivity.
Qed.

(** C7.  The errors the component pass appends contain, for every name,
    one duplicate-name error per occurrence of the name beyond the first:
    [n - 1] for a name occurring [n >= 2] times, none for a name occurring
    once (or not at all). *)
Theorem C7_one_duplicate_error_per_repeat (w : World) (packagePath : string)
        (result : ValidationResult) (zarfYaml : ZarfYaml.t) :
  ReadZarfYaml w (Join w packagePath "zarf.yaml") = Ok zarfYaml ->
  exists result' added,
    validateComponents w packagePath result = Ok result'
    /\ Errors result' = Errors result ++ added
    /\ forall name n,
        count_occ string_dec (componentNamesOf (ZarfYaml.Components zarfYaml)) name = n ->
        (2 <= n -> count_occ string_dec added (duplicateError name) = n - 1)
        /\ (n = 1 -> count_occ string_dec added (duplicateError name) = 0).
Proof.
  intros Hread. unfold validateComponents. rewrite Hread.
  destruct (isEmptyList (ZarfYaml.Components zarfYaml)) eqn:Hempty.
  - exists (appendWarning result "Package has no components defined"), [].
    split; [reflexivity|]. split; [simpl; by rewrite app_nil_r|].
    intros name n Hn.
    destruct (ZarfYaml.Components zarfYaml); [|discriminate].
    simpl in Hn. subst n. split; [lia | discriminate].
  - destruct (componentLoop_duplicates w (ZarfYaml.Components zarfYaml) ∅ result)
      as (added & Hadded & Hcount).
    eexists _, added. split; [reflexivity|]. split; [exact Hadded|].
    intros name n Hn. rewrite Hcount, Hn.
    rewrite bool_decide_eq_false_2 by set_solver.
    split; intros; subst; simpl; lia.
Qed.

(** Two components named [web]: exactly one duplicate-name error. *)
Lemma C7_witness :
  exists result',
    validateComponents duplicateWorld "pkg" (freshResult "pkg" true) = Ok result'
    /\ count_occ string_dec (Errors result') (duplicateError "web") = 1.
Proof.
  destruct (C7_one_duplicate_error_per_repeat duplicateWorld "pkg" (freshResult "pkg" true)
              (manifest "demo" "1.0.0"
                 [component "web" [] demoImages; component "web" [] demoImages])
              eq_refl) as (result' & added & Hrun & Herr & Hcount).
  destruct (Hcount "web" 2 eq_refl) as [Htwo _].
  exists result'. split; [exact Hrun|].
  rewrite Herr. cbn [Errors freshResult app]. apply Htwo. lia.
Defined.

(** ** What each pass does to the result object *)

Ltac rsimpl :=
  cbn [Errors Warnings Valid PackagePath appendError appendWarning setValid
       freshResult app fst snd].

Lemma lintFailureLine_errsOnly result line : errsOnly result (lintFailureLine result line).
Proof. unfold lintFailureLine. grow. Qed.

Lemma lintSuccessLine_warnsOnly result line : warnsOnly result (lintSuccessLine result line).
Proof. unfold lintSuccessLine. grow. Qed.

Lemma parseLintOutput_extends output err result :
  extends result (parseLintOutput output err result).
Proof.
  unfold parseLintOutput. destruct err; destruct (nonEmpty _);
    try apply setValid_extends.
  - transitivity (setValid result false); [apply setValid_extends|].
    apply (fold_left_rel_id extends). intros. apply errsOnly_extends, lintFailureLine_errsOnly.
  - transitivity (setValid result true); [apply setValid_extends|].
    apply (fold_left_rel_id extends). intros. apply warnsOnly_extends, lintSuccessLine_warnsOnly.
Qed.

(** A failed lint run makes the result invalid, whatever it printed. *)
Lemma parseLintOutput_failure output e result :
  Valid (parseLintOutput output (Some e) result) = false.
Proof.
  unfold parseLintOutput. destruct (nonEmpty _); [|reflexivity].
  destruct (fold_left_rel_id errsOnly lintFailureLine lintFailureLine_errsOnly
              (Strings.Split (Strings.TrimSpace output) nl) (setValid result false))
    as [_ HV].
  by rewrite HV.
Qed.

(** A successful lint run leaves a valid result without new errors. *)
Lemma parseLintOutput_success output result :
  Valid (parseLintOutput output None result) = true
  /\ Errors (parseLintOutput output None result) = Errors result.
Proof.
  unfold parseLintOutput. destruct (nonEmpty _); [|by split].
  destruct (fold_left_rel_id warnsOnly lintSuccessLine lintSuccessLine_warnsOnly
              (Strings.Split (Strings.TrimSpace output) nl) (setValid result true))
    as [[_ HV] HE].
  by rewrite HV, HE.
Qed.

(** The version pass appends at most one message; when it appends an
    error it also clears the verdict, and otherwise leaves it alone. *)
Lemma validateVersionIncrement_spec w packagePath result result' :
  validateVersionIncrement w packagePath result = Ok result' ->
  extends result result'
  /\ (Valid result' = true -> Valid result = true /\ Errors result' = Errors result)
  /\ (Errors result' = Errors result -> Valid result' = Valid result).
Proof.
  unfold validateVersionIncrement.
  destruct (ReadZarfYaml _ _) as [current|]; [|discriminate].
  destruct (RunProcessAndCaptureOutput w "git" _) as [previousContent|].
  2:{ intros [= <-]. split; [grow|]. by split. }
  destruct (UnmarshalZarfYaml _ _) as [previousZarf|].
  2:{ intros [= <-]. split; [grow|]. by split. }
  destruct (String.eqb _ _).
  2:{ intros [= <-]. split; [reflexivity|]. by split. }
  destruct (negb _).
  2:{ intros [= <-]. split; [reflexivity|]. by split. }
  intros [= <-]. split; [grow|]. rsimpl. split; [discriminate|].
  intros H. apply (f_equal (@List.length _)) in H. rewrite length_app in H.
  cbn [List.length] in H. lia.
Qed.

Lemma warnIfUnpinned_warnsOnly result image : warnsOnly result (warnIfUnpinned result image).
Proof. unfold warnIfUnpinned. grow. Qed.

Lemma imagePinningLine_warnsOnly st line :
  warnsOnly (snd st) (snd (imagePinningLine st line)).
Proof.
  destruct st as [inImagesSection result]. unfold imagePinningLine.
  destruct (Strings.Contains (Strings.TrimSpace line) "images:"); [reflexivity|].
  cbn [snd].
  repeat match goal with
         | |- context [if ?b then warnIfUnpinned _ _ else _] => destruct b
         end;
    repeat first [ reflexivity
                 | match goal with
                   | |- _ _ (warnIfUnpinned ?x _) =>
                       transitivity x; [| apply warnIfUnpinned_warnsOnly]
                   end ].
Qed.

Lemma validateImagePinning_warnsOnly w packagePath result result' :
  validateImagePinning w packagePath result = Ok result' -> warnsOnly result result'.
Proof.
  unfold validateImagePinning. destruct (ReadFile _ _) as [content|]; [|discriminate].
  intros [= <-].
  apply (fold_left_rel warnsOnly snd imagePinningLine imagePinningLine_warnsOnly
           (Strings.Split content nl) (false, result)).
Qed.

Lemma validateComponents_errsOnly w packagePath result result' :
  validateComponents w packagePath result = Ok result' -> errsOnly result result'.
Proof.
  unfold validateComponents. destruct (ReadZarfYaml _ _) as [zarfYaml|]; [|discriminate].
  destruct (isEmptyList _); intros [= <-]; [grow|].
  apply (fold_left_rel errsOnly snd (componentStep w) (componentStep_errsOnly w)
           (ZarfYaml.Components zarfYaml) (∅, result)).
Qed.

Lemma edgeStep_errsOnly componentMap name result dep :
  errsOnly result (edgeStep componentMap name result dep).
Proof. unfold edgeStep. destruct (componentMap !! dep); grow. Qed.

Lemma selfStep_errsOnly name result dep : errsOnly result (selfStep name result dep).
Proof. unfold selfStep. grow. Qed.

Lemma dependencyStep_errsOnly componentMap result c :
  errsOnly result (dependencyStep componentMap result c).
Proof.
  unfold dependencyStep.
  transitivity (fold_left (edgeStep componentMap (ZarfComponent.Name c))
                          (ZarfComponent.DepsWith c) result).
  - apply (fold_left_rel_id errsOnly). intros. apply edgeStep_errsOnly.
  - apply (fold_left_rel_id errsOnly). intros. apply selfStep_errsOnly.
Qed.

Lemma validateComponentDependencies_errsOnly w packagePath result result' :
  validateComponentDependencies w packagePath result = Ok result' -> errsOnly result result'.
Proof.
  unfold validateComponentDependencies.
  destruct (ReadZarfYaml _ _) as [zarfYaml|]; [|discriminate].
  destruct (isEmptyList _); intros [= <-]; [reflexivity|].
  apply (fold_left_rel_id errsOnly). intros. apply dependencyStep_errsOnly.
Qed.

Lemma checkManifestSecurity_warnsOnly w path name result result' :
  checkManifestSecurity w path name result = Ok result' -> warnsOnly result result'.
Proof.
  unfold checkManifestSecurity. destruct (ReadFile _ _); [|discriminate].
  intros [= <-]. grow.
Qed.

Lemma manifestFileStep_warnsOnly w packagePath name result file :
  warnsOnly result (manifestFileStep w packagePath name result file).
Proof.
  unfold manifestFileStep.
  destruct (checkManifestSecurity _ _ _ _) eqn:H.
  - by eapply checkManifestSecurity_warnsOnly.
  - grow.
Qed.

Lemma securityStep_warnsOnly w packagePath result c :
  warnsOnly result (securityStep w packagePath result c).
Proof.
  unfold securityStep.
  fold_grow warnsOnly; [| grow].
  destruct (_ || _).
  - fold_grow warnsOnly; [| grow].
    fold_grow warnsOnly; [reflexivity|].
    fold_grow warnsOnly; [reflexivity|]. apply manifestFileStep_warnsOnly.
  - fold_grow warnsOnly; [reflexivity|].
    fold_grow warnsOnly; [reflexivity|]. apply manifestFileStep_warnsOnly.
Qed.

Lemma validateSecurityBestPractices_warnsOnly w packagePath result result' :
  validateSecurityBestPractices w packagePath result = Ok result' -> warnsOnly result result'.
Proof.
  unfold validateSecurityBestPractices.
  destruct (ReadZarfYaml _ _) as [zarfYaml|]; [|discriminate]. intros [= <-].
  apply (fold_left_rel_id warnsOnly). intros. apply securityStep_warnsOnly.
Qed.

Lemma fileSizeStep_warnsOnly w packagePath name result file :
  warnsOnly result (fileSizeStep w packagePath name result file).
Proof. unfold fileSizeStep. destruct (Stat _ _); grow. Qed.

Lemma resourceStep_warnsOnly w packagePath result c :
  warnsOnly result (resourceStep w packagePath result c).
Proof.
  unfold resourceStep.
  fold_grow warnsOnly; [| grow].
  destruct (_ <? _)%nat.
  - transitivity (fold_left (fileSizeStep w packagePath (ZarfComponent.Name c))
                            (ZarfComponent.Files c) result); [| grow].
    fold_grow warnsOnly; [reflexivity|]. apply fileSizeStep_warnsOnly.
  - fold_grow warnsOnly; [reflexivity|]. apply fileSizeStep_warnsOnly.
Qed.

Lemma validateResourceConstraints_warnsOnly w packagePath result result' :
  validateResourceConstraints w packagePath result = Ok result' -> warnsOnly result result'.
Proof.
  unfold validateResourceConstraints.
  destruct (ReadZarfYaml _ _) as [zarfYaml|]; [|discriminate]. intros [= <-].
  apply (fold_left_rel_id warnsOnly). intros. apply resourceStep_warnsOnly.
Qed.

(** The fallback validation never fails, and its verdict is exactly the
    absence of errors. *)
Lemma validateBasic_spec w packagePath :
  exists result,
    validateBasic w packagePath = Ok result
    /\ (Valid result = true <-> Errors result = []).
Proof.
  unfold validateBasic. destruct (ReadZarfYaml _ _) as [zarfYaml|e].
  - eexists. split; [reflexivity|].
    repeat match goal with
           | |- context [if ?b then _ else _] => destruct b
           end; rsimpl; split; (discriminate || reflexivity).
  - eexists. split; [reflexivity|]. rsimpl. split; discriminate.
Qed.

(** A pass that succeeds inside the pipeline succeeded on the result
    object its predecessor left. *)
Lemma andThen_Ok r context p result' :
  andThen r context p = Ok result' ->
  exists result, r = Ok result /\ p result = Ok result'.
Proof.
  unfold andThen. destruct r as [result|]; [|discriminate].
  destruct (p result) eqn:Hp; [|discriminate].
  intros [= <-]. by exists result.
Qed.

(** ** The pipeline as a whole *)

(** Unfolds a successful run of the six passes into its chain of result
    objects. *)
Lemma additionalPasses_Ok w packagePath r0 r6 :
  additionalPasses w packagePath r0 = Ok r6 ->
  exists r1 r2 r3 r4 r5,
    validateVersionIncrement w packagePath r0 = Ok r1
    /\ validateImagePinning w packagePath r1 = Ok r2
    /\ validateComponents w packagePath r2 = Ok r3
    /\ validateComponentDependencies w packagePath r3 = Ok r4
    /\ validateSecurityBestPractices w packagePath r4 = Ok r5
    /\ validateResourceConstraints w packagePath r5 = Ok r6.
Proof.
  unfold additionalPasses. intros H6.
  apply andThen_Ok in H6 as (r5 & H5 & P6).
  apply andThen_Ok in H5 as (r4 & H4 & P5).
  apply andThen_Ok in H4 as (r3 & H3 & P4).
  apply andThen_Ok in H3 as (r2 & H2 & P3).
  apply andThen_Ok in H2 as (r1 & H1 & P2).
  apply andThen_Ok in H1 as (r0' & H0 & P1).
  injection H0 as <-.
  by exists r1, r2, r3, r4, r5.
Qed.

Lemma validateWithSDK_Ok w packagePath result :
  validateWithSDK w packagePath = Ok result ->
  exists output err,
    CombinedOutput w packagePath = (output, err)
    /\ additionalPasses w packagePath
         (parseLintOutput output err (freshResult packagePath true)) = Ok result.
Proof.
  unfold validateWithSDK.
  destruct (RunProcessAndCaptureOutput _ _ _); [|discriminate].
  destruct (CreateProcess _ _ _); [|discriminate].
  destruct (CombinedOutput w packagePath) as [output err]. intros H.
  by exists output, err.
Qed.

(** C1 (amended).  [ValidatePackage] always returns a result and no
    error.  When the manifest is missing or the fallback validation
    produced the result, the verdict is exactly the absence of errors.
    When the lint path produced it, each of the six passes ran on the
    result object its predecessor left, whatever errors that object
    already held, and only appended to it; a valid verdict means that the
    lint run succeeded and that the lint and version passes recorded no
    error; and without any error, a successful lint run gives a valid
    verdict. *)
Theorem C1_verdict_and_accumulation (w : World) (v : PackageValidator) (packagePath : string) :
  exists result v',
    ValidatePackage w v packagePath = (Ok result, v')
    /\ (((IsZarfPackage w packagePath = false \/ validateBasic w packagePath = Ok result)
         /\ (Valid result = true <-> Errors result = []))
        \/ exists output err r1 r2 r3 r4 r5 r6,
            let r0 := parseLintOutput output err (freshResult packagePath true) in
            CombinedOutput w packagePath = (output, err)
            /\ validateVersionIncrement w packagePath r0 = Ok r1
            /\ validateImagePinning w packagePath r1 = Ok r2
            /\ validateComponents w packagePath r2 = Ok r3
            /\ validateComponentDependencies w packagePath r3 = Ok r4
            /\ validateSecurityBestPractices w packagePath r4 = Ok r5
            /\ validateResourceConstraints w packagePath r5 = Ok r6
            /\ result = appendWarning r6 "Validated using Zarf CLI"
            /\ (extends r0 r1 /\ extends r1 r2 /\ extends r2 r3
                /\ extends r3 r4 /\ extends r4 r5 /\ extends r5 r6)
            /\ (Valid result = true -> err = None /\ Errors r1 = [])
            /\ (err = None -> Errors result = [] -> Valid result = true)).
Proof.
  unfold ValidatePackage.
  destruct (IsZarfPackage w packagePath) eqn:Hpkg; cbn [negb].
  2:{ eexists _, _. split; [reflexivity|]. left. split; [by left|].
      rsimpl. split; discriminate. }
  destruct (validateBasic_spec w packagePath) as (rb & Hb & Hbv).
  destruct (UseSDK v).
  2:{ exists rb, v. split; [by rewrite Hb|]. left. split; [by right | exact Hbv]. }
  destruct (validateWithSDK w packagePath) as [r6|e] eqn:Hsdk.
  2:{ exists rb, {| UseSDK := false |}. split; [by rewrite Hb|].
      left. split; [by right | exact Hbv]. }
  eexists _, _. split; [reflexivity|]. right.
  apply validateWithSDK_Ok in Hsdk as (output & err & Hout & Hpasses).
  apply additionalPasses_Ok in Hpasses as (r1 & r2 & r3 & r4 & r5 & P1 & P2 & P3 & P4 & P5 & P6).
  exists output, err, r1, r2, r3, r4, r5, r6. cbv zeta.
  pose proof (validateVersionIncrement_spec _ _ _ _ P1) as (X1 & V1 & E1).
  pose proof (validateImagePinning_warnsOnly _ _ _ _ P2) as [[X2 V2] E2].
  pose proof (validateComponents_errsOnly _ _ _ _ P3) as [X3 V3].
  pose proof (validateComponentDependencies_errsOnly _ _ _ _ P4) as [X4 V4].
  pose proof (validateSecurityBestPractices_warnsOnly _ _ _ _ P5) as [[X5 V5] E5].
  pose proof (validateResourceConstraints_warnsOnly _ _ _ _ P6) as [[X6 V6] E6].
  assert (HV : Valid (appendWarning r6 "Validated using Zarf CLI") = Valid r1)
    by (rsimpl; congruence).
  repeat (split; [assumption|]). split; [reflexivity|].
  split; [by repeat (split; [assumption|])|].
  split.
  - rewrite HV. intros Hvalid. destruct (V1 Hvalid) as [Hv0 He0].
    destruct err as [e|].
    + by rewrite parseLintOutput_failure in Hv0.
    + split; [reflexivity|]. rewrite He0.
      by destruct (parseLintOutput_success output (freshResult packagePath true)) as [_ ->].
  - intros -> Hnone. rewrite HV.
    destruct (parseLintOutput_success output (freshResult packagePath true)) as [Hv0 He0].
    rewrite E1; [exact Hv0|]. rewrite He0.
    (* the errors of [r1] are a prefix of the final, empty list *)
    assert (Hpre : Errors r1 `prefix_of` Errors (appendWarning r6 "Validated using Zarf CLI")).
    { rsimpl. destruct X2 as (_ & ? & _), X3 as (_ & ? & _), X4 as (_ & ? & _),
        X5 as (_ & ? & _), X6 as (_ & ? & _).
      repeat (etransitivity; [eassumption|]). reflexivity. }
    rewrite Hnone in Hpre. by apply prefix_nil_inv in Hpre.
Qed.

(** C1, as stated, fails in both directions.  A lint run that exits with
    an error and prints nothing leaves no error and an invalid verdict;
    a successful lint run on a manifest with a repeated component name
    leaves an error and a valid verdict. *)
Lemma C1_counterexample :
  (exists result,
      ValidatePackage silentLintFailure NewPackageValidator "pkg"
      = (Ok result, NewPackageValidator)
      /\ Errors result = [] /\ Valid result = false
      /\ ~ (Valid result = true <-> Errors result = []))
  /\ (exists result,
         ValidatePackage duplicateWorld NewPackageValidator "pkg"
         = (Ok result, NewPackageValidator)
         /\ Errors result = ["Duplicate component name: web"] /\ Valid result = true
         /\ ~ (Valid result = true <-> Errors result = [])).
Proof.
  split; eexists; (split; [vm_compute; reflexivity|]); cbn [Errors Valid];
    (split; [reflexivity|]); (split; [reflexivity|]); intros [H1 H2].
  - by specialize (H2 eq_refl).
  - by specialize (H1 eq_refl).
Qed.

(** [HasValidationErrors] looks at the verdicts only. *)
Lemma HasValidationErrors_spec results :
  HasValidationErrors results = true <-> exists result, In result results /\ Valid result = false.
Proof.
  induction results as [|result results IH]; cbn [HasValidationErrors In].
  - split; [discriminate | by intros (? & [] & _)].
  - destruct (Valid result) eqn:Hvalid; cbn [negb].
    + rewrite IH. split.
      * intros (r & Hin & Hr). exists r. split; [by right | exact Hr].
      * intros (r & [<- | Hin] & Hr); [congruence | by exists r].
    + split; [|reflexivity]. intros _. exists result. split; [by left | exact Hvalid].
Qed.

(** [ValidatePackage] never returns an error: a batch is never aborted. *)
Lemma ValidatePackage_no_fatal_error w v packagePath :
  exists result v', ValidatePackage w v packagePath = (Ok result, v').
Proof.
  unfold ValidatePackage.
  destruct (validateBasic_spec w packagePath) as (rb & Hb & _). rewrite Hb.
  destruct (negb _); [by eexists _, _|].
  destruct (UseSDK v); [|by eexists _, _].
  destruct (validateWithSDK w packagePath); by eexists _, _.
Qed.

(** C2.  On the lint path, the manifest whose component [web] depends on
    [web] gets its self-dependency error recorded, and yet the result
    stays valid: [HasValidationErrors] on the batch returns false. *)
Theorem C2_self_dependency_leaves_batch_valid :
  exists result,
    ValidatePackages selfDependencyWorld NewPackageValidator ["pkg"]
    = (Ok [result], NewPackageValidator)
    /\ In (selfError "web") (Errors result)
    /\ Valid result = true
    /\ HasValidationErrors [result] = false.
Proof.
  eexists. split; [vm_compute; reflexivity|].
  cbn [Errors Valid HasValidationErrors negb]. split; [|by split].
  right. left. reflexivity.
Qed.

(** ** The fallback *)

Lemma validateBasic_Warnings w packagePath result msg :
  validateBasic w packagePath = Ok result ->
  In msg (Warnings result) ->
  msg = "No version specified in metadata" \/ msg = "No description provided in metadata".
Proof.
  unfold validateBasic. destruct (ReadZarfYaml _ _) as [zarfYaml|e]; intros [= <-].
  - repeat match goal with
           | |- context [if ?b then _ else _] => destruct b
           end; rsimpl; cbn [In]; intuition auto.
  - rsimpl. intros [].
Qed.

(** C4.  When the lint path fails on a package with a manifest,
    [ValidatePackage] returns no error but exactly the result of the
    fallback validation, and switches the validator to the fallback; the
    warning that the fallback was taken is not in that result, whose only
    possible warnings are the two of the fallback itself. *)
Theorem C4_fallback_warning_is_dropped (w : World) (packagePath e : string) :
  IsZarfPackage w packagePath = true ->
  validateWithSDK w packagePath = Fail e ->
  exists result,
    ValidatePackage w NewPackageValidator packagePath = (Ok result, {| UseSDK := false |})
    /\ validateBasic w packagePath = Ok result
    /\ (Valid result = true <-> Errors result = [])
    /\ ~ In ("Zarf CLI validation failed, falling back to basic validation: " +:+ e)
            (Warnings result).
Proof.
  intros Hpkg Hsdk.
  destruct (validateBasic_spec w packagePath) as (result & Hb & Hv).
  exists result. unfold ValidatePackage. rewrite Hpkg, Hsdk. cbn [negb UseSDK NewPackageValidator].
  split; [by rewrite Hb|]. split; [exact Hb|]. split; [exact Hv|].
  intros Hin. destruct (validateBasic_Warnings _ _ _ _ Hb Hin) as [H|H]; discriminate H.
Qed.

(** The package [pkg] where the [zarf] binary is missing: the result has
    no warning at all. *)
Lemma C4_witness :
  exists result,
    ValidatePackage noCliWorld NewPackageValidator "pkg" = (Ok result, {| UseSDK := false |})
    /\ Warnings result = [].
Proof.
  destruct (C4_fallback_warning_is_dropped noCliWorld "pkg"
              "zarf CLI not found - please install Zarf CLI for full validation: executable file not found in $PATH"
              eq_refl eq_refl) as (result & Hrun & Hbasic & _).
  exists result. split; [exact Hrun|].
  vm_compute in Hbasic. by injection Hbasic as <-.
Defined.

(** ** The version pass *)

(** C5 (amended).  When [git show] fails the pass records nothing but
    the warning (it returns it when the current manifest is readable).
    With a readable current manifest and a previous revision that is
    retrieved and parses: when the two versions are equal, the pass
    compares what [cat] printed for the manifest (the empty string when
    [cat] fails) with what [git show] printed; when the two strings
    differ it appends the error naming the version and clears the
    verdict, and when they are equal it records nothing, whatever the
    manifest file holds; when the versions differ it records nothing,
    whatever the texts are. *)
Theorem C5_version_increment (w : World) (packagePath : string) (result : ValidationResult) :
  let path := Join w packagePath "zarf.yaml" in
  let gitShow := RunProcessAndCaptureOutput w "git" ["show"; "HEAD~1:" +:+ path] in
  let printed :=
    match RunProcessAndCaptureOutput w "cat" [path] with
    | Ok out => out
    | Fail _ => EmptyString
    end in
  let retrieval := "Could not retrieve previous package version for comparison" in
  (forall e result',
      gitShow = Fail e ->
      validateVersionIncrement w packagePath result = Ok result' ->
      result' = appendWarning result retrieval)
  /\ (forall current,
        ReadZarfYaml w path = Ok current ->
        let version := Metadata.Version (ZarfYaml.Metadata current) in
        (forall e, gitShow = Fail e ->
           validateVersionIncrement w packagePath result
           = Ok (appendWarning result retrieval))
        /\ (forall previousContent previous,
              gitShow = Ok previousContent ->
              UnmarshalZarfYaml w previousContent = Ok previous ->
              (Metadata.Version (ZarfYaml.Metadata previous) = version ->
               printed <> previousContent ->
               exists result',
                 validateVersionIncrement w packagePath result = Ok result'
                 /\ Errors result'
                    = Errors result ++
                        ["Package content changed but version not incremented (still "
                           +:+ version +:+ ")"]
                 /\ Warnings result' = Warnings result
                 /\ Valid result' = false)
              /\ (Metadata.Version (ZarfYaml.Metadata previous) = version ->
                  printed = previousContent ->
                  validateVersionIncrement w packagePath result = Ok result)
              /\ (Metadata.Version (ZarfYaml.Metadata previous) <> version ->
                  validateVersionIncrement w packagePath result = Ok result))).
Proof.
  intros path gitShow printed retrieval. split.
  - intros e result' Hgit. unfold validateVersionIncrement. fold path.
    destruct (ReadZarfYaml _ _); [|discriminate].
    fold gitShow. rewrite Hgit. by intros [= <-].
  - intros current Hread version. unfold validateVersionIncrement. fold path.
    rewrite Hread. fold gitShow. fold printed. split.
    + intros e ->. reflexivity.
    + intros previousContent previous -> ->. fold version. split; [|split].
      * intros -> Hdiff. rewrite String.eqb_refl.
        apply String.eqb_neq in Hdiff. rewrite Hdiff. cbn [negb].
        eexists. split; [reflexivity|]. by rsimpl.
      * intros -> ->. by rewrite !String.eqb_refl.
      * intros Hne. apply not_eq_sym, String.eqb_neq in Hne. by rewrite Hne.
Qed.

(** The manifest of [pkg] changed an image and kept version 1.0.0. *)
Lemma C5_witness :
  exists result',
    validateVersionIncrement staleVersionWorld "pkg" (freshResult "pkg" true) = Ok result'
    /\ Errors result' = ["Package content changed but version not incremented (still 1.0.0)"]
    /\ Valid result' = false.
Proof.
  destruct (C5_version_increment staleVersionWorld "pkg" (freshResult "pkg" true))
    as [_ Hreadable].
  destruct (Hreadable demoManifest eq_refl) as [_ H].
  destruct (H previousText (manifest "demo" "1.0.0" [component "web" [] ["nginx:1.20"]])
              eq_refl eq_refl) as [Hsame _].
  destruct Hsame as (result' & Hrun & Herr & _ & Hvalid).
  - reflexivity.
  - vm_compute. discriminate.
  - exists result'. split; [exact Hrun|]. split; [|exact Hvalid].
    rewrite Herr. reflexivity.
Defined.

(** C5, as stated, fails when the manifest gained a blank line at its
    end and kept its version: the file differs from the previous
    revision, yet [cat] and [git show] print the same text once the
    executor has trimmed it, and the pass records nothing.  Conversely,
    when [cat] cannot be run the pass reports a change of content for a
    manifest that is the previous revision byte for byte. *)
Lemma C5_counterexample :
  (exists current previousContent previous,
      ReadFile blankLineWorld "pkg/zarf.yaml" = Ok (demoText +:+ nl)
      /\ ReadZarfYaml blankLineWorld (Join blankLineWorld "pkg" "zarf.yaml") = Ok current
      /\ RunProcessAndCaptureOutput blankLineWorld "git" ["show"; "HEAD~1:pkg/zarf.yaml"]
         = Ok previousContent
      /\ UnmarshalZarfYaml blankLineWorld previousContent = Ok previous
      /\ Metadata.Version (ZarfYaml.Metadata current)
         = Metadata.Version (ZarfYaml.Metadata previous)
      /\ demoText +:+ nl <> previousContent
      /\ validateVersionIncrement blankLineWorld "pkg" (freshResult "pkg" true)
         = Ok (freshResult "pkg" true))
  /\ (ReadFile noCatWorld "pkg/zarf.yaml" = Ok demoText
      /\ RunProcessAndCaptureOutput noCatWorld "git" ["show"; "HEAD~1:pkg/zarf.yaml"]
         = Ok demoText
      /\ exists result',
          validateVersionIncrement noCatWorld "pkg" (freshResult "pkg" true) = Ok result'
          /\ Errors result'
             = ["Package content changed but version not incremented (still 1.0.0)"]).
Proof.
  split.
  - exists demoManifest, (Strings.TrimSpace demoText), demoManifest.
    repeat split; try (vm_compute; reflexivity).
    vm_compute. discriminate.
  - repeat split; try (vm_compute; reflexivity).
    eexists. split; vm_compute; reflexivity.
Qed.

(** ** The version helpers *)

(** C3 (amended).  For versions that parse, [BreakingChangeAllowed]
    checks [next] against the range anchored at [previous] (tilde for
    major 0, caret otherwise) and returns true exactly when [next] does
    not satisfy it, with an error exactly when the check gave reasons; a
    range that does not parse gives false and an error. *)
Theorem C3_breaking_change_allowed (lib : SemverLib) (previous next : string)
        (pv nv : SVersion lib) :
  NewVersion lib previous = Ok pv ->
  NewVersion lib next = Ok nv ->
  compatibleRange lib pv
  = (if (Major lib pv =? 0)%Z then "~" else "^") +:+ " " +:+ VersionString lib pv
  /\ (forall c, NewConstraint lib (compatibleRange lib pv) = Ok c ->
        (fst (BreakingChangeAllowed lib previous next) = true
         <-> fst (Validate lib c nv) = false)
        /\ (snd (BreakingChangeAllowed lib previous next) = None
            <-> snd (Validate lib c nv) = []))
  /\ (forall e, NewConstraint lib (compatibleRange lib pv) = Fail e ->
        BreakingChangeAllowed lib previous next
        = (false, Some ("failed parsing semantic version constraint: " +:+ e))).
Proof.
  intros Hp Hn. split; [reflexivity|].
  unfold BreakingChangeAllowed. rewrite Hp, Hn. split.
  - intros c ->. destruct (Validate lib c nv) as [minor reasons]. cbn [fst snd]. split.
    + destruct minor; cbn [negb]; split; congruence.
    + destruct reasons; cbn [List.length Nat.ltb Nat.leb]; split; congruence.
  - intros e ->. reflexivity.
Qed.

(** From 1.0.0 to 2.0.0: outside the caret range, so the answer is true. *)
Lemma C3_witness :
  fst (BreakingChangeAllowed PlainSemver.lib "1.0.0" "2.0.0") = true.
Proof.
  destruct (C3_breaking_change_allowed PlainSemver.lib "1.0.0" "2.0.0"
              (1, 0, 0)%N (2, 0, 0)%N eq_refl eq_refl) as (_ & Hrange & _).
  destruct (Hrange (PlainSemver.Caret, (1, 0, 0)%N) eq_refl) as [[_ Hbreaking] _].
  apply Hbreaking. reflexivity.
Defined.

(** C3, as stated, fails from 1.0.0 to 1.1.0: the new version satisfies
    the caret range anchored at 1.0.0 and the function returns false. *)
Lemma C3_counterexample :
  exists pv nv c,
    NewVersion PlainSemver.lib "1.0.0" = Ok pv
    /\ NewVersion PlainSemver.lib "1.1.0" = Ok nv
    /\ compatibleRange PlainSemver.lib pv = "^ 1.0.0"
    /\ NewConstraint PlainSemver.lib (compatibleRange PlainSemver.lib pv) = Ok c
    /\ fst (Validate PlainSemver.lib c nv) = true
    /\ BreakingChangeAllowed PlainSemver.lib "1.0.0" "1.1.0" = (false, None)
    /\ ~ (fst (BreakingChangeAllowed PlainSemver.lib "1.0.0" "1.1.0") = true
          <-> fst (Validate PlainSemver.lib c nv) = true).
Proof.
  exists (1, 0, 0)%N, (1, 1, 0)%N, (PlainSemver.Caret, (1, 0, 0)%N).
  repeat (split; [reflexivity|]).
  intros [_ H]. specialize (H eq_refl). discriminate H.
Qed.

(** ** The image scan *)



Lemma addErrors_nil result : addErrors result [] = result.
Proof. destruct result. unfold addErrors. cbn. by rewrite app_nil_r. Qed.

Lemma addErrors_app result l1 l2 :
  addErrors (addErrors result l1) l2 = addErrors result (l1 ++ l2).
Proof. unfold addErrors. cbn. by rewrite app_assoc. Qed.







(** ** The cycle search *)

Section CycleSearch.

Variable componentMap : gmap string ZarfComponent.t.
Variable start : string.

Let search (fuel : nat) : string -> gset string -> option (bool * gset string) :=
  fun dep visited => hasDependencyCycleFuel fuel start dep componentMap visited.

(** One unfolding of the search. *)
Lemma hasDependencyCycleFuel_S fuel current visited :
  hasDependencyCycleFuel (S fuel) start current componentMap visited
  = if String.eqb current start && (0 <? size visited)%nat
    then Some (true, visited)
    else if bool_decide (current ∈ visited) then Some (false, visited)
    else match componentMap !! current with
         | Some component =>
             depsLoop (search fuel) (ZarfComponent.DepsWith component)
                      ({[ current ]} ∪ visited)
         | None => Some (false, {[ current ]} ∪ visited)
         end.
Proof. reflexivity. Qed.

(** The visited set only grows. *)
Lemma depsLoop_mono (f : string -> gset string -> option (bool * gset string)) :
  (forall dep visited r, f dep visited = Some r -> visited ⊆ snd r) ->
  forall deps visited r, depsLoop f deps visited = Some r -> visited ⊆ snd r.
Proof.
  intros Hf deps. induction deps as [|dep deps IH]; intros visited r; cbn [depsLoop].
  - by intros [= <-].
  - destruct (f dep visited) as [[[] visited']|] eqn:Hdep; [| |discriminate].
    + intros [= <-]. by apply (Hf _ _ _ Hdep).
    + intros Hrest. transitivity visited'; [by apply (Hf _ _ _ Hdep) | by apply IH].
Qed.

Lemma hasDependencyCycleFuel_mono fuel :
  forall current visited r,
    hasDependencyCycleFuel fuel start current componentMap visited = Some r ->
    visited ⊆ snd r.
Proof.
  induction fuel as [|fuel IH]; intros current visited r; [discriminate|].
  rewrite hasDependencyCycleFuel_S.
  destruct (_ && _); [by intros [= <-]|].
  destruct (bool_decide _); [by intros [= <-]|].
  destruct (componentMap !! current) as [component|].
  - intros Hloop. apply (depsLoop_mono (search fuel)) in Hloop; [set_solver|].
    intros dep v r'. apply IH.
  - intros [= <-]. set_solver.
Qed.

(** Every dependency of a bound component is among [dependencyNames]. *)
Lemma elem_of_dependencyNames current component dep :
  componentMap !! current = Some component ->
  In dep (ZarfComponent.DepsWith component) ->
  dep ∈ dependencyNames componentMap.
Proof.
  intros Hlook Hdep. unfold dependencyNames. apply elem_of_union_list.
  exists (list_to_set (ZarfComponent.DepsWith component)). split.
  - apply list_elem_of_fmap. exists (current, component). split; [reflexivity|].
    by apply elem_of_map_to_list.
  - apply elem_of_list_to_set. by apply list_elem_of_In.
Qed.

(** With more fuel than names left to visit, the search returns. *)
Lemma hasDependencyCycleFuel_total fuel :
  forall current visited,
    current ∈ dependencyNames componentMap ->
    size (dependencyNames componentMap ∖ visited) < fuel ->
    is_Some (hasDependencyCycleFuel fuel start current componentMap visited).
Proof.
  induction fuel as [|fuel IH]; intros current visited Hin Hsize; [lia|].
  rewrite hasDependencyCycleFuel_S.
  destruct (_ && _); [by eexists|].
  case_bool_decide as Hvisited; [by eexists|].
  destruct (componentMap !! current) as [component|] eqn:Hlook; [|by eexists].
  assert (Hless : size (dependencyNames componentMap ∖ ({[current]} ∪ visited)) < fuel).
  { assert (Hsub : dependencyNames componentMap ∖ ({[current]} ∪ visited)
                   ⊂ dependencyNames componentMap ∖ visited).
    { split.
      - intros x. rewrite !elem_of_difference, elem_of_union. tauto.
      - intros Hsub. specialize (Hsub current).
        rewrite !elem_of_difference, elem_of_union, elem_of_singleton in Hsub. tauto. }
    apply subset_size in Hsub. lia. }
  assert (Hdeps : forall dep, In dep (ZarfComponent.DepsWith component) ->
                              dep ∈ dependencyNames componentMap)
    by (intros; by eapply elem_of_dependencyNames).
  revert Hless Hdeps. generalize ({[current]} ∪ visited). clear Hvisited Hsize.
  induction (ZarfComponent.DepsWith component) as [|dep deps IHdeps];
    intros visited' Hless Hdeps; cbn [depsLoop]; [by eexists|].
  destruct (IH dep visited') as [[b visited''] Hdep];
    [apply Hdeps; by left | exact Hless |].
  unfold search. rewrite Hdep. destruct b; [by eexists|].
  apply IHdeps; [| intros; apply Hdeps; by right].
  apply hasDependencyCycleFuel_mono in Hdep. cbn [snd] in Hdep.
  assert (Hle : size (dependencyNames componentMap ∖ visited'')
                <= size (dependencyNames componentMap ∖ visited')).
  { apply subseteq_size. intros x. rewrite !elem_of_difference.
    intros [Hx Hnot]. split; [exact Hx|]. intros Hv. apply Hnot. by apply Hdep. }
  lia.
Qed.

(** The fuel of [hasDependencyCycle] is enough for every search. *)
Lemma hasDependencyCycle_terminates current visited :
  exists b visited',
    hasDependencyCycleFuel (cycleFuel componentMap) start current componentMap visited
    = Some (b, visited')
    /\ hasDependencyCycle start current componentMap visited = b.
Proof.
  unfold hasDependencyCycle.
  enough (is_Some (hasDependencyCycleFuel (cycleFuel componentMap) start current
                                          componentMap visited)) as [[b visited'] H]
    by (rewrite H; by exists b, visited').
  unfold cycleFuel. rewrite hasDependencyCycleFuel_S.
  destruct (_ && _); [by eexists|].
  destruct (bool_decide _); [by eexists|].
  destruct (componentMap !! current) as [component|] eqn:Hlook; [|by eexists].
  assert (Hdeps : forall dep, In dep (ZarfComponent.DepsWith component) ->
                              dep ∈ dependencyNames componentMap)
    by (intros; by eapply elem_of_dependencyNames).
  revert Hdeps. generalize ({[current]} ∪ visited).
  induction (ZarfComponent.DepsWith component) as [|dep deps IHdeps];
    intros visited' Hdeps; cbn [depsLoop]; [by eexists|].
  destruct (hasDependencyCycleFuel_total (S (size (dependencyNames componentMap)))
              dep visited') as [[b visited''] Hdep].
  { apply Hdeps. by left. }
  { assert (Hle : size (dependencyNames componentMap ∖ visited')
                  <= size (dependencyNames componentMap)).
    { apply subseteq_size. intros x. rewrite elem_of_difference. tauto. }
    lia. }
  unfold search. rewrite Hdep. destruct b; [by eexists|].
  apply IHdeps. intros; apply Hdeps; by right.
Qed.

(** Once something is visited, a loop over dependencies that include
    the start finds the cycle, if it returns at all. *)
Lemma depsLoop_finds_start fuel deps :
  forall visited r,
    In start deps ->
    0 < size visited ->
    depsLoop (search (S fuel)) deps visited = Some r ->
    fst r = true.
Proof.
  induction deps as [|dep deps IH]; intros visited r Hin Hpos; [destruct Hin|].
  cbn [depsLoop].
  destruct (search (S fuel) dep visited) as [[[] visited']|] eqn:Hdep; [| |discriminate].
  - by intros [= <-].
  - destruct Hin as [->|Hin].
    + unfold search in Hdep. rewrite hasDependencyCycleFuel_S in Hdep.
      rewrite String.eqb_refl in Hdep.
      apply Nat.ltb_lt in Hpos. rewrite Hpos in Hdep. discriminate.
    + apply IH; [exact Hin|].
      apply hasDependencyCycleFuel_mono in Hdep. cbn [snd] in Hdep.
      apply subseteq_size in Hdep. lia.
Qed.

(** The search from [current] reports a cycle when the component bound
    to [current] lists the start. *)
Lemma hasDependencyCycle_direct current component :
  componentMap !! current = Some component ->
  In start (ZarfComponent.DepsWith component) ->
  hasDependencyCycle start current componentMap ∅ = true.
Proof.
  intros Hlook Hin.
  destruct (hasDependencyCycle_terminates current ∅) as (b & visited' & Hrun & <-).
  unfold hasDependencyCycle. rewrite Hrun.
  unfold cycleFuel in Hrun. rewrite hasDependencyCycleFuel_S in Hrun.
  rewrite size_empty, andb_false_r in Hrun.
  rewrite bool_decide_eq_false_2 in Hrun by set_solver.
  rewrite Hlook in Hrun.
  apply depsLoop_finds_start in Hrun; [exact Hrun | exact Hin |].
  rewrite size_union by set_solver. rewrite size_singleton. lia.
Qed.

(** A loop that reports a cycle got it from one of its searches. *)
Lemma depsLoop_true (f : string -> gset string -> option (bool * gset string)) deps :
  forall visited visited',
    depsLoop f deps visited = Some (true, visited') ->
    exists dep v v', In dep deps /\ f dep v = Some (true, v').
Proof.
  induction deps as [|dep deps IH]; intros visited visited'; cbn [depsLoop];
    [discriminate|].
  destruct (f dep visited) as [[[] v']|] eqn:Hdep; [| |discriminate].
  - intros _. exists dep, visited, v'. split; [by left | exact Hdep].
  - intros Hrest. destruct (IH _ _ Hrest) as (dep' & v & v'' & Hin & Hf).
    exists dep', v, v''. split; [by right | exact Hf].
Qed.

(** No false positive: a search that reports a cycle has followed
    edges of the map from [current] to the start. *)
Lemma hasDependencyCycleFuel_sound fuel :
  forall current visited visited',
    hasDependencyCycleFuel fuel start current componentMap visited = Some (true, visited') ->
    rtc (edge componentMap) current start.
Proof.
  induction fuel as [|fuel IH]; intros current visited visited'; [discriminate|].
  rewrite hasDependencyCycleFuel_S.
  destruct (String.eqb current start) eqn:Heq; cbn [andb].
  - apply String.eqb_eq in Heq as ->. intros _. apply rtc_refl.
  - destruct (bool_decide _); [discriminate|].
    destruct (componentMap !! current) as [component|] eqn:Hlook; [|discriminate].
    intros Hloop. apply depsLoop_true in Hloop as (dep & v & v' & Hin & Hdep).
    apply rtc_l with dep; [by exists component | by eapply IH].
Qed.

(** A cycle reported for the edge to [current] is a path of one or
    more edges from [current] back to the start. *)
Lemma hasDependencyCycle_sound current :
  hasDependencyCycle start current componentMap ∅ = true ->
  tc (edge componentMap) current start.
Proof.
  unfold hasDependencyCycle, cycleFuel.
  destruct (hasDependencyCycleFuel _ _ _ _ _) as [[[] visited']|] eqn:Hrun;
    [|discriminate..].
  intros _. rewrite hasDependencyCycleFuel_S in Hrun.
  rewrite size_empty, andb_false_r in Hrun.
  rewrite bool_decide_eq_false_2 in Hrun by set_solver.
  destruct (componentMap !! current) as [component|] eqn:Hlook; [|discriminate].
  apply depsLoop_true in Hrun as (dep & v & v' & Hin & Hdep).
  apply tc_rtc_r with dep; [apply tc_once; by exists component|].
  by eapply hasDependencyCycleFuel_sound.
Qed.

End CycleSearch.

(** ** The dependency pass *)

Lemma fold_left_addErrors {A} (f : ValidationResult -> A -> ValidationResult)
      (g : A -> list string) :
  (forall r a, f r a = addErrors r (g a)) ->
  forall l r, fold_left f l r = addErrors r (flat_map g l).
Proof.
  intros Hf l. induction l as [|a l IH]; intros r; cbn [fold_left flat_map].
  - by rewrite addErrors_nil.
  - by rewrite IH, Hf, addErrors_app.
Qed.

Lemma edgeStep_spec componentMap name result dep :
  edgeStep componentMap name result dep = addErrors result (edgeErrors componentMap name dep).
Proof.
  unfold edgeStep, edgeErrors.
  destruct (componentMap !! dep), (hasDependencyCycle name dep componentMap ∅);
    cbn [app]; rewrite ?addErrors_nil; try reflexivity.
  unfold appendError, addErrors. cbn. by rewrite <- app_assoc.
Qed.

Lemma selfStep_spec name result dep :
  selfStep name result dep = addErrors result (selfErrors name dep).
Proof.
  unfold selfStep, selfErrors. destruct (String.eqb dep name);
    by rewrite ?addErrors_nil.
Qed.

Lemma dependencyStep_spec componentMap result c :
  dependencyStep componentMap result c = addErrors result (dependencyErrors componentMap c).
Proof.
  unfold dependencyStep, dependencyErrors.
  rewrite (fold_left_addErrors _ _ (edgeStep_spec componentMap (ZarfComponent.Name c))).
  rewrite (fold_left_addErrors _ _ (selfStep_spec (ZarfComponent.Name c))).
  apply addErrors_app.
Qed.

(** With a readable manifest the pass returns the result object with the
    errors of every component appended, in order. *)
Lemma validateComponentDependencies_spec w packagePath result zarfYaml :
  ReadZarfYaml w (Join w packagePath "zarf.yaml") = Ok zarfYaml ->
  validateComponentDependencies w packagePath result
  = Ok (addErrors result
          (flat_map (dependencyErrors (buildComponentMap (ZarfYaml.Components zarfYaml)))
                    (ZarfYaml.Components zarfYaml))).
Proof.
  intros Hread. unfold validateComponentDependencies. rewrite Hread.
  destruct (ZarfYaml.Components zarfYaml) as [|c components] eqn:Hcomps.
  - cbn. by rewrite addErrors_nil.
  - cbn [isEmptyList List.length Nat.eqb]. f_equal.
    apply fold_left_addErrors. intros. apply dependencyStep_spec.
Qed.

(** Components with other names leave the binding of a name alone. *)
Lemma buildComponentMap_other components :
  forall (m : gmap string ZarfComponent.t) name,
    ~ In name (componentNamesOf components) ->
    fold_left (fun m c => <[ ZarfComponent.Name c := c ]> m) components m !! name
    = m !! name.
Proof.
  induction components as [|c components IH]; intros m name Hfresh; [reflexivity|].
  cbn [fold_left]. rewrite IH.
  - apply lookup_insert_ne. intros Heq. apply Hfresh. by left.
  - intros Hin. apply Hfresh. by right.
Qed.

(** The map binds a name that occurs once to its component. *)
Lemma buildComponentMap_unique components c :
  List.NoDup (componentNamesOf components) ->
  In c components ->
  buildComponentMap components !! ZarfComponent.Name c = Some c.
Proof.
  unfold buildComponentMap. generalize (∅ : gmap string ZarfComponent.t).
  induction components as [|c' components IH]; intros m Hnodup Hin; [destruct Hin|].
  change (componentNamesOf (c' :: components))
    with (ZarfComponent.Name c' :: componentNamesOf components) in Hnodup.
  apply List.NoDup_cons_iff in Hnodup as [Hfresh Hnodup].
  cbn [fold_left]. destruct Hin as [->|Hin]; [|by apply IH].
  rewrite buildComponentMap_other by exact Hfresh. apply lookup_insert_eq.
Qed.

(** The names bound in the component map are the declared names, and the
    component bound to a name is a declared component with that name. *)
Lemma buildComponentMap_lookup components :
  forall (m : gmap string ZarfComponent.t) name,
    let m' := fold_left (fun m c => <[ ZarfComponent.Name c := c ]> m) components m in
    (is_Some (m' !! name) <-> In name (componentNamesOf components) \/ is_Some (m !! name))
    /\ (forall c, m' !! name = Some c ->
                  (In c components /\ ZarfComponent.Name c = name) \/ m !! name = Some c).
Proof.
  induction components as [|c0 components IH]; intros m name; cbn [fold_left].
  - cbn. split; [tauto|]. intros c Hc. by right.
  - destruct (IH (<[ZarfComponent.Name c0:=c0]> m) name) as [Hdom Hval]. cbv zeta in *.
    change (componentNamesOf (c0 :: components))
      with (ZarfComponent.Name c0 :: componentNamesOf components).
    split.
    + rewrite Hdom. rewrite lookup_insert_is_Some. cbn [In].
      destruct (decide (ZarfComponent.Name c0 = name)); tauto.
    + intros c Hc. destruct (Hval c Hc) as [[Hin Hn]|Hins].
      * left. split; [by right | exact Hn].
      * apply lookup_insert_Some in Hins as [[Hn <-]|[_ Hm]]; [left | by right].
        split; [by left | exact Hn].
Qed.

Lemma buildComponentMap_declared components name :
  is_Some (buildComponentMap components !! name) <-> In name (componentNamesOf components).
Proof.
  destruct (buildComponentMap_lookup components ∅ name) as [Hdom _].
  unfold buildComponentMap. rewrite Hdom, lookup_empty. split; [|by left].
  intros [H|[x Hx]]; [exact H | discriminate Hx].
Qed.

Lemma buildComponentMap_Some components name c :
  buildComponentMap components !! name = Some c ->
  In c components /\ ZarfComponent.Name c = name.
Proof.
  intros Hc. destruct (buildComponentMap_lookup components ∅ name) as [_ Hval].
  destruct (Hval c Hc) as [H|H]; [exact H | by rewrite lookup_empty in H].
Qed.

Lemma flat_map_nil {A B} (f : A -> list B) l :
  flat_map f l = [] <-> forall x, In x l -> f x = [].
Proof.
  induction l as [|a l IH]; cbn [flat_map In]; [by split|].
  split.
  - intros H. apply app_eq_nil in H as [Ha Hl]. intros x [<-|Hx]; [exact Ha|].
    by apply IH.
  - intros H. rewrite (H a) by (by left). cbn [app]. apply IH. intros x Hx. apply H. by right.
Qed.

(** *** The diamond has no path back *)

Section Diamond.

Variables a b c d : string.
Variable components : list ZarfComponent.t.
Hypothesis distinct : List.NoDup [a; b; c; d].
Hypothesis nodes :
  forall x, In x (componentNamesOf components) <-> In x [a; b; c; d].
Hypothesis edges :
  forall comp dep,
    In comp components ->
    (In dep (ZarfComponent.DepsWith comp)
     <-> In (ZarfComponent.Name comp, dep) [(a, b); (a, c); (b, d); (c, d)]).

Let diamond := buildComponentMap components.

Lemma diamond_distinct : a <> b /\ a <> c /\ a <> d /\ b <> c /\ b <> d /\ c <> d.
Proof.
  pose proof distinct as H.
  repeat match goal with
         | H : List.NoDup (_ :: _) |- _ => apply List.NoDup_cons_iff in H as [? H]
         end.
  cbn [In] in *. repeat split; intros ->; tauto.
Qed.

(** The edges the search can follow are the four edges of the diamond,
    in whatever order the components are declared. *)
Lemma diamond_edges x y :
  edge diamond x y ->
  (x = a /\ (y = b \/ y = c)) \/ ((x = b \/ x = c) /\ y = d).
Proof.
  intros (c0 & Hlook & Hin). apply buildComponentMap_Some in Hlook as [Hc0 <-].
  apply (edges c0 y Hc0) in Hin. cbn [In] in Hin.
  destruct Hin as [[= Hx Hy]|[[= Hx Hy]|[[= Hx Hy]|[[= Hx Hy]|[]]]]]; auto.
Qed.

(** Following edges never leads to [a], and from [d] nowhere. *)
Lemma diamond_paths x y :
  tc (edge diamond) x y -> y <> a /\ x <> d /\ (x <> a -> y = d).
Proof.
  destruct diamond_distinct as (Hab & Hac & Had & Hbc & Hbd & Hcd).
  induction 1 as [x y Hedge | x y z Hedge _ IH]; apply diamond_edges in Hedge.
  - destruct Hedge as [[-> [-> | ->]] | [[-> | ->] ->]]; repeat split; congruence.
  - destruct IH as (Hz & Hy & Hyz).
    destruct Hedge as [[-> [-> | ->]] | [[-> | ->] ->]]; repeat split; try congruence.
Qed.

Lemma diamond_no_cycle_reported name dep :
  In (name, dep) [(a, b); (a, c); (b, d); (c, d)] ->
  hasDependencyCycle name dep diamond ∅ = false.
Proof.
  destruct diamond_distinct as (Hab & Hac & Had & Hbc & Hbd & Hcd).
  intros Hin. apply not_true_is_false. intros Hfound.
  apply hasDependencyCycle_sound, diamond_paths in Hfound as (Hname & Hdep & Hend).
  cbn [In] in Hin.
  destruct Hin as [[= <- <-] | [[= <- <-] | [[= <- <-] | [[= <- <-] | []]]]];
    congruence.
Qed.

(** The dependency pass finds nothing to report in the diamond. *)
Lemma diamond_no_errors :
  flat_map (dependencyErrors diamond) components = [].
Proof.
  destruct diamond_distinct as (Hab & Hac & Had & Hbc & Hbd & Hcd).
  apply flat_map_nil. intros comp Hcomp. unfold dependencyErrors.
  assert (Hdeps : forall dep,
             In dep (ZarfComponent.DepsWith comp) ->
             edgeErrors diamond (ZarfComponent.Name comp) dep = []
             /\ selfErrors (ZarfComponent.Name comp) dep = []).
  { intros dep Hdep. pose proof (proj1 (edges comp dep Hcomp) Hdep) as Hedge. split.
    - unfold edgeErrors. rewrite (diamond_no_cycle_reported _ _ Hedge).
      assert (Hdecl : is_Some (diamond !! dep)).
      { apply buildComponentMap_declared, nodes. cbn [In] in Hedge |- *.
        destruct Hedge as [[= _ <-]|[[= _ <-]|[[= _ <-]|[[= _ <-]|[]]]]]; tauto. }
      destruct Hdecl as [c0 ->]. reflexivity.
    - unfold selfErrors.
      destruct (String.eqb_spec dep (ZarfComponent.Name comp)) as [Heq|]; [|reflexivity].
      exfalso. cbn [In] in Hedge.
      destruct Hedge as [[= Hn Hd]|[[= Hn Hd]|[[= Hn Hd]|[[= Hn Hd]|[]]]]]; congruence. }
  assert (H1 : flat_map (edgeErrors diamond (ZarfComponent.Name comp))
                        (ZarfComponent.DepsWith comp) = [])
    by (apply flat_map_nil; intros dep Hdep; by apply Hdeps).
  assert (H2 : flat_map (selfErrors (ZarfComponent.Name comp))
                        (ZarfComponent.DepsWith comp) = [])
    by (apply flat_map_nil; intros dep Hdep; by apply Hdeps).
  by rewrite H1, H2.
Qed.

End Diamond.

(** C6 (amended).  With a readable manifest, the dependency pass appends
    a circular-dependency error for the edge from [A] to [B] whenever a
    component named [A] lists [B] and the component bound to [B] in the
    lookup map (the last one declared with that name) lists [A].  When
    the component names are pairwise distinct, these are the graphs that
    contain the cycle [A -> B -> A] between two declared components, and
    both edges of the cycle get their error.  The pass appends nothing at
    all when the graph is the diamond [a -> b], [a -> c], [b -> d],
    [c -> d] on four distinct names, in whatever order the components
    and their dependencies are declared. *)
Theorem C6_two_node_cycle_and_diamond (w : World) (packagePath : string)
        (result : ValidationResult) (zarfYaml : ZarfYaml.t) :
  ReadZarfYaml w (Join w packagePath "zarf.yaml") = Ok zarfYaml ->
  let components := ZarfYaml.Components zarfYaml in
  exists result' added,
    validateComponentDependencies w packagePath result = Ok result'
    /\ Errors result' = Errors result ++ added
    /\ (forall ca cb A B,
          In ca components -> ZarfComponent.Name ca = A ->
          In B (ZarfComponent.DepsWith ca) ->
          buildComponentMap components !! B = Some cb ->
          In A (ZarfComponent.DepsWith cb) ->
          In (cycleError A B) added)
    /\ (forall ca cb A B,
          List.NoDup (componentNamesOf components) ->
          In ca components -> ZarfComponent.Name ca = A ->
          In cb components -> ZarfComponent.Name cb = B ->
          In B (ZarfComponent.DepsWith ca) ->
          In A (ZarfComponent.DepsWith cb) ->
          In (cycleError A B) added /\ In (cycleError B A) added)
    /\ (forall a b c d,
          List.NoDup [a; b; c; d] ->
          (forall x, In x (componentNamesOf components) <-> In x [a; b; c; d]) ->
          (forall comp dep,
              In comp components ->
              (In dep (ZarfComponent.DepsWith comp)
               <-> In (ZarfComponent.Name comp, dep) [(a, b); (a, c); (b, d); (c, d)])) ->
          added = []).
Proof.
  intros Hread components.
  rewrite (validateComponentDependencies_spec _ _ _ _ Hread). fold components.
  eexists _, _. split; [reflexivity|]. split; [reflexivity|].
  assert (Hbound : forall ca cb A B,
             In ca components -> ZarfComponent.Name ca = A ->
             In B (ZarfComponent.DepsWith ca) ->
             buildComponentMap components !! B = Some cb ->
             In A (ZarfComponent.DepsWith cb) ->
             In (cycleError A B)
                (flat_map (dependencyErrors (buildComponentMap components)) components)).
  { intros ca cb A B Hca HA HB Hcb HAB.
    apply in_flat_map. exists ca. split; [exact Hca|].
    unfold dependencyErrors. apply in_or_app. left.
    apply in_flat_map. exists B. split; [exact HB|].
    unfold edgeErrors. apply in_or_app. right. rewrite HA.
    rewrite (hasDependencyCycle_direct _ A B cb Hcb HAB). by left. }
  split; [exact Hbound|]. split.
  - intros ca cb A B Hnodup Hca HA Hcb HB HAB HBA. split.
    + apply (Hbound ca cb); try assumption.
      rewrite <- HB. by apply buildComponentMap_unique.
    + apply (Hbound cb ca); try assumption.
      rewrite <- HA. by apply buildComponentMap_unique.
  - intros a b c d Hdistinct Hnodes Hedges.
    by apply (diamond_no_errors a b c d).
Qed.

(** The demo diamond has the four nodes and the four edges. *)
Lemma diamondManifest_shape :
  (forall x, In x (componentNamesOf (ZarfYaml.Components diamondManifest))
             <-> In x ["a"; "b"; "c"; "d"])
  /\ (forall comp dep,
         In comp (ZarfYaml.Components diamondManifest) ->
         (In dep (ZarfComponent.DepsWith comp)
          <-> In (ZarfComponent.Name comp, dep)
                 [("a", "b"); ("a", "c"); ("b", "d"); ("c", "d")])).
Proof.
  split; [intros x; reflexivity|].
  intros comp dep Hin.
  change (ZarfYaml.Components diamondManifest)
    with [ component "a" ["b"; "c"] demoImages; component "b" ["d"] demoImages;
           component "c" ["d"] demoImages; component "d" [] demoImages ] in Hin.
  cbn [In] in Hin.
  destruct Hin as [<-|[<-|[<-|[<-|[]]]]];
    change (ZarfComponent.Name (component ?n ?ds ?imgs)) with n;
    change (ZarfComponent.DepsWith (component ?n ?ds ?imgs)) with ds;
    cbn [In]; split; intros H;
    repeat (destruct H as [H|H]; [first [discriminate H | injection H as <-; tauto
                                         | subst dep; tauto]|]);
    destruct H.
Qed.

(** The cycle between [a] and [b] is reported for both of its edges, and
    the diamond on [a], [b], [c], [d] gets no error. *)
Lemma C6_witness :
  (exists result',
      validateComponentDependencies cycleWorld "pkg" (freshResult "pkg" true) = Ok result'
      /\ In (cycleError "a" "b") (Errors result')
      /\ In (cycleError "b" "a") (Errors result'))
  /\ (exists result',
         validateComponentDependencies diamondWorld "pkg" (freshResult "pkg" true) = Ok result'
         /\ Errors result' = []).
Proof.
  split.
  - destruct (C6_two_node_cycle_and_diamond cycleWorld "pkg" (freshResult "pkg" true)
                cycleManifest eq_refl) as (result' & added & Hrun & Herr & Hbound & Hcycle & _).
    exists result'. split; [exact Hrun|]. rewrite Herr.
    assert (Hnodup : List.NoDup (componentNamesOf (ZarfYaml.Components cycleManifest))).
    { repeat constructor; cbn [In]; intros H;
        repeat (destruct H as [H|H]; [discriminate H|]); exact H. }
    destruct (Hcycle (component "a" ["b"] demoImages) (component "b" ["a"] demoImages)
                "a" "b" Hnodup) as [Hab Hba];
      [by left | reflexivity | by right; left | reflexivity | by left | by left |].
    split; apply in_or_app; right; [|exact Hba].
    apply (Hbound (component "a" ["b"] demoImages) (component "b" ["a"] demoImages)).
    + by left.
    + reflexivity.
    + by left.
    + vm_compute. reflexivity.
    + by left.
  - destruct (C6_two_node_cycle_and_diamond diamondWorld "pkg" (freshResult "pkg" true)
                diamondManifest eq_refl) as (result' & added & Hrun & Herr & _ & _ & Hdiamond).
    exists result'. split; [exact Hrun|]. rewrite Herr.
    rewrite (Hdiamond "a" "b" "c" "d"); [reflexivity | | |].
    + repeat constructor; cbn [In]; intros H;
        repeat (destruct H as [H|H]; [discriminate H|]); exact H.
    + exact (proj1 diamondManifest_shape).
    + exact (proj2 diamondManifest_shape).
Defined.

(** C6, as stated, fails when later components take the two names: [a]
    lists [b] and [b] lists [a], both are declared, and the pass records
    nothing, because the lookup map binds each name to the last component
    declared with it and those list nothing. *)
Lemma C6_counterexample :
  In (component "a" ["b"] demoImages) (ZarfYaml.Components shadowedCycleManifest)
  /\ In (component "b" ["a"] demoImages) (ZarfYaml.Components shadowedCycleManifest)
  /\ exists result',
      validateComponentDependencies shadowedCycleWorld "pkg" (freshResult "pkg" true)
      = Ok result'
      /\ Errors result' = []
      /\ ~ In (cycleError "a" "b") (Errors result')
      /\ ~ In (cycleError "b" "a") (Errors result').
Proof.
  split; [by left|]. split; [by right; left|].
  eexists. split; [vm_compute; reflexivity|]. cbn [Errors].
  split; [reflexivity|]. split; intros [].
Qed.

(** C10 (amended).  For a component that lists its own name, the pass
    appends the self-dependency error; it also appends the
    circular-dependency error for that edge when the component bound to
    the name (the last one declared with it) lists the name, which is the
    case when names are unique; the two messages differ. *)
Theorem C10_self_loop_reported_twice (w : World) (packagePath : string)
        (result : ValidationResult) (zarfYaml : ZarfYaml.t) (c : ZarfComponent.t) :
  ReadZarfYaml w (Join w packagePath "zarf.yaml") = Ok zarfYaml ->
  In c (ZarfYaml.Components zarfYaml) ->
  In (ZarfComponent.Name c) (ZarfComponent.DepsWith c) ->
  let components := ZarfYaml.Components zarfYaml in
  let name := ZarfComponent.Name c in
  exists result' added,
    validateComponentDependencies w packagePath result = Ok result'
    /\ Errors result' = Errors result ++ added
    /\ In (selfError name) added
    /\ (forall c', buildComponentMap components !! name = Some c' ->
                   In name (ZarfComponent.DepsWith c') ->
                   In (cycleError name name) added)
    /\ (List.NoDup (componentNamesOf components) -> In (cycleError name name) added)
    /\ cycleError name name <> selfError name.
Proof.
  intros Hread Hc Hself components name.
  rewrite (validateComponentDependencies_spec _ _ _ _ Hread). fold components.
  eexists _, _. split; [reflexivity|]. split; [reflexivity|].
  assert (Hbound : forall c', buildComponentMap components !! name = Some c' ->
                              In name (ZarfComponent.DepsWith c') ->
                              In (cycleError name name)
                                 (flat_map (dependencyErrors (buildComponentMap components))
                                           components)).
  { intros c' Hlook Hin. apply in_flat_map. exists c. split; [exact Hc|].
    unfold dependencyErrors. apply in_or_app. left.
    apply in_flat_map. exists name. split; [exact Hself|].
    unfold edgeErrors. apply in_or_app. right. fold name.
    rewrite (hasDependencyCycle_direct _ name name c' Hlook Hin). by left. }
  split; [|split; [exact Hbound|split]].
  - apply in_flat_map. exists c. split; [exact Hc|].
    unfold dependencyErrors. apply in_or_app. right.
    apply in_flat_map. exists name. split; [exact Hself|].
    unfold selfErrors. fold name. rewrite String.eqb_refl. by left.
  - intros Hnodup. apply (Hbound c); [|exact Hself].
    by apply buildComponentMap_unique.
  - unfold cycleError, selfError. cbn [String.append]. discriminate.
Qed.

(** The component [web] that depends on [web] gets both errors. *)
Lemma C10_witness :
  exists result',
    validateComponentDependencies selfDependencyWorld "pkg" (freshResult "pkg" true)
    = Ok result'
    /\ In (selfError "web") (Errors result')
    /\ In (cycleError "web" "web") (Errors result').
Proof.
  destruct (C10_self_loop_reported_twice selfDependencyWorld "pkg" (freshResult "pkg" true)
              (manifest "demo" "1.0.0" [component "web" ["web"] demoImages])
              (component "web" ["web"] demoImages) eq_refl)
    as (result' & added & Hrun & Herr & Hself & _ & Hcycle & _).
  - by left.
  - by left.
  - exists result'. split; [exact Hrun|]. rewrite Herr.
    split; apply in_or_app; right; [exact Hself|].
    apply Hcycle. repeat constructor. intros [].
Defined.

(** C10, as stated, fails when a later component takes the name: the
    first [web] lists [web] and gets the self-dependency error only. *)
Lemma C10_counterexample :
  In (component "web" ["web"] demoImages) (ZarfYaml.Components shadowedSelfManifest)
  /\ exists result',
      validateComponentDependencies shadowedSelfWorld "pkg" (freshResult "pkg" true)
      = Ok result'
      /\ Errors result' = ["Component 'web' cannot depend on itself"]
      /\ ~ In (cycleError "web" "web") (Errors result').
Proof.
  split; [by left|].
  eexists. split; [vm_compute; reflexivity|]. cbn [Errors]. split; [reflexivity|].
  intros [H|[]]. discriminate H.
Qed.

(* ===================================================================== *)
(** * Further properties of the validator                                 *)
(* ===================================================================== *)

(** ** The fallback validation *)

(** X1.  On a manifest that parses, the fallback verdict is valid exactly when
    the kind is the sentinel and the name is present and at most 63 bytes
    long; version and description only produce warnings.  The errors are
    the kind error, if any, followed by the name error, if any. *)
Theorem validateBasic_verdict (w : World) (packagePath : string) (zarfYaml : ZarfYaml.t) :
  ReadZarfYaml w (Join w packagePath "zarf.yaml") = Ok zarfYaml ->
  let kind := ZarfYaml.Kind zarfYaml in
  let name := Metadata.Name (ZarfYaml.Metadata zarfYaml) in
  exists result,
    validateBasic w packagePath = Ok result
    /\ PackagePath result = packagePath
    /\ (Valid result = true
        <-> kind = "ZarfPackageConfig" /\ name <> EmptyString /\ String.length name <= 63)
    /\ Errors result
       = (if String.eqb kind EmptyString then ["Missing 'kind' field in zarf.yaml"]
          else if String.eqb kind "ZarfPackageConfig" then []
          else ["Invalid kind '" +:+ kind +:+ "', expected 'ZarfPackageConfig'"])
         ++ (if String.eqb name EmptyString then ["Missing package name in metadata"]
             else if (63 <? String.length name)%nat
                  then ["Package name must be 63 characters or less"]
                  else []).
Proof.
  intros Hread kind name. unfold validateBasic. rewrite Hread. fold kind name.
  eexists. split; [reflexivity|].
  unfold nonEmpty.
  destruct (String.eqb_spec kind EmptyString) as [Hk|Hk];
    destruct (String.eqb_spec kind "ZarfPackageConfig") as [Hs|Hs];
    destruct (String.eqb_spec name EmptyString) as [Hn|Hn];
    destruct (Nat.ltb_spec 63 (String.length name)) as [Hl|Hl];
    destruct (String.eqb (Metadata.Version (ZarfYaml.Metadata zarfYaml)) EmptyString);
    destruct (String.eqb (Metadata.Description (ZarfYaml.Metadata zarfYaml)) EmptyString);
    cbn [negb]; rsimpl;
    (split; [reflexivity|]); (split; [|reflexivity]);
    try (rewrite Hs in Hk; discriminate Hk);
    (split; [try discriminate; intros _; repeat split; (assumption || lia)
            | intros (? & ? & ?); try reflexivity; (congruence || lia)]).
Qed.

(** The demo manifest with the kind of another tool. *)
Lemma validateBasic_verdict_witness :
  exists result,
    validateBasic (packageWorld demoText
                     (ZarfYaml.Build "HelmChart"
                        (Metadata.Build "demo" "a demo package" "1.0.0" EmptyString false)
                        [] [] [])
                     false (EmptyString, None)) "pkg" = Ok result
    /\ Valid result = false
    /\ Errors result = ["Invalid kind 'HelmChart', expected 'ZarfPackageConfig'"].
Proof.
  destruct (validateBasic_verdict
              (packageWorld demoText
                 (ZarfYaml.Build "HelmChart"
                    (Metadata.Build "demo" "a demo package" "1.0.0" EmptyString false)
                    [] [] [])
                 false (EmptyString, None)) "pkg" _ eq_refl)
    as (result & Hrun & _ & Hvalid & Herr).
  exists result. split; [exact Hrun|]. split; [|exact Herr].
  destruct (Valid result); [|reflexivity].
  destruct Hvalid as [Hvalid _]. destruct (Hvalid eq_refl) as [Hkind _]. discriminate Hkind.
Defined.

(** ** Which validation produced a result *)

Lemma validateBasic_PackagePath w packagePath result :
  validateBasic w packagePath = Ok result -> PackagePath result = packagePath.
Proof.
  unfold validateBasic. destruct (ReadZarfYaml _ _); intros [= <-]; [|reflexivity].
  split_ifs; reflexivity.
Qed.

Lemma validateWithSDK_PackagePath w packagePath result :
  validateWithSDK w packagePath = Ok result -> PackagePath result = packagePath.
Proof.
  intros Hsdk. apply validateWithSDK_Ok in Hsdk as (output & err & _ & Hpasses).
  apply additionalPasses_Ok in Hpasses
    as (r1 & r2 & r3 & r4 & r5 & P1 & P2 & P3 & P4 & P5 & P6).
  pose proof (parseLintOutput_extends output err (freshResult packagePath true)) as (X0 & _).
  pose proof (validateVersionIncrement_spec _ _ _ _ P1) as ((X1 & _) & _).
  pose proof (validateImagePinning_warnsOnly _ _ _ _ P2) as [[(X2 & _) _] _].
  pose proof (validateComponents_errsOnly _ _ _ _ P3) as [(X3 & _) _].
  pose proof (validateComponentDependencies_errsOnly _ _ _ _ P4) as [(X4 & _) _].
  pose proof (validateSecurityBestPractices_warnsOnly _ _ _ _ P5) as [[(X5 & _) _] _].
  pose proof (validateResourceConstraints_warnsOnly _ _ _ _ P6) as [[(X6 & _) _] _].
  cbn [PackagePath freshResult] in X0. congruence.
Qed.

(** X2.  The warning [Validated using Zarf CLI] is in a result exactly when the
    lint path produced it: the package has a manifest, the validator had
    not fallen back, and the lint path ran to its end.  The lint path
    leaves the validator as it was. *)
Theorem lint_marker_tells_the_path (w : World) (v v' : PackageValidator)
        (packagePath : string) (result : ValidationResult) :
  ValidatePackage w v packagePath = (Ok result, v') ->
  (In "Validated using Zarf CLI" (Warnings result)
   <-> IsZarfPackage w packagePath = true /\ UseSDK v = true
       /\ isOk (validateWithSDK w packagePath) = true)
  /\ (In "Validated using Zarf CLI" (Warnings result) -> v' = v).
Proof.
  unfold ValidatePackage.
  assert (Hbasic : forall r, validateBasic w packagePath = Ok r ->
                             ~ In "Validated using Zarf CLI" (Warnings r)).
  { intros r Hr Hin. destruct (validateBasic_Warnings _ _ _ _ Hr Hin) as [H|H];
      discriminate H. }
  destruct (IsZarfPackage w packagePath); cbn [negb].
  2:{ intros [= <- <-]. rsimpl. split; [|intros []].
      split; [intros [] | intros (H & _); discriminate H]. }
  destruct (UseSDK v) eqn:Huse.
  2:{ intros [= Hb <-]. split; [|intros Hin; by apply Hbasic in Hin].
      split; [intros Hin; by apply Hbasic in Hin | intros (_ & H & _); discriminate H]. }
  destruct (validateWithSDK w packagePath) as [sdkResult|e]; cbn [isOk].
  - intros [= <- <-]. rsimpl. split; [|reflexivity].
    split; [by intros _ | intros _; apply in_or_app; right; by left].
  - intros [= Hb <-]. split; [|intros Hin; by apply Hbasic in Hin].
    split; [intros Hin; by apply Hbasic in Hin | intros (_ & _ & H); discriminate H].
Qed.

Lemma lint_marker_tells_the_path_witness :
  exists result,
    ValidatePackage selfDependencyWorld NewPackageValidator "pkg"
    = (Ok result, NewPackageValidator)
    /\ In "Validated using Zarf CLI" (Warnings result).
Proof.
  destruct (ValidatePackage selfDependencyWorld NewPackageValidator "pkg")
    as [[result|e] v'] eqn:Hrun; [|vm_compute in Hrun; discriminate Hrun].
  destruct (lint_marker_tells_the_path _ _ _ _ _ Hrun) as [[_ Hmark] Hsame].
  assert (Hin : In "Validated using Zarf CLI" (Warnings result)).
  { apply Hmark. repeat split; vm_compute; reflexivity. }
  exists result. split; [|exact Hin]. by rewrite (Hsame Hin).
Defined.

(** ** Batches *)

Lemma ValidatePackage_PackagePath w v packagePath result v' :
  ValidatePackage w v packagePath = (Ok result, v') ->
  PackagePath result = packagePath /\ (UseSDK v = false -> UseSDK v' = false).
Proof.
  unfold ValidatePackage. destruct (IsZarfPackage w packagePath); cbn [negb].
  2:{ intros [= <- <-]. by split. }
  destruct (UseSDK v) eqn:Huse.
  2:{ intros [= Hb <-]. split; [by eapply validateBasic_PackagePath | by intros _]. }
  destruct (validateWithSDK w packagePath) as [sdkResult|e] eqn:Hsdk.
  - intros [= <- <-]. split; [|discriminate]. rsimpl.
    by eapply validateWithSDK_PackagePath.
  - intros [= Hb <-]. split; [by eapply validateBasic_PackagePath | by intros _].
Qed.

Lemma validatePackagesFrom_spec w packagePaths :
  forall v results,
  exists added v',
    validatePackagesFrom w v packagePaths results = (Ok (results ++ added), v')
    /\ map PackagePath added = packagePaths
    /\ (UseSDK v = false -> UseSDK v' = false).
Proof.
  induction packagePaths as [|path rest IH]; intros v results; cbn [validatePackagesFrom].
  - exists [], v. by rewrite app_nil_r.
  - destruct (ValidatePackage_no_fatal_error w v path) as (result & v1 & Hrun).
    rewrite Hrun. apply ValidatePackage_PackagePath in Hrun as [Hpath Hflag].
    destruct (IH v1 (results ++ [result])) as (added & v' & Hrest & Hpaths & Hflag').
    exists (result :: added), v'. split; [by rewrite Hrest, <- app_assoc|].
    split; [cbn [map]; by rewrite Hpath, Hpaths | auto].
Qed.

(** X3.  A batch never fails: it returns one result per requested path, in
    the order of the paths, each carrying its path; and a validator that
    has fallen back stays so. *)
Theorem ValidatePackages_one_result_per_path (w : World) (v : PackageValidator)
        (packagePaths : list string) :
  exists results v',
    ValidatePackages w v packagePaths = (Ok results, v')
    /\ map PackagePath results = packagePaths
    /\ List.length results = List.length packagePaths
    /\ (UseSDK v = false -> UseSDK v' = false).
Proof.
  destruct (validatePackagesFrom_spec w packagePaths v []) as (added & v' & Hrun & Hpaths & Hflag).
  exists added, v'. split; [exact Hrun|]. split; [exact Hpaths|]. split; [|exact Hflag].
  by rewrite <- Hpaths, length_map.
Qed.

(** With a validator that has fallen back, every package of a batch gets
    the fallback validation, or the missing-manifest result. *)
Lemma validatePackagesFrom_fallen_back w packagePaths :
  forall v results,
    UseSDK v = false ->
    exists added,
      validatePackagesFrom w v packagePaths results = (Ok (results ++ added), v)
      /\ Forall2 (fun path result =>
                    if IsZarfPackage w path then validateBasic w path = Ok result
                    else result = appendError (freshResult path false)
                                    "Directory does not contain a zarf.yaml file")
                 packagePaths added.
Proof.
  induction packagePaths as [|path rest IH]; intros v results Huse;
    cbn [validatePackagesFrom].
  - exists []. by rewrite app_nil_r.
  - unfold ValidatePackage. rewrite Huse.
    destruct (IsZarfPackage w path) eqn:Hpkg; cbn [negb].
    + destruct (validateBasic_spec w path) as (result & Hb & _). rewrite Hb.
      destruct (IH v (results ++ [result]) Huse) as (added & Hrest & Hall).
      exists (result :: added). split; [by rewrite Hrest, <- app_assoc|].
      constructor; [by rewrite Hpkg | exact Hall].
    + destruct (IH v (results ++ [appendError (freshResult path false)
                                    "Directory does not contain a zarf.yaml file"]) Huse)
        as (added & Hrest & Hall).
      eexists (_ :: added). split; [by rewrite Hrest, <- app_assoc|].
      constructor; [by rewrite Hpkg | exact Hall].
Qed.

(** X4.  The fallback is sticky: when the lint path fails on the first package
    of a batch, that package and every later one with a manifest get
    exactly the fallback validation, whatever the lint tool would have
    said about them, and the validator ends fallen back. *)
Theorem fallback_is_sticky (w : World) (path e : string) (rest : list string) :
  IsZarfPackage w path = true ->
  validateWithSDK w path = Fail e ->
  exists results,
    ValidatePackages w NewPackageValidator (path :: rest)
    = (Ok results, {| UseSDK := false |})
    /\ Forall2 (fun path result =>
                  if IsZarfPackage w path then validateBasic w path = Ok result
                  else result = appendError (freshResult path false)
                                  "Directory does not contain a zarf.yaml file")
               (path :: rest) results.
Proof.
  intros Hpkg Hsdk. unfold ValidatePackages. cbn [validatePackagesFrom].
  unfold ValidatePackage. rewrite Hpkg, Hsdk. cbn [negb UseSDK NewPackageValidator].
  destruct (validateBasic_spec w path) as (result & Hb & _). rewrite Hb.
  destruct (validatePackagesFrom_fallen_back w rest {| UseSDK := false |} ([] ++ [result])
              eq_refl) as (added & Hrest & Hall).
  exists (result :: added). split; [exact Hrest|].
  constructor; [by rewrite Hpkg | exact Hall].
Qed.

(** Without the [zarf] binary, a batch of the same package twice: both
    results are the fallback one. *)
Lemma fallback_is_sticky_witness :
  exists result,
    validateBasic noCliWorld "pkg" = Ok result
    /\ ValidatePackages noCliWorld NewPackageValidator ["pkg"; "pkg"]
       = (Ok [result; result], {| UseSDK := false |}).
Proof.
  destruct (fallback_is_sticky noCliWorld "pkg"
              "zarf CLI not found - please install Zarf CLI for full validation: executable file not found in $PATH"
              ["pkg"] eq_refl eq_refl) as (results & Hrun & Hall).
  inversion Hall as [|p1 r1 ps1 rs1 H1 Hall1]; subst.
  inversion Hall1 as [|p2 r2 ps2 rs2 H2 Hall2]; subst.
  inversion Hall2; subst.
  change (IsZarfPackage noCliWorld "pkg") with true in H1, H2. cbv iota in H1, H2.
  exists r1. split; [exact H1|].
  assert (r2 = r1) as -> by congruence. exact Hrun.
Defined.

(** ** The heuristic passes *)

(** X5.  With a readable manifest, the security and the resource heuristics
    always complete (an unreadable raw manifest or values file is no
    error), and they only append warnings: errors and verdict are left as
    they were. *)
Theorem heuristics_only_warn (w : World) (packagePath : string) (result : ValidationResult)
        (zarfYaml : ZarfYaml.t) :
  ReadZarfYaml w (Join w packagePath "zarf.yaml") = Ok zarfYaml ->
  (exists result',
      validateSecurityBestPractices w packagePath result = Ok result'
      /\ Errors result' = Errors result /\ Valid result' = Valid result
      /\ Warnings result `prefix_of` Warnings result')
  /\ (exists result',
         validateResourceConstraints w packagePath result = Ok result'
         /\ Errors result' = Errors result /\ Valid result' = Valid result
         /\ Warnings result `prefix_of` Warnings result').
Proof.
  intros Hread. split.
  - destruct (validateSecurityBestPractices w packagePath result) as [result'|e] eqn:Hrun.
    + apply validateSecurityBestPractices_warnsOnly in Hrun as [[(_ & _ & Hw) Hv] He].
      by exists result'.
    + unfold validateSecurityBestPractices in Hrun. by rewrite Hread in Hrun.
  - destruct (validateResourceConstraints w packagePath result) as [result'|e] eqn:Hrun.
    + apply validateResourceConstraints_warnsOnly in Hrun as [[(_ & _ & Hw) Hv] He].
      by exists result'.
    + unfold validateResourceConstraints in Hrun. by rewrite Hread in Hrun.
Qed.

(** The demo manifest: its three images get registry warnings only. *)
Lemma heuristics_only_warn_witness :
  exists result',
    validateSecurityBestPractices noCliWorld "pkg" (freshResult "pkg" true) = Ok result'
    /\ Errors result' = [] /\ Valid result' = true
    /\ List.length (Warnings result') = 3.
Proof.
  destruct (heuristics_only_warn noCliWorld "pkg" (freshResult "pkg" true) demoManifest
              eq_refl) as [(result' & Hrun & Herr & Hvalid & _) _].
  exists result'. split; [exact Hrun|]. split; [exact Herr|]. split; [exact Hvalid|].
  vm_compute in Hrun. by injection Hrun as <-.
Defined.

(** ** The version pass, completely *)

(** X6.  The version pass appends an error exactly when the current manifest
    is readable, the previous revision is retrieved and parses, the two
    versions are equal and what [cat] printed for the manifest (the empty
    string when [cat] fails) differs from what [git show] printed; then
    the verdict becomes invalid.  In every other case in which the pass
    returns, errors and verdict are left as they were. *)
Theorem version_error_exactly_when_stale (w : World) (packagePath : string)
        (result result' : ValidationResult) :
  validateVersionIncrement w packagePath result = Ok result' ->
  let path := Join w packagePath "zarf.yaml" in
  let stale :=
    exists current previousContent previous,
      ReadZarfYaml w path = Ok current
      /\ RunProcessAndCaptureOutput w "git" ["show"; "HEAD~1:" +:+ path] = Ok previousContent
      /\ UnmarshalZarfYaml w previousContent = Ok previous
      /\ Metadata.Version (ZarfYaml.Metadata current)
         = Metadata.Version (ZarfYaml.Metadata previous)
      /\ match RunProcessAndCaptureOutput w "cat" [path] with
         | Ok out => out
         | Fail _ => EmptyString
         end <> previousContent in
  (Errors result' <> Errors result <-> stale)
  /\ (stale -> Valid result' = false /\ Warnings result' = Warnings result)
  /\ (~ stale -> Errors result' = Errors result /\ Valid result' = Valid result).
Proof.
  intros Hrun path stale.
  assert (Hcases : (stale /\ List.length (Errors result') = S (List.length (Errors result))
                    /\ Valid result' = false /\ Warnings result' = Warnings result)
                   \/ (~ stale /\ Errors result' = Errors result
                       /\ Valid result' = Valid result)).
  { unfold validateVersionIncrement in Hrun. fold path in Hrun.
    destruct (ReadZarfYaml w path) as [current|] eqn:Hread; [|discriminate].
    destruct (RunProcessAndCaptureOutput w "git" _) as [previousContent|] eqn:Hgit.
    2:{ injection Hrun as <-. right. split; [|by split].
        intros (c & pc & p & _ & Hg & _). fold path in Hgit. congruence. }
    destruct (UnmarshalZarfYaml w previousContent) as [previous|] eqn:Hprev.
    2:{ injection Hrun as <-. right. split; [|by split].
        intros (c & pc & p & _ & Hg & Hp & _). fold path in Hgit. congruence. }
    destruct (String.eqb_spec (Metadata.Version (ZarfYaml.Metadata current))
                              (Metadata.Version (ZarfYaml.Metadata previous))) as [Hv|Hv].
    2:{ injection Hrun as <-. right. split; [|by split].
        intros (c & pc & p & Hc & Hg & Hp & Hver & _). fold path in Hgit. congruence. }
    destruct (String.eqb_spec match RunProcessAndCaptureOutput w "cat" [path] with
                              | Ok out => out
                              | Fail _ => EmptyString
                              end previousContent) as [Ht|Ht]; cbn [negb] in Hrun.
    { injection Hrun as <-. right. split; [|by split].
      intros (c & pc & p & Hc & Hg & Hp & _ & Hdiff). fold path in Hgit. congruence. }
    injection Hrun as <-. left. split.
    - exists current, previousContent, previous. by repeat split.
    - rsimpl. rewrite length_app. cbn [List.length]. split; [lia | by split]. }
  destruct Hcases as [(Hs & Hlen & Hv & Hw) | (Hns & He & Hv)].
  - split; [|split; [by intros _ | by intros ?]].
    split; [by intros _|]. intros _ Heq. rewrite Heq in Hlen. lia.
  - split; [|split; [by intros ? | by intros _]].
    split; [by intros ? | by intros ?].
Qed.

(** The stale demo package: an error, and an invalid verdict. *)
Lemma version_error_exactly_when_stale_witness :
  exists result',
    validateVersionIncrement staleVersionWorld "pkg" (freshResult "pkg" true) = Ok result'
    /\ Errors result' <> [] /\ Valid result' = false.
Proof.
  destruct (validateVersionIncrement staleVersionWorld "pkg" (freshResult "pkg" true))
    as [result'|e] eqn:Hrun; [|vm_compute in Hrun; discriminate Hrun].
  destruct (version_error_exactly_when_stale _ _ _ _ Hrun) as (Hiff & Hstale & _).
  assert (Hs : exists current previousContent previous,
             ReadZarfYaml staleVersionWorld (Join staleVersionWorld "pkg" "zarf.yaml")
             = Ok current
             /\ RunProcessAndCaptureOutput staleVersionWorld "git"
                  ["show"; "HEAD~1:" +:+ Join staleVersionWorld "pkg" "zarf.yaml"]
                = Ok previousContent
             /\ UnmarshalZarfYaml staleVersionWorld previousContent = Ok previous
             /\ Metadata.Version (ZarfYaml.Metadata current)
                = Metadata.Version (ZarfYaml.Metadata previous)
             /\ match RunProcessAndCaptureOutput staleVersionWorld "cat"
                        [Join staleVersionWorld "pkg" "zarf.yaml"] with
                | Ok out => out
                | Fail _ => EmptyString
                end <> previousContent).
  { exists demoManifest, previousText,
      (manifest "demo" "1.0.0" [component "web" [] ["nginx:1.20"]]).
    repeat split; try reflexivity. vm_compute. discriminate. }
  exists result'. split; [reflexivity|]. split.
  - apply Hiff. exact Hs.
  - apply Hstale. exact Hs.
Defined.

(* ===================================================================== *)
(** * Further properties of the component graph                           *)
(* ===================================================================== *)

(** ** The cycle search is exact *)

Section CycleExact.

Variable componentMap : gmap string ZarfComponent.t.
Variable start : string.

(** Every name visited between [visited] and [visited'] has all its
    successors in [visited'], none of them the start. *)
Let closed (visited visited' : gset string) : Prop :=
  forall x y, x ∈ visited' -> x ∉ visited -> edge componentMap x y ->
              y ∈ visited' /\ y <> start.

(** A search that reports no cycle has visited [current] and explored
    everything it visited. *)
Lemma hasDependencyCycleFuel_false fuel :
  forall current visited visited',
    hasDependencyCycleFuel fuel start current componentMap visited = Some (false, visited') ->
    visited ⊆ visited' /\ current ∈ visited' /\ closed visited visited'.
Proof.
  induction fuel as [|fuel IH]; intros current visited visited'; [discriminate|].
  rewrite hasDependencyCycleFuel_S.
  destruct (_ && _); [discriminate|].
  case_bool_decide as Hvisited.
  { intros [= <-]. split; [reflexivity|]. split; [exact Hvisited|].
    intros x y Hx Hnx. contradiction. }
  destruct (componentMap !! current) as [component|] eqn:Hlook.
  2:{ intros [= <-]. split; [apply union_subseteq_r|].
      split; [apply elem_of_union_l; by apply elem_of_singleton|].
      intros x y Hx Hnx (c & Hc & _).
      apply elem_of_union in Hx as [Hx%elem_of_singleton|Hx]; [|contradiction].
      subst x. congruence. }
  intros Hloop.
  (* the loop over the dependencies, from any non-empty visited set *)
  assert (Hgen : forall deps v v',
             0 < size v ->
             depsLoop (fun dep visited =>
                         hasDependencyCycleFuel fuel start dep componentMap visited)
                      deps v = Some (false, v') ->
             v ⊆ v' /\ (forall dep, In dep deps -> dep ∈ v' /\ dep <> start)
             /\ closed v v').
  { clear Hloop. intros deps. induction deps as [|dep deps IHdeps]; intros v v' Hpos;
      cbn [depsLoop].
    - intros [= <-]. split; [reflexivity|]. split; [intros ? []|].
      intros x y Hx Hnx. contradiction.
    - destruct (hasDependencyCycleFuel fuel start dep componentMap v)
        as [[[] v1]|] eqn:Hdep; [discriminate| |discriminate].
      intros Hrest.
      destruct (IH _ _ _ Hdep) as (Hsub1 & Hin1 & Hclosed1).
      assert (Hpos1 : 0 < size v1) by (apply subseteq_size in Hsub1; lia).
      destruct (IHdeps _ _ Hpos1 Hrest) as (Hsub2 & Hin2 & Hclosed2).
      split; [by transitivity v1|]. split.
      + intros d [<-|Hd]; [|by apply Hin2]. split; [by apply Hsub2|].
        intros ->. destruct fuel as [|fuel']; [discriminate Hdep|].
        rewrite hasDependencyCycleFuel_S, String.eqb_refl in Hdep.
        apply Nat.ltb_lt in Hpos. rewrite Hpos in Hdep. discriminate Hdep.
      + intros x y Hx Hnx Hedge.
        destruct (decide (x ∈ v1)) as [Hx1|Hx1].
        * destruct (Hclosed1 x y Hx1 Hnx Hedge) as [Hy Hne]. split; [by apply Hsub2 | exact Hne].
        * by apply (Hclosed2 x y). }
  assert (Hpos : 0 < size ({[current]} ∪ visited)).
  { assert (Hle : size ({[current]} : gset string) <= size ({[current]} ∪ visited))
      by apply subseteq_size, union_subseteq_l.
    rewrite size_singleton in Hle. lia. }
  destruct (Hgen _ _ _ Hpos Hloop) as (Hsub & Hdeps & Hclosed).
  split; [transitivity ({[current]} ∪ visited); [apply union_subseteq_r | exact Hsub]|].
  assert (Hcur : current ∈ visited')
    by (apply Hsub, elem_of_union_l; by apply elem_of_singleton).
  split; [exact Hcur|].
  intros x y Hx Hnx Hedge.
  destruct (decide (x = current)) as [->|Hne].
  - destruct Hedge as (c & Hc & Hy). rewrite Hlook in Hc. injection Hc as <-.
    by apply Hdeps.
  - apply (Hclosed x y Hx); [|exact Hedge].
    intros Hin. apply elem_of_union in Hin as [Hin%elem_of_singleton|Hin]; congruence.
Qed.

(** The search is complete: a path back to the start is found. *)
Lemma hasDependencyCycle_complete (current : string) :
  tc (edge componentMap) current start ->
  hasDependencyCycle start current componentMap ∅ = true.
Proof.
  intros Hpath.
  destruct (hasDependencyCycle_terminates componentMap start current ∅)
    as (b & visited' & Hrun & Hb).
  destruct b; [exact Hb|].
  exfalso. apply hasDependencyCycleFuel_false in Hrun as (_ & Hcur & Hclosed).
  assert (Hreach : forall x y, tc (edge componentMap) x y -> x ∈ visited' ->
                               y ∈ visited' /\ y <> start).
  { induction 1 as [x y Hedge | x y z Hedge _ IHtc]; intros Hx.
    - apply (Hclosed x y Hx); [apply not_elem_of_empty | exact Hedge].
    - apply IHtc. apply (Hclosed x y Hx); [apply not_elem_of_empty | exact Hedge]. }
  destruct (Hreach _ _ Hpath Hcur) as [_ Hne]. congruence.
Qed.

End CycleExact.

(** X7.  Started with nothing visited, the search from [current] reports
    a cycle exactly when one or more edges of the component map lead from
    [current] back to [start]; it always returns, whatever the graph. *)
Theorem hasDependencyCycle_exact (start current : string)
        (componentMap : gmap string ZarfComponent.t) :
  hasDependencyCycle start current componentMap ∅ = true
  <-> tc (edge componentMap) current start.
Proof.
  split.
  - apply hasDependencyCycle_sound.
  - apply hasDependencyCycle_complete.
Qed.

(** ** What the dependency pass accepts *)

(** X8.  With unique component names, the dependency pass leaves the result
    untouched exactly when every dependency names a declared component and
    the graph has no cycle (a self-dependency being a cycle of one edge);
    otherwise it appends at least one error. *)
Theorem dependency_pass_accepts_exactly_acyclic_resolved (w : World) (packagePath : string)
        (result : ValidationResult) (zarfYaml : ZarfYaml.t) :
  ReadZarfYaml w (Join w packagePath "zarf.yaml") = Ok zarfYaml ->
  let components := ZarfYaml.Components zarfYaml in
  List.NoDup (componentNamesOf components) ->
  exists added,
    validateComponentDependencies w packagePath result = Ok (addErrors result added)
    /\ (added = []
        <-> (forall c dep, In c components -> In dep (ZarfComponent.DepsWith c) ->
                           In dep (componentNamesOf components))
            /\ (forall x, ~ tc (edge (buildComponentMap components)) x x)).
Proof.
  intros Hread components Hnodup.
  rewrite (validateComponentDependencies_spec _ _ _ _ Hread). fold components.
  eexists. split; [reflexivity|].
  set (cmap := buildComponentMap components).
  rewrite flat_map_nil. split.
  - intros Hnone. split.
    + intros c dep Hc Hdep. apply buildComponentMap_declared. fold cmap.
      specialize (Hnone c Hc). unfold dependencyErrors in Hnone.
      apply app_eq_nil in Hnone as [Hedges _].
      rewrite flat_map_nil in Hedges. specialize (Hedges dep Hdep).
      unfold edgeErrors in Hedges. apply app_eq_nil in Hedges as [Hmiss _].
      destruct (cmap !! dep); [by eexists | discriminate Hmiss].
    + intros x Hcycle.
      assert (Hfirst : exists y, edge cmap x y /\ tc (edge cmap) y x).
      { inversion Hcycle as [? ? Hedge | ? y ? Hedge Hrest]; subst.
        - exists x. split; [exact Hedge | exact Hcycle].
        - exists y. by split. }
      destruct Hfirst as (y & (c & Hlook & Hy) & Hback).
      apply buildComponentMap_Some in Hlook as [Hc Hname].
      specialize (Hnone c Hc). unfold dependencyErrors in Hnone.
      apply app_eq_nil in Hnone as [Hedges _].
      rewrite flat_map_nil in Hedges. specialize (Hedges y Hy).
      unfold edgeErrors in Hedges. apply app_eq_nil in Hedges as [_ Hcyc].
      rewrite Hname in Hcyc.
      apply (hasDependencyCycle_complete cmap x y) in Hback. fold cmap in Hcyc.
      rewrite Hback in Hcyc. discriminate Hcyc.
  - intros [Hresolved Hacyclic] c Hc.
    assert (Hbound : cmap !! ZarfComponent.Name c = Some c)
      by (by apply buildComponentMap_unique).
    unfold dependencyErrors.
    match goal with |- ?l1 ++ ?l2 = [] => enough (l1 = [] /\ l2 = []) as [-> ->] by reflexivity end.
    split; apply flat_map_nil; intros dep Hdep.
    + unfold edgeErrors. fold cmap.
      destruct (proj2 (buildComponentMap_declared components dep) (Hresolved c dep Hc Hdep))
        as [c' Hc']. fold cmap in Hc'. rewrite Hc'. cbn [app].
      destruct (hasDependencyCycle (ZarfComponent.Name c) dep cmap ∅) eqn:Hfound;
        [|reflexivity].
      exfalso. apply hasDependencyCycle_sound in Hfound.
      apply (Hacyclic (ZarfComponent.Name c)).
      apply tc_l with dep; [by exists c | exact Hfound].
    + unfold selfErrors. destruct (String.eqb_spec dep (ZarfComponent.Name c)) as [->|];
        [|reflexivity].
      exfalso. apply (Hacyclic (ZarfComponent.Name c)). apply tc_once. by exists c.
Qed.

(** The diamond is accepted. *)
Lemma dependency_pass_accepts_witness :
  validateComponentDependencies diamondWorld "pkg" (freshResult "pkg" true)
  = Ok (freshResult "pkg" true).
Proof.
  assert (Hnodup : List.NoDup ["a"; "b"; "c"; "d"]).
  { repeat constructor; cbn [In]; intros H;
      repeat (destruct H as [H|H]; [discriminate H|]); exact H. }
  destruct (dependency_pass_accepts_exactly_acyclic_resolved
              diamondWorld "pkg" (freshResult "pkg" true) diamondManifest eq_refl Hnodup)
    as (added & Hrun & Hiff).
  rewrite Hrun. f_equal.
  rewrite (proj2 Hiff); [reflexivity|]. split.
  - intros c dep Hc Hdep. cbn [In] in Hc.
    destruct Hc as [<-|[<-|[<-|[<-|[]]]]]; cbn [In ZarfComponent.DepsWith component] in Hdep;
      repeat (destruct Hdep as [<-|Hdep]; [cbn; tauto|]); destruct Hdep.
  - intros x Hcycle.
    destruct (diamond_paths "a" "b" "c" "d" (ZarfYaml.Components diamondManifest)
                Hnodup (proj1 diamondManifest_shape) (proj2 diamondManifest_shape)
                x x Hcycle)
      as (Hna & Hnd & Hend).
    apply Hnd. by apply Hend.
Defined.

(** X9.  A dependency on a name that no component declares is reported with
    the names of both ends, and the cycle search reports nothing for that
    edge. *)
Theorem undeclared_dependency_is_reported (w : World) (packagePath : string)
        (result : ValidationResult) (zarfYaml : ZarfYaml.t) (c : ZarfComponent.t)
        (dep : string) :
  ReadZarfYaml w (Join w packagePath "zarf.yaml") = Ok zarfYaml ->
  let components := ZarfYaml.Components zarfYaml in
  In c components ->
  In dep (ZarfComponent.DepsWith c) ->
  ~ In dep (componentNamesOf components) ->
  exists result' added,
    validateComponentDependencies w packagePath result = Ok result'
    /\ Errors result' = Errors result ++ added
    /\ In (missingError (ZarfComponent.Name c) dep) added
    /\ edgeErrors (buildComponentMap components) (ZarfComponent.Name c) dep
       = [missingError (ZarfComponent.Name c) dep].
Proof.
  intros Hread components Hc Hdep Hundeclared.
  rewrite (validateComponentDependencies_spec _ _ _ _ Hread). fold components.
  eexists _, _. split; [reflexivity|]. split; [reflexivity|].
  assert (Hnone : buildComponentMap components !! dep = None).
  { destruct (buildComponentMap components !! dep) eqn:Hlook; [|reflexivity].
    exfalso. apply Hundeclared, buildComponentMap_declared. by eexists. }
  assert (Hedge : edgeErrors (buildComponentMap components) (ZarfComponent.Name c) dep
                  = [missingError (ZarfComponent.Name c) dep]).
  { unfold edgeErrors. rewrite Hnone.
    destruct (hasDependencyCycle _ _ _ _) eqn:Hfound; [|reflexivity].
    exfalso. apply hasDependencyCycle_sound in Hfound.
    inversion Hfound as [? ? (c' & Hc' & _) | ? ? ? (c' & Hc' & _) _]; subst; congruence. }
  split; [|exact Hedge].
  apply in_flat_map. exists c. split; [exact Hc|].
  unfold dependencyErrors. apply in_or_app. left.
  apply in_flat_map. exists dep. split; [exact Hdep|]. rewrite Hedge. by left.
Qed.

Lemma undeclared_dependency_is_reported_witness :
  exists result',
    validateComponentDependencies
      (packageWorld demoText (manifest "demo" "1.0.0" [component "web" ["db"] demoImages])
                    true (EmptyString, None))
      "pkg" (freshResult "pkg" true) = Ok result'
    /\ Errors result' = ["Component 'web' depends on non-existent component 'db'"].
Proof.
  destruct (undeclared_dependency_is_reported
              (packageWorld demoText
                 (manifest "demo" "1.0.0" [component "web" ["db"] demoImages])
                 true (EmptyString, None))
              "pkg" (freshResult "pkg" true) _ (component "web" ["db"] demoImages) "db" eq_refl)
    as (result' & added & Hrun & _ & _ & _).
  - by left.
  - by left.
  - intros [H|[]]. discriminate H.
  - exists result'. split; [exact Hrun|].
    vm_compute in Hrun. by injection Hrun as <-.
Defined.

(** ** What the component pass accepts *)

Lemma componentLoop_repeats w components :
  forall seen result,
    Errors (snd (fold_left (componentStep w) components (seen, result)))
    = Errors result
        ++ map duplicateError (repeatedNames seen (componentNamesOf components)).
Proof.
  induction components as [|c components IH]; intros seen result.
  - cbn. by rewrite app_nil_r.
  - cbn [fold_left].
    destruct (componentStep w (seen, result) c) as [seen' result'] eqn:Hstep.
    assert (Hseen : seen' = {[ ZarfComponent.Name c ]} ∪ seen)
      by (by rewrite <- (componentStep_fst w seen result c), Hstep).
    assert (Herr : Errors result' = Errors result ++
              (if bool_decide (ZarfComponent.Name c ∈ seen)
               then [duplicateError (ZarfComponent.Name c)] else []))
      by (by rewrite <- (componentStep_Errors w seen result c), Hstep).
    rewrite IH, Herr, Hseen, <- app_assoc. f_equal.
    change (componentNamesOf (c :: components))
      with (ZarfComponent.Name c :: componentNamesOf components).
    cbn [repeatedNames]. rewrite map_app. f_equal.
    by destruct (bool_decide (ZarfComponent.Name c ∈ seen)).
Qed.

Lemma repeatedNames_nil names :
  forall seen,
    repeatedNames seen names = []
    <-> List.NoDup names /\ forall name, In name names -> name ∉ seen.
Proof.
  induction names as [|n names IH]; intros seen; cbn [repeatedNames].
  - split; [intros _; split; [constructor | intros ? []] | reflexivity].
  - split.
    + intros H. apply app_eq_nil in H as [Hhead Hrest].
      apply IH in Hrest as [Hnodup Hfresh].
      assert (Hn : n ∉ seen) by (by case_bool_decide).
      split.
      * constructor; [|exact Hnodup]. intros Hin. apply (Hfresh n Hin).
        apply elem_of_union_l. by apply elem_of_singleton.
      * intros name [<-|Hin]; [exact Hn|]. intros Hs. apply (Hfresh name Hin).
        by apply elem_of_union_r.
    + intros [Hnodup Hfresh]. apply List.NoDup_cons_iff in Hnodup as [Hnotin Hnodup].
      rewrite bool_decide_eq_false_2 by (apply Hfresh; by left). cbn [app].
      apply IH. split; [exact Hnodup|].
      intros name Hin Hs. apply elem_of_union in Hs as [Hs%elem_of_singleton|Hs].
      * subst name. contradiction.
      * apply (Hfresh name); [by right | exact Hs].
Qed.

(** X10.  With a readable manifest, the component pass never changes the
    verdict; the errors it appends are one duplicate-name error per
    repetition of a name, in order of declaration; and it leaves the
    errors untouched exactly when the component names are pairwise
    distinct (in particular when there is no component). *)
Theorem component_pass_accepts_exactly_unique_names (w : World) (packagePath : string)
        (result : ValidationResult) (zarfYaml : ZarfYaml.t) :
  ReadZarfYaml w (Join w packagePath "zarf.yaml") = Ok zarfYaml ->
  let names := componentNamesOf (ZarfYaml.Components zarfYaml) in
  exists result',
    validateComponents w packagePath result = Ok result'
    /\ Valid result' = Valid result
    /\ Errors result' = Errors result ++ map duplicateError (repeatedNames ∅ names)
    /\ (Errors result' = Errors result <-> List.NoDup names).
Proof.
  intros Hread names.
  assert (Hiff : forall l, Errors result ++ map duplicateError (repeatedNames ∅ names) = l ->
                           (l = Errors result <-> List.NoDup names)).
  { intros l <-. split.
    - intros H. rewrite <- (app_nil_r (Errors result)) in H at 2.
      apply app_inv_head in H. apply map_eq_nil in H.
      by apply repeatedNames_nil in H as [H _].
    - intros H. rewrite (proj2 (repeatedNames_nil names ∅)); [apply app_nil_r|].
      split; [exact H | intros; apply not_elem_of_empty]. }
  destruct (validateComponents w packagePath result) as [result'|e] eqn:Hrun.
  2:{ unfold validateComponents in Hrun. rewrite Hread in Hrun.
      destruct (isEmptyList _); discriminate Hrun. }
  exists result'. split; [reflexivity|].
  pose proof (validateComponents_errsOnly _ _ _ _ Hrun) as [_ Hvalid].
  split; [exact Hvalid|].
  assert (Herr : Errors result'
                 = Errors result ++ map duplicateError (repeatedNames ∅ names)).
  { unfold validateComponents in Hrun. rewrite Hread in Hrun. subst names.
    destruct (isEmptyList (ZarfYaml.Components zarfYaml)) eqn:Hempty.
    - injection Hrun as <-.
      destruct (ZarfYaml.Components zarfYaml); [|discriminate Hempty].
      cbn. by rewrite app_nil_r.
    - injection Hrun as <-. apply componentLoop_repeats. }
  split; [exact Herr|]. by apply Hiff.
Qed.

(** Two components named [web]: one error, for the second. *)
Lemma component_pass_accepts_witness :
  exists result',
    validateComponents duplicateWorld "pkg" (freshResult "pkg" true) = Ok result'
    /\ Errors result' = ["Duplicate component name: web"]
    /\ Valid result' = true.
Proof.
  destruct (component_pass_accepts_exactly_unique_names duplicateWorld "pkg"
              (freshResult "pkg" true) _ eq_refl) as (result' & Hrun & Hvalid & Herr & _).
  exists result'. split; [exact Hrun|]. split; [|exact Hvalid].
  rewrite Herr. vm_compute. reflexivity.
Defined.

(* ===================================================================== *)
(** * Properties of the helpers of [pkg/util]                             *)
(* ===================================================================== *)

(** ** [SanitizeName] *)

Lemma drop_bytes_suffix n s :
  exists prefix, s = prefix +:+ Strings.drop_bytes n s
                 /\ String.length prefix = Nat.min n (String.length s).
Proof.
  revert s. induction n as [|n IH]; intros s.
  - exists EmptyString. by destruct s.
  - destruct s as [|c s]; [by exists EmptyString|].
    destruct (IH s) as (prefix & Heq & Hlen).
    exists (String c prefix). split.
    + exact (f_equal (String c) Heq).
    + change (S (String.length prefix) = S (Nat.min n (String.length s))).
      by rewrite Hlen.
Qed.

Lemma length_append s t : String.length (s +:+ t) = String.length s + String.length t.
Proof. induction s as [|c s IH]; [reflexivity | exact (f_equal S IH)]. Qed.

Lemma append_assoc s t u : (s +:+ t) +:+ u = s +:+ (t +:+ u).
Proof. induction s as [|c s IH]; [reflexivity | exact (f_equal (String c) IH)]. Qed.

Lemma trimLeftFunc_suffix f s :
  exists prefix, s = prefix +:+ Strings.trimLeftFunc f s.
Proof.
  induction s as [|c s IH]; [by exists EmptyString|]. cbn [Strings.trimLeftFunc].
  destruct (f c); [|by exists EmptyString].
  destruct IH as (prefix & Heq). exists (String c prefix).
  exact (f_equal (String c) Heq).
Qed.

Lemma trimLeftFunc_head f s :
  match Strings.trimLeftFunc f s with
  | EmptyString => True
  | String c _ => f c = false
  end.
Proof.
  induction s as [|c s IH]; [exact I|]. cbn [Strings.trimLeftFunc].
  destruct (f c) eqn:Hc; [exact IH | exact Hc].
Qed.

Lemma trimLeftFunc_idem f s :
  Strings.trimLeftFunc f (Strings.trimLeftFunc f s) = Strings.trimLeftFunc f s.
Proof.
  pose proof (trimLeftFunc_head f s) as H.
  destruct (Strings.trimLeftFunc f s) as [|c t]; [reflexivity|].
  cbn [Strings.trimLeftFunc]. by rewrite H.
Qed.

Lemma wrap64_small z : (- 2 ^ 63 <= z < 2 ^ 63)%Z -> wrap64 z = z.
Proof. intros H. unfold wrap64. rewrite Z.mod_small; lia. Qed.

(** X11.  For a length limit that is not negative, [SanitizeName] returns a
    suffix of the name that is at most [maxLength] bytes long and is empty
    or starts with a letter or digit; sanitizing the outcome again changes
    nothing.  For a negative limit and a name of any length, the slice
    expression is out of range and the call panics. *)
Theorem SanitizeName_spec (s : string) (maxLength : Z) :
  (Z.of_nat (String.length s) < 2 ^ 62)%Z ->
  (- 2 ^ 62 < maxLength < 2 ^ 62)%Z ->
  ((0 <= maxLength)%Z ->
   exists name,
     SanitizeName s maxLength = Some name
     /\ (Z.of_nat (String.length name) <= maxLength)%Z
     /\ (exists prefix, s = prefix +:+ name)
     /\ match name with EmptyString => True | String c _ => isAlnum c = true end
     /\ SanitizeName name maxLength = Some name)
  /\ ((maxLength < 0)%Z -> SanitizeName s maxLength = None).
Proof.
  intros Hlen Hmax.
  assert (Hwrap : wrap64 (Z.of_nat (String.length s) - maxLength)
                  = (Z.of_nat (String.length s) - maxLength)%Z) by (apply wrap64_small; lia).
  split.
  - intros Hpos.
    assert (Hagain : forall name,
               (Z.of_nat (String.length name) <= maxLength)%Z ->
               match name with EmptyString => True | String c _ => isAlnum c = true end ->
               SanitizeName name maxLength = Some name).
    { intros name Hn Hhead. unfold SanitizeName.
      rewrite wrap64_small by lia.
      destruct (Z.ltb_spec 0 (Z.of_nat (String.length name) - maxLength)) as [|_]; [lia|].
      f_equal. destruct name as [|c t]; [reflexivity|].
      cbn [Strings.trimLeftFunc]. by rewrite Hhead. }
    unfold SanitizeName. rewrite Hwrap.
    set (notAlnum := fun c => negb (isAlnum c)).
    assert (Hhead : forall t, match Strings.trimLeftFunc notAlnum t with
                              | EmptyString => True
                              | String c _ => isAlnum c = true
                              end).
    { intros t. pose proof (trimLeftFunc_head notAlnum t) as H.
      destruct (Strings.trimLeftFunc notAlnum t) as [|c u]; [exact I|].
      unfold notAlnum in H. by destruct (isAlnum c). }
    destruct (Z.ltb_spec 0 (Z.of_nat (String.length s) - maxLength)) as [Hex|Hex].
    + destruct (Z.leb_spec (Z.of_nat (String.length s) - maxLength)
                           (Z.of_nat (String.length s))) as [_|]; [|lia].
      set (excess := Z.to_nat (Z.of_nat (String.length s) - maxLength)).
      destruct (drop_bytes_suffix excess s) as (p1 & Heq1 & Hlen1).
      destruct (trimLeftFunc_suffix notAlnum (Strings.drop_bytes excess s)) as (p2 & Heq2).
      assert (Hshort : (Z.of_nat (String.length
                                    (Strings.trimLeftFunc notAlnum
                                       (Strings.drop_bytes excess s))) <= maxLength)%Z).
      { apply (f_equal String.length) in Heq1, Heq2. rewrite length_append in Heq1, Heq2.
        subst excess. lia. }
      eexists. split; [reflexivity|]. split; [exact Hshort|]. split.
      * exists (p1 +:+ p2). by rewrite append_assoc, <- Heq2.
      * split; [apply Hhead | apply Hagain; [exact Hshort | apply Hhead]].
    + destruct (trimLeftFunc_suffix notAlnum s) as (p & Heq).
      assert (Hshort : (Z.of_nat (String.length (Strings.trimLeftFunc notAlnum s))
                        <= maxLength)%Z).
      { apply (f_equal String.length) in Heq. rewrite length_append in Heq. lia. }
      eexists. split; [reflexivity|]. split; [exact Hshort|]. split; [by exists p|].
      split; [apply Hhead | apply Hagain; [exact Hshort | apply Hhead]].
  - intros Hneg. unfold SanitizeName. rewrite Hwrap.
    destruct (Z.ltb_spec 0 (Z.of_nat (String.length s) - maxLength)); [|lia].
    destruct (Z.leb_spec (Z.of_nat (String.length s) - maxLength)
                         (Z.of_nat (String.length s))); [lia | reflexivity].
Qed.

(** A release name cut to eleven bytes: the cut leaves a leading dash,
    which is removed. *)
Lemma SanitizeName_spec_witness :
  SanitizeName "my-release-web-server" 11 = Some "web-server"
  /\ SanitizeName "web-server" (-1) = None.
Proof.
  split.
  - destruct (SanitizeName_spec "my-release-web-server" 11) as [Hpos _];
      [vm_compute; reflexivity | lia |].
    destruct Hpos as (name & Hrun & _); [lia|].
    rewrite Hrun. vm_compute in Hrun. symmetry. exact Hrun.
  - destruct (SanitizeName_spec "web-server" (-1)) as [_ Hneg];
      [vm_compute; reflexivity | lia |].
    apply Hneg. lia.
Defined.

(** ** [Flatten] *)

Lemma Item_nested_ind (P : Item -> Prop) :
  (forall v, P (ItemString v)) ->
  (forall v, P (ItemStrings v)) ->
  (forall v, Forall P v -> P (ItemList v)) ->
  (forall typeName, P (ItemOther typeName)) ->
  forall item, P item.
Proof.
  intros Hs Hss Hl Ho. fix IH 1. intros [v|v|v|t]; [apply Hs | apply Hss | | apply Ho].
  apply Hl. induction v as [|item v IHv]; constructor; [apply IH | exact IHv].
Qed.

Lemma doFlatten_spec item :
  forall result,
    if supported item
    then doFlatten result item = Ok (result ++ leaves item)
    else exists typeName,
        doFlatten result item = Fail ("flatten does not support " +:+ typeName).
Proof.
  induction item as [v|v|v IH|t] using Item_nested_ind; intros result;
    cbn [supported leaves doFlatten]; try reflexivity; [|by exists t].
  revert result. induction IH as [|item v Hitem _ IHv]; intros result.
  - cbn. by rewrite app_nil_r.
  - cbn [forallb flat_map]. specialize (Hitem result).
    destruct (supported item); cbn [andb].
    + rewrite Hitem. specialize (IHv (result ++ leaves item)).
      destruct (forallb supported v).
      * rewrite IHv. by rewrite app_assoc.
      * exact IHv.
    + destruct Hitem as (t & ->). by exists t.
Qed.

(** X12.  [Flatten] returns the strings of its argument in order, nested
    slices included, when every value in it is a string, a slice of
    strings or a slice of such values; otherwise it fails, naming the type
    of the first unsupported value, and returns no partial list.  The
    strings of a concatenation are the concatenation of the strings. *)
Theorem Flatten_spec (items : list Item) :
  (if forallb supported items
   then Flatten items = Ok (flat_map leaves items)
   else exists typeName,
       Flatten items = Fail ("flatten does not support " +:+ typeName))
  /\ (forall more l1 l2,
         Flatten items = Ok l1 -> Flatten more = Ok l2 ->
         Flatten (items ++ more) = Ok (l1 ++ l2)).
Proof.
  assert (Hspec : forall l, if forallb supported l
                            then Flatten l = Ok (flat_map leaves l)
                            else exists typeName,
                                Flatten l = Fail ("flatten does not support " +:+ typeName)).
  { intros l. exact (doFlatten_spec (ItemList l) []). }
  split; [apply Hspec|].
  intros more l1 l2 H1 H2.
  pose proof (Hspec items) as S1. pose proof (Hspec more) as S2.
  pose proof (Hspec (items ++ more)) as S12. rewrite forallb_app in S12.
  destruct (forallb supported items); [|destruct S1 as (t & S1); congruence].
  destruct (forallb supported more); [|destruct S2 as (t & S2); congruence].
  cbn [andb] in S12. rewrite S12, flat_map_app. congruence.
Qed.

(* ===================================================================== *)
(** * Further properties of the package locator                           *)
(* ===================================================================== *)

(** ** [FilterExcludedPackages] *)

Lemma excludeSet_spec excluded :
  forall (acc : gset string) x,
    x ∈ fold_left (fun excludeSet exc => {[ exc ]} ∪ excludeSet) excluded acc
    <-> In x excluded \/ x ∈ acc.
Proof.
  induction excluded as [|exc excluded IH]; intros acc x; cbn [fold_left In].
  - tauto.
  - rewrite IH, elem_of_union, elem_of_singleton. intuition congruence.
Qed.

Lemma filterLoop_spec {A} (keep : A -> bool) l :
  forall acc,
    fold_left (fun filtered x => if keep x then filtered ++ [x] else filtered) l acc
    = acc ++ List.filter keep l.
Proof.
  induction l as [|x l IH]; intros acc; cbn [fold_left List.filter].
  - by rewrite app_nil_r.
  - rewrite IH. destruct (keep x); [by rewrite <- app_assoc | reflexivity].
Qed.

Lemma filter_sublist {A} (keep : A -> bool) l : List.filter keep l `sublist_of` l.
Proof.
  induction l as [|x l IH]; cbn [List.filter]; [constructor|].
  destruct (keep x); by constructor.
Qed.

(** X13.  [FilterExcludedPackages] keeps, in their order, exactly the packages
    whose path and whose base name are both absent from the exclusion
    list; with an empty exclusion list it returns the packages unchanged;
    and filtering twice is the same as filtering once. *)
Theorem FilterExcludedPackages_spec (base : string -> string)
        (packages excluded : list string) :
  let kept := FilterExcludedPackages base packages excluded in
  (forall pkg, In pkg kept
               <-> In pkg packages /\ ~ In (base pkg) excluded /\ ~ In pkg excluded)
  /\ kept `sublist_of` packages
  /\ (excluded = [] -> kept = packages)
  /\ FilterExcludedPackages base kept excluded = kept.
Proof.
  intros kept.
  set (keep := fun pkg => negb (existsb (String.eqb (base pkg)) excluded)
                          && negb (existsb (String.eqb pkg) excluded)).
  assert (Hkeep : forall pkg, keep pkg = true
                              <-> ~ In (base pkg) excluded /\ ~ In pkg excluded).
  { intros pkg. unfold keep. rewrite andb_true_iff, !negb_true_iff.
    assert (Hex : forall x, existsb (String.eqb x) excluded = false <-> ~ In x excluded).
    { intros x. rewrite <- not_true_iff_false, existsb_exists. split.
      - intros H Hin. apply H. exists x. split; [exact Hin | apply String.eqb_refl].
      - intros H (y & Hin & Heq). apply String.eqb_eq in Heq as ->. by apply H. }
    by rewrite !Hex. }
  assert (Hfilter : forall l, excluded <> [] ->
                              FilterExcludedPackages base l excluded = List.filter keep l).
  { intros l Hne. unfold FilterExcludedPackages.
    destruct (isEmptyList excluded) eqn:Hempty;
      [destruct excluded; [congruence | discriminate Hempty]|].
    rewrite (filterLoop_spec _ l []). cbn [app].
    apply filter_ext. intros pkg. unfold keep. f_equal; f_equal.
    - apply eq_true_iff_eq. rewrite bool_decide_eq_true, excludeSet_spec, existsb_exists.
      split.
      + intros [Hin|Hin]; [|by apply not_elem_of_empty in Hin].
        exists (base pkg). split; [exact Hin | apply String.eqb_refl].
      + intros (y & Hin & Heq). apply String.eqb_eq in Heq as ->. by left.
    - apply eq_true_iff_eq. rewrite bool_decide_eq_true, excludeSet_spec, existsb_exists.
      split.
      + intros [Hin|Hin]; [|by apply not_elem_of_empty in Hin].
        exists pkg. split; [exact Hin | apply String.eqb_refl].
      + intros (y & Hin & Heq). apply String.eqb_eq in Heq as ->. by left. }
  destruct (decide (excluded = [])) as [Hnil|Hne].
  - subst kept. rewrite Hnil. cbn. split; [intros pkg; tauto|]. split; [reflexivity|]. by split.
  - subst kept. rewrite !Hfilter by exact Hne. split; [|split; [|split]].
    + intros pkg. rewrite List.filter_In, Hkeep. tauto.
    + apply filter_sublist.
    + intros Hnil. congruence.
    + induction packages as [|pkg packages IH]; cbn [List.filter]; [reflexivity|].
      destruct (keep pkg) eqn:Hk; [|exact IH].
      cbn [List.filter]. rewrite Hk. by f_equal.
Qed.

(** ** The package-level [ValidatePackages] *)

(** X14.  [ValidatePackages] of the locator rejects a directory exactly
    when [os.Stat] on its [zarf.yaml] reports that the file does not
    exist: a stat that fails in any other way (the directory is a regular
    file, a permission is missing) and a [zarf.yaml] that is itself a
    directory both pass.  It returns no error exactly when no directory
    is rejected; otherwise its error lists, one line each and in order,
    the rejected directories. *)
Theorem Locator_ValidatePackages_spec (w : World) (packageDirs : list string) :
  let absent dir := IsNotExist (Stat w (Join w dir "zarf.yaml")) in
  let missing := List.filter absent packageDirs in
  (forall dir,
      In dir missing
      <-> In dir packageDirs /\ Stat w (Join w dir "zarf.yaml") = StatNotExist)
  /\ (Locator.ValidatePackages w packageDirs = None
      <-> forall dir, In dir packageDirs -> Stat w (Join w dir "zarf.yaml") <> StatNotExist)
  /\ (missing <> [] ->
      Locator.ValidatePackages w packageDirs
      = Some ("package validation failed:" +:+ nl +:+ "- "
                +:+ joinStrings (map Locator.notPackageError missing) (nl +:+ "- "))).
Proof.
  intros absent missing.
  assert (Habsent : forall dir, negb (IsZarfPackage w dir) = absent dir)
    by (intros dir; unfold IsZarfPackage, absent; apply negb_involutive).
  assert (Hloop : forall dirs acc,
             fold_left (fun errors dir =>
                          if negb (IsZarfPackage w dir)
                          then errors ++ [Locator.notPackageError dir] else errors)
                       dirs acc
             = acc ++ map Locator.notPackageError (List.filter absent dirs)).
  { induction dirs as [|dir dirs IH]; intros acc; cbn [fold_left List.filter].
    - cbn. by rewrite app_nil_r.
    - rewrite IH, Habsent. destruct (absent dir); [|reflexivity].
      cbn [map]. by rewrite <- app_assoc. }
  assert (Hin : forall dir,
             In dir missing
             <-> In dir packageDirs /\ Stat w (Join w dir "zarf.yaml") = StatNotExist).
  { intros dir. unfold missing. rewrite List.filter_In. unfold absent.
    destruct (Stat w (Join w dir "zarf.yaml")); cbn [IsNotExist];
      split; intros [Hd Hs]; (split; [exact Hd|]); congruence. }
  assert (Hmissing : missing = []
                     <-> forall dir, In dir packageDirs ->
                                     Stat w (Join w dir "zarf.yaml") <> StatNotExist).
  { split.
    - intros Hnil dir Hd Hs. assert (Hm : In dir missing) by (apply Hin; by split).
      rewrite Hnil in Hm. destruct Hm.
    - intros Hall.
      assert (Hempty : forall l : list string, (forall x, ~ In x l) -> l = []).
      { intros [|x l] H; [reflexivity|]. destruct (H x). by left. }
      apply Hempty. intros dir Hd. apply Hin in Hd as [Hd Hs]. exact (Hall dir Hd Hs). }
  split; [exact Hin|].
  unfold Locator.ValidatePackages. rewrite Hloop. cbn [app]. fold missing.
  rewrite length_map.
  destruct (decide (missing = [])) as [Hnil|Hne].
  - rewrite Hnil. cbn. split; [|congruence].
    split; [intros _; by apply Hmissing | reflexivity].
  - assert (Hlen : (0 <? List.length missing)%nat = true).
    { apply Nat.ltb_lt. destruct missing; [congruence | cbn [List.length]; lia]. }
    rewrite Hlen. split; [|reflexivity].
    split; [discriminate|]. intros Hall. apply Hmissing in Hall. congruence.
Qed.

(** ** Searching several roots *)

Lemma walkPackages_spec w entries :
  forall packages,
    let isManifest entry :=
      match entry with
      | WalkVisit _ name isDir => String.eqb name "zarf.yaml" && negb isDir
      | WalkFailure _ _ => false
      end in
    let dirOfEntry entry :=
      match entry with
      | WalkVisit path _ _ => Dir w path
      | WalkFailure path _ => path
      end in
    match List.find (fun entry => match entry with WalkFailure _ _ => true | _ => false end)
                    entries with
    | Some (WalkFailure _ err) => walkPackages w entries packages = Fail err
    | _ => walkPackages w entries packages
           = Ok (packages ++ map dirOfEntry (List.filter isManifest entries))
    end.
Proof.
  induction entries as [|entry entries IH]; intros packages; cbn zeta.
  - cbn. by rewrite app_nil_r.
  - destruct entry as [path name isDir|path err]; cbn [List.find walkPackages List.filter];
      [|reflexivity].
    specialize (IH (if String.eqb name "zarf.yaml" && negb isDir
                    then packages ++ [Dir w path] else packages)).
    cbn zeta in IH.
    destruct (List.find _ entries) as [[| ? err]|];
      destruct (String.eqb name "zarf.yaml" && negb isDir);
      rewrite IH; cbn [map]; by rewrite <- ?app_assoc.
Qed.

Lemma findZarfPackagesFrom_acc w dirs :
  forall packageDirs,
    findZarfPackagesFrom w dirs packageDirs
    = match findZarfPackagesFrom w dirs [] with
      | Ok found => Ok (packageDirs ++ found)
      | Fail e => Fail e
      end.
Proof.
  induction dirs as [|dir dirs IH]; intros packageDirs; cbn [findZarfPackagesFrom].
  - by rewrite app_nil_r.
  - destruct (findPackagesInDirectory w dir) as [packages|e]; [|reflexivity].
    rewrite (IH (packageDirs ++ packages)), (IH ([] ++ packages)).
    destruct (findZarfPackagesFrom w dirs []); [|reflexivity].
    cbn [app]. by rewrite app_assoc.
Qed.

(** X15.  Searching two lists of roots one after the other: when both searches
    succeed the result is the first list of packages followed by the
    second, duplicates included; when either fails, the whole search
    fails with the error of the first root that fails and returns no
    package. *)
Theorem FindZarfPackages_app (w : World) (dirs1 dirs2 : list string) :
  FindZarfPackages w (dirs1 ++ dirs2)
  = match FindZarfPackages w dirs1, FindZarfPackages w dirs2 with
    | Ok found1, Ok found2 => Ok (found1 ++ found2)
    | Fail e, _ => Fail e
    | Ok _, Fail e => Fail e
    end.
Proof.
  unfold FindZarfPackages. induction dirs1 as [|dir dirs1 IH]; cbn [app findZarfPackagesFrom].
  - by destruct (findZarfPackagesFrom w dirs2 []).
  - destruct (findPackagesInDirectory w dir) as [packages|e]; [|reflexivity].
    rewrite (findZarfPackagesFrom_acc w (dirs1 ++ dirs2)),
      (findZarfPackagesFrom_acc w dirs1), IH.
    destruct (findZarfPackagesFrom w dirs1 []) as [found1|e]; [|reflexivity].
    destruct (findZarfPackagesFrom w dirs2 []) as [found2|e]; [|reflexivity].
    by rewrite app_assoc.
Qed.

(** X16.  A root that exists: its packages are the directories of the walk
    entries named [zarf.yaml] that are not directories, in the order of
    the walk, unless some entry could not be read, which fails the root
    whatever was found before. *)
Theorem findPackagesInDirectory_spec (w : World) (dir : string) :
  Stat w dir <> StatNotExist ->
  (forall path err,
      In (WalkFailure path err) (Walk w dir) ->
      exists e, findPackagesInDirectory w dir = Fail e)
  /\ ((forall path err, ~ In (WalkFailure path err) (Walk w dir)) ->
      exists found,
        findPackagesInDirectory w dir = Ok found
        /\ forall packageDir,
            In packageDir found
            <-> exists path, In (WalkVisit path "zarf.yaml" false) (Walk w dir)
                             /\ packageDir = Dir w path).
Proof.
  intros Hexists. unfold findPackagesInDirectory.
  assert (Hne : IsNotExist (Stat w dir) = false) by (by destruct (Stat w dir)).
  rewrite Hne.
  pose proof (walkPackages_spec w (Walk w dir) []) as Hwalk. cbn zeta in Hwalk.
  destruct (List.find _ (Walk w dir)) as [[p n d|p e]|] eqn:Hfind.
  - apply find_some in Hfind as [_ Hf]. discriminate Hf.
  - rewrite Hwalk. split; [intros; by eexists|].
    intros Hnofail. apply find_some in Hfind as [Hin _]. by apply Hnofail in Hin.
  - rewrite Hwalk. cbn [app]. split.
    + intros path err Hin. apply (find_none _ _ Hfind) in Hin. discriminate Hin.
    + intros _. eexists. split; [reflexivity|]. intros packageDir. split.
      * intros Hin. apply in_map_iff in Hin as (entry & Heq & Hin).
        apply List.filter_In in Hin as [Hin Hm].
        destruct entry as [path name isDir|]; [|discriminate Hm].
        apply andb_true_iff in Hm as [Hname Hdir].
        apply String.eqb_eq in Hname as ->. destruct isDir; [discriminate Hdir|].
        by exists path.
      * intros (path & Hin & ->). apply in_map_iff.
        exists (WalkVisit path "zarf.yaml" false). split; [reflexivity|].
        apply List.filter_In. by split.
Qed.

(** The root [packages] of the demo workspace holds the package
    [packages/web]. *)
Lemma findPackagesInDirectory_spec_witness :
  findPackagesInDirectory treeWorld "packages" = Ok ["packages/web"].
Proof.
  destruct (findPackagesInDirectory_spec treeWorld "packages") as [_ Hfound];
    [vm_compute; discriminate|].
  destruct Hfound as (found & Hrun & _).
  - intros path err Hin. cbn in Hin.
    repeat (destruct Hin as [Hin|Hin]; [discriminate Hin|]). exact Hin.
  - rewrite Hrun. vm_compute in Hrun. symmetry. exact Hrun.
Defined.

(* ===================================================================== *)
(** * Properties of the change mapper                                     *)
(* ===================================================================== *)

Section ChangeMapper.

Variable w : World.
Variable dirs : list string.

Let up (n : nat) (path : string) : string := Nat.iter n (Dir w) path.

Let terminal (path : string) : Prop := path = "." \/ path = "/".

Lemma terminal_test path :
  negb (String.eqb path ".") && negb (String.eqb path "/") = false <-> terminal path.
Proof.
  unfold terminal.
  destruct (String.eqb_spec path "."), (String.eqb_spec path "/"); cbn; intuition congruence.
Qed.

(** What the loop returns, in terms of the chain of parents of the
    directory it starts from. *)
Lemma walkUp_spec fuel :
  forall currentDir r,
    walkUp w dirs fuel currentDir = Some r ->
    exists n,
      (forall m, m < n -> ~ terminal (up m currentDir)
                          /\ ownsFiles w dirs (up m currentDir) = false)
      /\ match r with
         | Some packageDir =>
             packageDir = up n currentDir /\ ~ terminal packageDir
             /\ ownsFiles w dirs packageDir = true
         | None => terminal (up n currentDir)
         end.
Proof.
  induction fuel as [|fuel IH]; intros currentDir r; [discriminate|].
  cbn [walkUp]. fold (ownsFiles w dirs currentDir).
  destruct (negb (String.eqb currentDir ".") && negb (String.eqb currentDir "/")) eqn:Hterm.
  2:{ intros [= <-]. exists 0. split; [intros m Hm; lia|]. by apply terminal_test. }
  assert (Hnot : ~ terminal currentDir).
  { intros Ht. apply terminal_test in Ht. congruence. }
  destruct (ownsFiles w dirs currentDir) eqn:Howns.
  { intros [= <-]. exists 0. split; [intros m Hm; lia|]. by repeat split. }
  intros Hrest. destruct (IH _ _ Hrest) as (n & Hbefore & Hend).
  exists (S n). split.
  - intros [|m] Hm; [by split|].
    unfold up. rewrite Nat.iter_succ_r. apply Hbefore. lia.
  - unfold up. rewrite Nat.iter_succ_r. exact Hend.
Qed.

Hypothesis shortens : dirShortens w.

Lemma walkUp_total fuel :
  forall currentDir,
    (terminal currentDir /\ 1 <= fuel) \/ String.length currentDir + 2 <= fuel ->
    is_Some (walkUp w dirs fuel currentDir).
Proof.
  induction fuel as [|fuel IH]; intros currentDir Hfuel; [lia|].
  cbn [walkUp].
  destruct (negb (String.eqb currentDir ".") && negb (String.eqb currentDir "/")) eqn:Hterm;
    [|by eexists].
  fold (ownsFiles w dirs currentDir).
  destruct (ownsFiles w dirs currentDir); [by eexists|].
  assert (Hnot : ~ terminal currentDir).
  { intros Ht. apply terminal_test in Ht. congruence. }
  destruct Hfuel as [[Ht _]|Hfuel]; [contradiction|].
  apply IH.
  destruct (shortens currentDir) as [Hd|[Hd|Hd]];
    [intros ->; apply Hnot; by left | intros ->; apply Hnot; by right | | |].
  - left. split; [by left | lia].
  - left. split; [by right | lia].
  - right. lia.
Qed.

(** [findPackageContainingFile] returns. *)
Lemma findPackageContainingFile_total (file : string) :
  is_Some (findPackageContainingFile w file dirs).
Proof.
  unfold findPackageContainingFile.
  destruct (walkUp_total (walkUpFuel (Dir w file)) (Dir w file)) as [r Hrun];
    [right; unfold walkUpFuel; lia|].
  rewrite Hrun. destruct r; by eexists.
Qed.

(** What it returns holds a manifest and starts with a root. *)
Lemma findPackageContainingFile_Ok (file packageDir : string) :
  findPackageContainingFile w file dirs = Some (Ok packageDir) ->
  IsZarfPackage w packageDir = true
  /\ exists root, In root dirs /\ Strings.HasPrefix packageDir root = true.
Proof.
  unfold findPackageContainingFile.
  destruct (walkUp w dirs (walkUpFuel (Dir w file)) (Dir w file)) as [[p|]|] eqn:Hrun;
    try discriminate.
  intros [= <-]. destruct (walkUp_spec _ _ _ Hrun) as (n & _ & _ & _ & Ho).
  unfold ownsFiles in Ho. apply andb_true_iff in Ho as [Hpkg Hroot].
  apply existsb_exists in Hroot as (root & Hin & Hprefix).
  split; [exact Hpkg|]. by exists root.
Qed.

(** X17.  When [filepath.Dir] takes every path other than [.] and [/] to
    one of these two or to a shorter path, [findPackageContainingFile]
    returns.  The package it returns is the
    nearest proper ancestor of the file, short of [.] and [/], that holds
    a manifest and starts with one of the roots (as a string: the test is
    [strings.HasPrefix]); it fails exactly when the chain of parents
    reaches [.] or [/] without meeting such a directory. *)
Theorem findPackageContainingFile_spec (file : string) :
  exists r,
    findPackageContainingFile w file dirs = Some r
    /\ exists n,
        (forall m, m < n -> up (S m) file <> "." /\ up (S m) file <> "/"
                            /\ ownsFiles w dirs (up (S m) file) = false)
        /\ match r with
           | Ok packageDir =>
               packageDir = up (S n) file
               /\ packageDir <> "." /\ packageDir <> "/"
               /\ IsZarfPackage w packageDir = true
               /\ exists root, In root dirs /\ Strings.HasPrefix packageDir root = true
           | Fail e =>
               e = "file " +:+ file +:+ " is not in a Zarf package"
               /\ (up (S n) file = "." \/ up (S n) file = "/")
           end.
Proof.
  unfold findPackageContainingFile.
  destruct (walkUp_total (walkUpFuel (Dir w file)) (Dir w file)) as [r Hrun];
    [right; unfold walkUpFuel; lia|].
  rewrite Hrun. destruct (walkUp_spec _ _ _ Hrun) as (n & Hbefore & Hend).
  assert (Hup : forall m, up m (Dir w file) = up (S m) file)
    by (intros m; unfold up; by rewrite Nat.iter_succ_r).
  assert (Hbefore' : forall m, m < n -> up (S m) file <> "." /\ up (S m) file <> "/"
                                        /\ ownsFiles w dirs (up (S m) file) = false).
  { intros m Hm. destruct (Hbefore m Hm) as [Ht Ho]. rewrite Hup in Ht, Ho.
    unfold terminal in Ht. tauto. }
  destruct r as [packageDir|].
  - eexists. split; [reflexivity|]. exists n. split; [exact Hbefore'|].
    destruct Hend as (-> & Ht & Ho). rewrite Hup in *. unfold terminal in Ht.
    unfold ownsFiles in Ho. apply andb_true_iff in Ho as [Hpkg Hroot].
    apply existsb_exists in Hroot as (root & Hin & Hprefix).
    repeat split; try tauto. by exists root.
  - eexists. split; [reflexivity|]. exists n. split; [exact Hbefore'|].
    rewrite Hup in Hend. by split.
Qed.

Lemma changedFiles_spec files :
  forall acc : gset string,
  exists packages,
    fold_left (changedFileStep w dirs) files (Some acc) = Some packages
    /\ forall packageDir,
        packageDir ∈ packages
        <-> packageDir ∈ acc
            \/ (packageDir <> EmptyString
                /\ exists file, In file files
                                /\ findPackageContainingFile w file dirs
                                   = Some (Ok packageDir)).
Proof.
  induction files as [|file files IH]; intros acc; cbn [fold_left].
  - exists acc. split; [reflexivity|]. intros p. split; [by left|].
    intros [H|(_ & f & [] & _)]. exact H.
  - destruct (findPackageContainingFile_total file) as (r & Hrun).
    unfold changedFileStep at 2. rewrite Hrun.
    destruct r as [packageDir0|e].
    + unfold nonEmpty. destruct (String.eqb_spec packageDir0 EmptyString) as [He|He];
        cbn [negb].
      * destruct (IH acc) as (packages & Hfold & Hiff). exists packages.
        split; [exact Hfold|]. intros p. rewrite Hiff. split.
        -- intros [H|(Hne & f & Hin & Hf)]; [by left|]. right. split; [exact Hne|].
           exists f. split; [by right | exact Hf].
        -- intros [H|(Hne & f & [<-|Hin] & Hf)]; [by left | | ].
           ++ rewrite Hrun in Hf. injection Hf as ->. congruence.
           ++ right. split; [exact Hne|]. by exists f.
      * destruct (IH ({[packageDir0]} ∪ acc)) as (packages & Hfold & Hiff).
        exists packages. split; [exact Hfold|]. intros p.
        rewrite Hiff, elem_of_union, elem_of_singleton. split.
        -- intros [[->|H]|(Hne & f & Hin & Hf)].
           ++ right. split; [exact He|]. exists file. split; [by left | exact Hrun].
           ++ by left.
           ++ right. split; [exact Hne|]. exists f. split; [by right | exact Hf].
        -- intros [H|(Hne & f & [<-|Hin] & Hf)].
           ++ left. by right.
           ++ rewrite Hrun in Hf. injection Hf as ->. left. by left.
           ++ right. split; [exact Hne|]. by exists f.
    + destruct (IH acc) as (packages & Hfold & Hiff). exists packages.
      split; [exact Hfold|]. intros p. rewrite Hiff. split.
      * intros [H|(Hne & f & Hin & Hf)]; [by left|]. right. split; [exact Hne|].
        exists f. split; [by right | exact Hf].
      * intros [H|(Hne & f & [<-|Hin] & Hf)]; [by left | | ].
        -- rewrite Hrun in Hf. discriminate Hf.
        -- right. split; [exact Hne|]. by exists f.
Qed.

(** X18.  Under the same condition on [filepath.Dir],
    [FindChangedPackages] returns.  A failure of the merge base or of the
    listing of changed files is its error; otherwise it returns, without
    repetition, exactly the packages that own some changed file, each a
    directory with a manifest under a configured root, and a changed file
    that no package owns is skipped without an error. *)
Theorem FindChangedPackages_spec (git : Git) (remote targetBranch : string) :
  exists r,
    FindChangedPackages w git remote targetBranch dirs = Some r
    /\ match MergeBase git (remote +:+ "/" +:+ targetBranch) "HEAD" with
       | Fail e => r = Fail ("failed to get merge base: " +:+ e)
       | Ok mergeBase =>
           match ListChangedFilesInDirs git mergeBase dirs with
           | Fail e => r = Fail ("failed to get changed files: " +:+ e)
           | Ok changedFiles =>
               exists packages,
               r = Ok packages
               /\ (forall packageDir,
                      packageDir ∈ packages
                      <-> packageDir <> EmptyString
                          /\ exists file,
                              In file changedFiles
                              /\ findPackageContainingFile w file dirs
                                 = Some (Ok packageDir))
               /\ (forall packageDir,
                      packageDir ∈ packages ->
                      IsZarfPackage w packageDir = true
                      /\ exists root, In root dirs
                                      /\ Strings.HasPrefix packageDir root = true)
           end
       end.
Proof.
  unfold FindChangedPackages.
  destruct (MergeBase git _ _) as [mergeBase|e]; [|by eexists].
  destruct (ListChangedFilesInDirs git mergeBase dirs) as [changedFiles|e]; [|by eexists].
  destruct (changedFiles_spec changedFiles ∅) as (packages & Hfold & Hiff).
  rewrite Hfold. eexists. split; [reflexivity|]. exists packages. split; [reflexivity|].
  assert (Hiff' : forall packageDir,
             packageDir ∈ packages
             <-> packageDir <> EmptyString
                 /\ exists file, In file changedFiles
                                 /\ findPackageContainingFile w file dirs
                                    = Some (Ok packageDir)).
  { intros p. rewrite Hiff. split; [|by right].
    intros [H|H]; [by apply not_elem_of_empty in H | exact H]. }
  split; [exact Hiff'|].
  intros p Hp. apply Hiff' in Hp as (_ & file & _ & Hf).
  exact (findPackageContainingFile_Ok file p Hf).
Qed.

End ChangeMapper.

Lemma dirOf_shorter path :
  path <> EmptyString -> String.length (dirOf path) < String.length path.
Proof.
  induction path as [|c rest IH]; [congruence|]. intros _. cbn [dirOf].
  destruct (Strings.Contains rest "/") eqn:Hslash.
  - assert (Hrest : rest <> EmptyString) by (intros ->; discriminate Hslash).
    specialize (IH Hrest). cbn [String.length]. lia.
  - destruct (Ascii.eqb c "/"); [cbn [String.length]; lia|].
    destruct (Strings.HasPrefix rest "/") eqn:Hprefix; [|cbn [String.length]; lia].
    destruct rest; [discriminate Hprefix | cbn [String.length]; lia].
Qed.

Lemma cleanDir_shortens path :
  cleanDir path = "." \/ cleanDir path = "/"
  \/ String.length (cleanDir path) < String.length path.
Proof.
  unfold cleanDir. destruct (dirOf path) as [|c dir] eqn:Hdir.
  - destruct (Strings.HasPrefix path "/"); [right; by left | by left].
  - right. right. rewrite <- Hdir. apply dirOf_shorter. intros ->. discriminate Hdir.
Qed.

(** In the demo workspace the changed page belongs to [packages/web]; the
    README belongs to no package and is skipped. *)
Lemma FindChangedPackages_spec_witness :
  findPackageContainingFile treeWorld "packages/web/files/index.html" ["packages"]
  = Some (Ok "packages/web")
  /\ exists packages,
      FindChangedPackages treeWorld treeGit "origin" "main" ["packages"]
      = Some (Ok packages)
      /\ "packages/web" ∈ packages.
Proof.
  assert (Hshort : dirShortens treeWorld) by (intros path _ _; apply cleanDir_shortens).
  assert (Howner : findPackageContainingFile treeWorld "packages/web/files/index.html"
                     ["packages"] = Some (Ok "packages/web")) by (vm_compute; reflexivity).
  split; [exact Howner|].
  destruct (FindChangedPackages_spec treeWorld ["packages"] Hshort treeGit "origin" "main")
    as (r & Hrun & Hspec).
  cbn [MergeBase ListChangedFilesInDirs treeGit] in Hspec.
  destruct Hspec as (packages & -> & Hiff & _).
  exists packages. split; [exact Hrun|].
  apply Hiff. split; [discriminate|].
  exists "packages/web/files/index.html". split; [by left | exact Howner].
Defined.

Lemma findPackageContainingFile_spec_witness :
  exists e,
    findPackageContainingFile treeWorld "README.md" ["packages"] = Some (Fail e).
Proof.
  assert (Hshort : dirShortens treeWorld) by (intros path _ _; apply cleanDir_shortens).
  destruct (findPackageContainingFile_spec treeWorld ["packages"] Hshort "README.md")
    as (r & Hrun & _).
  destruct r as [p|e]; [vm_compute in Hrun; discriminate Hrun|].
  by exists e.
Defined.

(* ===================================================================== *)
(** * Properties of the deployment driver                                 *)
(* ===================================================================== *)

Ltac deploy_steps dw d packagePath :=
  unfold DeployPackage, checkKubernetesConnection, deployPackageToCluster;
  destruct (IsZarfPackage (world dw) packagePath) eqn:Hpackage; cbn [negb];
  [ destruct (RunProcessAndCaptureOutput (world dw) "zarf" ["version"]) eqn:Hcli;
    [ destruct (RunProcessAndCaptureOutput (world dw) "kubectl" ["cluster-info"]) eqn:Hcluster;
      [ destruct (buildPackage dw packagePath) as [packageTarPath|] eqn:Hbuild;
        [ destruct (RunProcessAndCaptureOutput (world dw) "zarf"
                      ["package"; "deploy"; packageTarPath; "--confirm"]) eqn:Hdeploy;
          [ destruct (testDeployment dw packagePath (generateTestNamespace dw d))
              as [componentResults [err|]] eqn:Htest;
            destruct (SkipCleanup d) eqn:Hskip; cbn [negb];
            try destruct (cleanupDeployment dw (generateTestNamespace dw d)) eqn:Hcleanup
          | ]
        | ]
      | ]
    | ]
  | ];
  cbn [DeployPath Success DeployErrors DeployWarnings ComponentTests
       addDeployError addDeployWarning app isEmptyList].

(** X19.  The result of [DeployPackage] names the path it was
    given, succeeds exactly when it lists no error, lists at most one
    error, and a warning in it can only be the failed cleanup of a run
    that did not skip cleanup. *)
Theorem DeployPackage_verdict (dw : DeployWorld) (d : PackageDeployer) (packagePath : string) :
  let result := DeployPackage dw d packagePath in
  DeployPath result = packagePath
  /\ (Success result = true <-> DeployErrors result = [])
  /\ length (DeployErrors result) <= 1
  /\ (DeployWarnings result <> [] ->
      SkipCleanup d = false
      /\ exists e, cleanupDeployment dw (generateTestNamespace dw d) = Some e
                   /\ DeployWarnings result = ["Cleanup failed: " +:+ e]).
Proof.
  cbv zeta.
  deploy_steps dw d packagePath;
    (split; [reflexivity|]);
    (split; [split; intros H; try reflexivity; discriminate H|]);
    (split; [cbn [length]; lia|]);
    intros Hwarn; try congruence.
  all: split; [reflexivity|]; eexists; split; reflexivity.
Qed.

(** X20.  A successful deployment carries two component tests,
    the pod listing and the package name, and the first of them may have
    failed: success does not depend on it. *)
Theorem Success_ignores_component_tests
        (dw : DeployWorld) (d : PackageDeployer) (packagePath : string) :
  Success (DeployPackage dw d packagePath) = true ->
  exists zarfYaml,
    ReadZarfYaml (world dw) (Join (world dw) packagePath "zarf.yaml") = Ok zarfYaml
    /\ map ComponentName (ComponentTests (DeployPackage dw d packagePath))
       = ["basic-connectivity";
          "package-" +:+ Metadata.Name (ZarfYaml.Metadata zarfYaml)]
    /\ (forallb TestSuccess (ComponentTests (DeployPackage dw d packagePath)) = true
        <-> exists out,
             RunProcessAndCaptureOutput (world dw) "kubectl"
               ["get"; "pods"; "--all-namespaces"] = Ok out).
Proof.
  deploy_steps dw d packagePath; intros Hsuccess; try discriminate Hsuccess.
  all: unfold testDeployment in Htest.
  all: destruct (ReadZarfYaml (world dw) (Join (world dw) packagePath "zarf.yaml"))
         as [zarfYaml|] eqn:Hread; [|discriminate Htest].
  all: exists zarfYaml; split; [reflexivity|].
  all: destruct (RunProcessAndCaptureOutput (world dw) "kubectl"
                   ["get"; "pods"; "--all-namespaces"]) as [out|e] eqn:Hprobe;
         injection Htest as <-;
         cbn [app map ComponentName forallb TestSuccess andb];
         (split; [reflexivity|]);
         split; intros H; try reflexivity; try discriminate H.
  all: try (by exists out).
  all: destruct H as [out H]; discriminate H.
Qed.

Lemma Success_ignores_component_tests_witness :
  Success (DeployPackage unreachablePodsWorld NewPackageDeployer "packages/web") = true
  /\ forallb TestSuccess
       (ComponentTests (DeployPackage unreachablePodsWorld NewPackageDeployer "packages/web"))
     = false.
Proof.
  assert (Hsuccess : Success (DeployPackage unreachablePodsWorld NewPackageDeployer
                                "packages/web") = true) by (vm_compute; reflexivity).
  split; [exact Hsuccess|].
  destruct (Success_ignores_component_tests unreachablePodsWorld NewPackageDeployer
              "packages/web" Hsuccess) as (zarfYaml & _ & _ & Htests).
  destruct (forallb _ _); [|reflexivity].
  destruct (proj1 Htests eq_refl) as [out Hout]. vm_compute in Hout. discriminate Hout.
Defined.

Lemma deployPackagesFrom_acc dw d packagePaths :
  forall results,
    deployPackagesFrom dw d packagePaths results
    = results ++ deployPackagesFrom dw d packagePaths [].
Proof.
  induction packagePaths as [|path rest IH]; intros results; cbn [deployPackagesFrom].
  - by rewrite app_nil_r.
  - cbn [app]. destruct (negb (Success (DeployPackage dw d path)) && negb (SkipCleanup d));
      [reflexivity|].
    rewrite (IH (results ++ _)), (IH [_]). by rewrite <- app_assoc.
Qed.

(** X21.  [DeployPackages] deploys a prefix of the paths, in
    order.  When cleanup is skipped the prefix is the whole list; when it
    is not, only the last result can be a failure, and the paths after a
    failure are not deployed. *)
Theorem DeployPackages_fail_fast (dw : DeployWorld) (d : PackageDeployer)
        (packagePaths : list string) :
  exists n,
    n <= length packagePaths
    /\ DeployPackages dw d packagePaths = map (DeployPackage dw d) (take n packagePaths)
    /\ (forall i result,
           DeployPackages dw d packagePaths !! i = Some result ->
           Success result = false -> SkipCleanup d = false -> S i = n)
    /\ (n < length packagePaths ->
        SkipCleanup d = false
        /\ exists result,
            last (DeployPackages dw d packagePaths) = Some result
            /\ Success result = false).
Proof.
  unfold DeployPackages.
  induction packagePaths as [|path rest IH]; cbn [deployPackagesFrom].
  - exists 0. cbn. repeat split; [lia | intros i r H; discriminate H | lia | lia].
  - cbn [app].
    destruct (negb (Success (DeployPackage dw d path)) && negb (SkipCleanup d)) eqn:Hstop.
    + apply andb_true_iff in Hstop as [Hfail Hskip].
      apply negb_true_iff in Hfail, Hskip.
      exists 1. cbn [length take map]. rewrite take_0. cbn [map].
      repeat split; [lia | | exact Hskip | ].
      * intros [|i] r H; [reflexivity | discriminate H].
      * exists (DeployPackage dw d path). by split.
    + destruct IH as (n & Hn & Hrun & Honly & Hshort).
      rewrite deployPackagesFrom_acc. exists (S n).
      cbn [length take map app]. rewrite <- Hrun.
      repeat split; [lia | | | ].
      * intros [|i] r Hi Hfail Hskip.
        -- injection Hi as <-. rewrite Hfail, Hskip in Hstop. discriminate Hstop.
        -- f_equal. by apply (Honly i r).
      * apply Hshort. lia.
      * destruct Hshort as (_ & r & Hlast & Hfail); [lia|].
        exists r. split; [|exact Hfail].
        destruct (deployPackagesFrom dw d rest []) as [|r0 rs]; [discriminate Hlast|].
        exact Hlast.
Qed.

(** X22.  [HasDeploymentErrors] is false on the results of
    [DeployPackages] exactly when every path of the batch deploys
    successfully, and then no path was left out. *)
Theorem clean_batch_deployed_everything (dw : DeployWorld) (d : PackageDeployer)
        (packagePaths : list string) :
  (HasDeploymentErrors (DeployPackages dw d packagePaths) = false
   <-> forall path, In path packagePaths -> Success (DeployPackage dw d path) = true)
  /\ (HasDeploymentErrors (DeployPackages dw d packagePaths) = false ->
      DeployPackages dw d packagePaths = map (DeployPackage dw d) packagePaths).
Proof.
  unfold DeployPackages.
  induction packagePaths as [|path rest [IHiff IHall]]; cbn [deployPackagesFrom].
  - split; [|reflexivity]. split; [intros _ path [] | reflexivity].
  - cbn [app map].
    destruct (Success (DeployPackage dw d path)) eqn:Hsuccess; cbn [negb andb].
    + rewrite deployPackagesFrom_acc. cbn [app HasDeploymentErrors].
      rewrite Hsuccess. cbn [negb]. split.
      * rewrite IHiff. split.
        -- intros H p [<-|Hin]; [exact Hsuccess | by apply H].
        -- intros H p Hin. apply H. by right.
      * intros H. by rewrite (IHall H).
    + assert (Hbad : forall results,
                 HasDeploymentErrors (DeployPackage dw d path :: results) = true)
        by (intros results; cbn [HasDeploymentErrors]; by rewrite Hsuccess).
      assert (Hrun : HasDeploymentErrors
                       (if negb (SkipCleanup d) then [DeployPackage dw d path]
                        else deployPackagesFrom dw d rest [DeployPackage dw d path])
                     = true).
      { destruct (negb (SkipCleanup d)); [apply Hbad|].
        rewrite deployPackagesFrom_acc. apply Hbad. }
      rewrite Hrun. split; [|discriminate]. split; [discriminate|].
      intros H. specialize (H path (or_introl eq_refl)). congruence.
Qed.

(* ===================================================================== *)
(** * Properties of the reading of the lint output                        *)
(* ===================================================================== *)

Lemma append_empty_r s : s +:+ EmptyString = s.
Proof. induction s as [|c s IH]; [reflexivity|]. exact (f_equal (String c) IH). Qed.

Lemma prefix_drop p :
  forall s, String.prefix p s = true -> s = p +:+ Strings.drop_bytes (String.length p) s.
Proof.
  induction p as [|a p IH]; intros s Hp; [reflexivity|].
  destruct s as [|b s]; [discriminate Hp|].
  cbn [String.prefix] in Hp. destruct (ascii_dec a b) as [->|]; [|discriminate Hp].
  exact (f_equal (String b) (IH s Hp)).
Qed.

(** With no cut left, the loop returns the rest of the text after the
    bytes it still has to skip. *)
Lemma genSplit_rest sep skip :
  forall s, Strings.genSplit sep (Some 0) skip EmptyString s = [Strings.drop_bytes skip s].
Proof.
  induction skip as [|skip IH]; intros [|c s]; cbn [Strings.genSplit Strings.drop_bytes];
    try reflexivity.
  apply IH.
Qed.

(** [SplitN] with a bound of two pieces cuts at the first occurrence of
    the separator. *)
Lemma genSplit_first d sep s :
  forall acc,
    Strings.Contains s (String d sep) = true ->
    exists pre post,
      s = pre +:+ String d sep +:+ post
      /\ Strings.genSplit (String d sep) (Some 1) 0 acc s = [acc +:+ pre; post]
      /\ forall i, i < String.length pre ->
                   String.prefix (String d sep) (Strings.drop_bytes i s) = false.
Proof.
  induction s as [|c s IH]; intros acc Hin; [discriminate Hin|].
  cbn [Strings.Contains] in Hin. cbn [Strings.genSplit].
  destruct (String.prefix (String d sep) (String c s)) eqn:Hp.
  - exists EmptyString, (Strings.drop_bytes (String.length sep) s). split; [|split].
    + exact (prefix_drop _ _ Hp).
    + cbn [fmap option_fmap option_map pred String.length].
      replace (S (String.length sep) - 1) with (String.length sep) by lia.
      by rewrite genSplit_rest, append_empty_r.
    + cbn [String.length]. intros i Hi. lia.
  - destruct (IH (acc +:+ String c EmptyString) Hin) as (pre & post & Hs & Hrun & Hfirst).
    exists (String c pre), post. split; [|split].
    + exact (f_equal (String c) Hs).
    + rewrite Hrun. by rewrite append_assoc.
    + intros [|i] Hi; [exact Hp|]. cbn [Strings.drop_bytes]. apply Hfirst.
      cbn [String.length] in Hi. lia.
Qed.

Lemma Contains_nonEmpty s d sep :
  Strings.Contains s (String d sep) = true -> nonEmpty s = true.
Proof. by destruct s. Qed.

(** X23.  On a failed lint run, a line that carries the error
    marker records the text after the first marker as one error; the
    branch for a split that is not in two pieces is never taken. *)
Theorem error_line_records_text_after_marker (result : ValidationResult) (line : string) :
  Strings.Contains (Strings.TrimSpace line) "Using build directory" = false ->
  Strings.Contains (Strings.TrimSpace line) " ERR " = true ->
  exists pre message,
    Strings.TrimSpace line = pre +:+ " ERR " +:+ message
    /\ (forall i, i < String.length pre ->
                  Strings.HasPrefix (Strings.drop_bytes i (Strings.TrimSpace line)) " ERR "
                  = false)
    /\ lintFailureLine result line = appendError result message.
Proof.
  intros Hbuild Herr. unfold lintFailureLine. cbv zeta.
  destruct (genSplit_first _ _ _ EmptyString Herr) as (pre & message & Htext & Hsplit & Hfirst).
  exists pre, message. split; [exact Htext|]. split; [exact Hfirst|].
  rewrite (Contains_nonEmpty _ _ _ Herr), Hbuild, Herr. cbn [negb andb].
  unfold Strings.SplitN. rewrite Hsplit. reflexivity.
Qed.

Lemma error_line_records_text_after_marker_witness :
  exists pre message,
    Strings.TrimSpace "12:00 ERR bad ERR worse" = pre +:+ " ERR " +:+ message
    /\ lintFailureLine (freshResult "packages/web" true) "12:00 ERR bad ERR worse"
       = appendError (freshResult "packages/web" true) message.
Proof.
  destruct (error_line_records_text_after_marker
              (freshResult "packages/web" true) "12:00 ERR bad ERR worse"
              eq_refl eq_refl) as (pre & message & Htext & _ & Hrun).
  by exists pre, message.
Defined.

(** X24.  A line that carries the warning marker and not the
    error marker records the text after the first warning marker as one
    warning, whether the lint run failed or not. *)
Theorem warning_line_records_text_after_marker (result : ValidationResult) (line : string) :
  Strings.Contains (Strings.TrimSpace line) "Using build directory" = false ->
  Strings.Contains (Strings.TrimSpace line) " ERR " = false ->
  Strings.Contains (Strings.TrimSpace line) " WRN " = true ->
  exists pre message,
    Strings.TrimSpace line = pre +:+ " WRN " +:+ message
    /\ (forall i, i < String.length pre ->
                  Strings.HasPrefix (Strings.drop_bytes i (Strings.TrimSpace line)) " WRN "
                  = false)
    /\ lintFailureLine result line = appendWarning result message
    /\ lintSuccessLine result line = appendWarning result message.
Proof.
  intros Hbuild Herr Hwarn. unfold lintFailureLine, lintSuccessLine. cbv zeta.
  destruct (genSplit_first _ _ _ EmptyString Hwarn) as (pre & message & Htext & Hsplit & Hfirst).
  exists pre, message. split; [exact Htext|]. split; [exact Hfirst|].
  rewrite (Contains_nonEmpty _ _ _ Hwarn), Hbuild, Herr, Hwarn. cbn [negb andb].
  unfold Strings.SplitN. rewrite Hsplit. by split.
Qed.

Lemma warning_line_records_text_after_marker_witness :
  exists pre message,
    Strings.TrimSpace "  12:00 WRN image not pinned  " = pre +:+ " WRN " +:+ message
    /\ lintSuccessLine (freshResult "packages/web" true) "  12:00 WRN image not pinned  "
       = appendWarning (freshResult "packages/web" true) message.
Proof.
  destruct (warning_line_records_text_after_marker
              (freshResult "packages/web" true) "  12:00 WRN image not pinned  "
              eq_refl eq_refl eq_refl) as (pre & message & Htext & _ & _ & Hrun).
  by exists pre, message.
Defined.

(* ===================================================================== *)
(** * Properties of the search for changed files by name                  *)
(* ===================================================================== *)

Lemma matchingFiles_spec (keep : string -> bool) files :
  forall matchingFiles,
    fold_left (fun matchingFiles file =>
                 if keep file then matchingFiles ++ [file] else matchingFiles)
              files matchingFiles
    = matchingFiles ++ List.filter keep files.
Proof.
  induction files as [|file files IH]; intros matchingFiles; cbn [fold_left List.filter].
  - by rewrite app_nil_r.
  - rewrite IH. destruct (keep file); [|reflexivity]. by rewrite <- app_assoc.
Qed.

(** X25.  [GetChangedFilesMatchingPattern] fails exactly when the
    merge base or the listing fails, with the error of that step behind a
    prefix; otherwise it returns the files changed under [.] whose last
    element is the pattern, all of them, once each, in the order of the
    listing. *)
Theorem GetChangedFilesMatchingPattern_spec
        (git : Git) (base : string -> string) (remote targetBranch pattern : string) :
  match MergeBase git (remote +:+ "/" +:+ targetBranch) "HEAD" with
  | Fail e =>
      GetChangedFilesMatchingPattern git base remote targetBranch pattern
      = Fail ("failed to get merge base: " +:+ e)
  | Ok mergeBase =>
      match ListChangedFilesInDirs git mergeBase ["."] with
      | Fail e =>
          GetChangedFilesMatchingPattern git base remote targetBranch pattern
          = Fail ("failed to get changed files: " +:+ e)
      | Ok allChangedFiles =>
          exists matchingFiles,
          GetChangedFilesMatchingPattern git base remote targetBranch pattern
          = Ok matchingFiles
          /\ matchingFiles `sublist_of` allChangedFiles
          /\ (forall file,
                 In file matchingFiles
                 <-> In file allChangedFiles /\ base file = pattern)
          /\ (forall file,
                 count_occ string_dec matchingFiles file
                 = if String.eqb (base file) pattern
                   then count_occ string_dec allChangedFiles file else 0)
      end
  end.
Proof.
  unfold GetChangedFilesMatchingPattern.
  destruct (MergeBase git _ _) as [mergeBase|e]; [|reflexivity].
  destruct (ListChangedFilesInDirs git mergeBase ["."]) as [allChangedFiles|e];
    [|reflexivity].
  rewrite (matchingFiles_spec (fun file => String.eqb (base file) pattern)). cbn [app].
  eexists. split; [reflexivity|]. split; [apply filter_sublist|]. split.
  - intros file. rewrite List.filter_In. by rewrite String.eqb_eq.
  - intros file. induction allChangedFiles as [|f files IH]; cbn [List.filter].
    + by destruct (String.eqb _ _).
    + destruct (string_dec f file) as [->|Hne].
      * destruct (String.eqb (base file) pattern) eqn:Hkeep.
        -- rewrite !count_occ_cons_eq by reflexivity. by rewrite IH.
        -- exact IH.
      * destruct (String.eqb (base f) pattern).
        -- rewrite count_occ_cons_neq by exact Hne. rewrite IH.
           destruct (String.eqb _ _); [|reflexivity].
           by rewrite count_occ_cons_neq by exact Hne.
        -- rewrite IH. destruct (String.eqb _ _); [|reflexivity].
           by rewrite count_occ_cons_neq by exact Hne.
Qed.

(* ===================================================================== *)
(** * Properties of the naming convention                                 *)
(* ===================================================================== *)

Lemma lowerByte_fixed c : Strings.lowerByte c = c <-> ~ isUpper c.
Proof.
  unfold Strings.lowerByte, isUpper.
  destruct (65 <=? nat_of_ascii c)%nat eqn:Hlo; cbn [andb];
    [destruct (nat_of_ascii c <=? 90)%nat eqn:Hhi|].
  - apply Nat.leb_le in Hlo, Hhi. split; [|lia]. intros Heq.
    apply (f_equal nat_of_ascii) in Heq.
    rewrite nat_ascii_embedding in Heq by lia. lia.
  - apply Nat.leb_gt in Hhi. split; [lia | reflexivity].
  - apply Nat.leb_gt in Hlo. split; [lia | reflexivity].
Qed.

Lemma lowerBytes_fixed s :
  Strings.lowerBytes s = s <-> forall c, In c (list_ascii_of_string s) -> ~ isUpper c.
Proof.
  induction s as [|a s IH]; cbn [Strings.lowerBytes list_ascii_of_string].
  - split; [intros _ c [] | reflexivity].
  - split.
    + intros [= Ha Hs] c [<-|Hin]; [by apply lowerByte_fixed | by apply IH].
    + intros H. f_equal.
      * apply lowerByte_fixed, H. by left.
      * apply IH. intros c Hin. apply H. by right.
Qed.

Lemma Contains_byte s b :
  Strings.Contains s (String b EmptyString) = true <-> In b (list_ascii_of_string s).
Proof.
  induction s as [|a s IH]; cbn [Strings.Contains String.prefix list_ascii_of_string].
  - split; [discriminate | intros []].
  - destruct (ascii_dec b a) as [->|Hne].
    + split; [by left | by destruct s].
    + rewrite IH. split; [by right | intros [->|H]; [congruence | exact H]].
Qed.

(** X26.  A name made of ASCII bytes only is accepted by
    [isValidComponentName] exactly when it has no space and no upper-case
    letter: the empty name, underscores, dots and digits all pass.  (A
    name with other bytes is compared with its Unicode lower-case
    mapping, which the case tables of the runtime decide.) *)
Theorem isValidComponentName_spec (w : World) (name : string) :
  Strings.isASCII name = true ->
  (isValidComponentName w name = true
   <-> forall c, In c (list_ascii_of_string name) -> c <> " "%char /\ ~ isUpper c).
Proof.
  intros Hascii. unfold isValidComponentName, Strings.ToLower. rewrite Hascii.
  destruct (Strings.Contains name " ") eqn:Hspace.
  - apply Contains_byte in Hspace. split; [discriminate|].
    intros H. by destruct (H _ Hspace) as [Hne _].
  - destruct (String.eqb_spec (Strings.lowerBytes name) name) as [Hlow|Hlow]; cbn [negb].
    + split; [|reflexivity]. intros _ c Hin. split.
      * intros ->. apply Contains_byte in Hin. congruence.
      * by apply (proj1 (lowerBytes_fixed name) Hlow).
    + split; [discriminate|]. intros H. exfalso. apply Hlow, lowerBytes_fixed.
      intros c Hin. by apply H.
Qed.

(** An underscore, a dot and a digit pass. *)
Lemma isValidComponentName_spec_witness :
  isValidComponentName cycleWorld "web_server.v2" = true.
Proof.
  apply (proj2 (isValidComponentName_spec cycleWorld "web_server.v2" eq_refl)).
  intros c Hin. cbn [list_ascii_of_string In] in Hin.
  repeat (destruct Hin as [<-|Hin];
          [split; [discriminate | unfold isUpper; vm_compute; lia]|]).
  destruct Hin.
Defined.
